(** * Learning-path service: recommendation enhancement and content fallback

    A shallow embedding of the video search client and the recommendation
    enhancer ([youtube_service.py]), of the content generator's parsing,
    self-repair and fallback paths ([gemini_service.py]) and of the path
    assembly step ([routes.py]), together with the properties stated about
    them.

    Conventions.
    - Python values decoded from JSON are terms of [value]; a JSON real
      number behaves like [VInt] in every operation used here.
    - A character is a code point below 256 ([ascii]); a Python [str] is a
      [string].
    - Code that can raise runs in [result]; every exception modelled is a
      subclass of Python's [Exception].
    - The dictionaries built by the code with a fixed set of keys
      ([video_info], a recommendation, the learning path) are records.
    - The enhancer is given twice: at the types of [learning_path.py]
      ([enhance_learning_path_with_youtube]), and on modules of any shape
      ([enhance_generated_path]), which is how [routes.py] calls it; the
      two agree on modules that fit the types
      ([enhance_generated_path_typed]). *)

From Stdlib Require Import Ascii String.
From stdpp Require Import base strings list gmap pretty.

Set Warnings "-register-all".
Local Open Scope Z_scope.

(** ** Exceptions and the [result] monad *)

Inductive exn : Type :=
  | KeyError
  | TypeError
  | AttributeError
  | IndexError
  | ValueError
  | JSONDecodeError
  | TimeoutError
  | RequestException
  | RuntimeError.

Inductive result (A : Type) : Type :=
  | Ok (a : A)
  | Raise (e : exn).
Arguments Ok {A} a.
Arguments Raise {A} e.

#[global] Instance result_ret : MRet result := λ A a, Ok a.
#[global] Instance result_bind : MBind result := λ A B f m,
  match m with
  | Ok a => f a
  | Raise e => Raise e
  end.

(** [try: body  except Exception as e: handler e] *)
Definition try_except {A} (body : result A) (handler : exn → result A) : result A :=
  match body with
  | Ok a => Ok a
  | Raise e => handler e
  end.

(** [for x in l: body x], for a body that only raises or returns a value
    to accumulate. *)
Fixpoint for_collect {A B} (body : A → result B) (l : list A) : result (list B) :=
  match l with
  | [] => Ok []
  | x :: l' =>
      y ← body x;
      ys ← for_collect body l';
      mret (y :: ys)
  end.

(** ** Python values *)

Inductive value : Type :=
  | VNone
  | VBool (b : bool)
  | VInt (z : Z)
  | VStr (s : string)
  | VList (l : list value)
  | VDict (d : list (string * value)).

(** A [dict] with string keys, in insertion order, without duplicate keys. *)
Abbreviation dict := (list (string * value)).

Fixpoint dict_get (k : string) (d : dict) : option value :=
  match d with
  | [] => None
  | (k', v) :: d' => if decide (k = k') then Some v else dict_get k d'
  end.

(** [d[k] = v]: replace in place, or append a new key. *)
Fixpoint dict_set (k : string) (v : value) (d : dict) : dict :=
  match d with
  | [] => [(k, v)]
  | (k', v') :: d' =>
      if decide (k = k') then (k, v) :: d' else (k', v') :: dict_set k v d'
  end.

(** ** Strings *)

Definition dquote : string := String (ascii_of_nat 34) "".

Fixpoint string_take (n : nat) (s : string) : string :=
  match n, s with
  | O, _ => ""
  | S _, "" => ""
  | S n', String c s' => String c (string_take n' s')
  end.

Fixpoint chars (s : string) : list string :=
  match s with
  | "" => []
  | String c s' => String c "" :: chars s'
  end.

Fixpoint join (sep : string) (l : list string) : string :=
  match l with
  | [] => ""
  | [s] => s
  | s :: l' => s +:+ sep +:+ join sep l'
  end.

Fixpoint is_prefix (p s : string) : bool :=
  match p, s with
  | "", _ => true
  | String _ _, "" => false
  | String a p', String b s' => bool_decide (a = b) && is_prefix p' s'
  end.

(** [p in s] for two strings. *)
Fixpoint is_substring (p s : string) : bool :=
  is_prefix p s ||
  match s with
  | "" => false
  | String _ s' => is_substring p s'
  end.

(** [str.lower] on code points below 256. *)
Definition lower_char (c : ascii) : ascii :=
  let n := nat_of_ascii c in
  if ((65 <=? n)%nat && (n <=? 90)%nat)
     || ((192 <=? n)%nat && (n <=? 222)%nat && negb (n =? 215)%nat)
  then ascii_of_nat (n + 32) else c.

Fixpoint lower (s : string) : string :=
  match s with
  | "" => ""
  | String c s' => String (lower_char c) (lower s')
  end.

(** [str.isspace] on one code point below 256. *)
Definition is_space (c : ascii) : bool :=
  let n := nat_of_ascii c in
  ((9 <=? n)%nat && (n <=? 13)%nat) || ((28 <=? n)%nat && (n <=? 32)%nat)
  || (n =? 133)%nat || (n =? 160)%nat.

(** [str.split()] without arguments: the maximal runs of non-space
    characters. [cur] is the run being read. *)
Fixpoint split_go (cur : string) (s : string) : list string :=
  match s with
  | "" => if decide (cur = "") then [] else [cur]
  | String c s' =>
      if is_space c
      then (if decide (cur = "") then [] else [cur]) ++ split_go "" s'
      else split_go (cur +:+ String c "") s'
  end.
Definition split (s : string) : list string := split_go "" s.

(** [l[-1]] *)
Definition py_last {A} (l : list A) : result A :=
  match last l with
  | Some x => Ok x
  | None => Raise IndexError
  end.

(** ** [str()] and [repr()] of a value, as used by an f-string *)

Definition hex_digit (n : nat) : ascii :=
  ascii_of_nat (if (n <? 10)%nat then 48 + n else 87 + n).

Definition repr_char (quote : ascii) (c : ascii) : string :=
  let n := nat_of_ascii c in
  if bool_decide (c = quote) || (n =? 92)%nat then String (ascii_of_nat 92) (String c "")
  else if (n =? 9)%nat then String (ascii_of_nat 92) "t"
  else if (n =? 10)%nat then String (ascii_of_nat 92) "n"
  else if (n =? 13)%nat then String (ascii_of_nat 92) "r"
  else if (n <? 32)%nat || ((127 <=? n)%nat && (n <=? 160)%nat) || (n =? 173)%nat
  then String (ascii_of_nat 92)
         (String "x" (String (hex_digit (n / 16)) (String (hex_digit (n mod 16)) "")))
  else String c "".

Fixpoint repr_chars (quote : ascii) (s : string) : string :=
  match s with
  | "" => ""
  | String c s' => repr_char quote c +:+ repr_chars quote s'
  end.

Definition repr_str (s : string) : string :=
  let quote :=
    if is_substring "'" s && negb (is_substring dquote s)
    then ascii_of_nat 34 else ascii_of_nat 39 in
  String quote (repr_chars quote s) +:+ String quote "".

Fixpoint py_repr (v : value) : string :=
  match v with
  | VNone => "None"
  | VBool true => "True"
  | VBool false => "False"
  | VInt z => pretty z
  | VStr s => repr_str s
  | VList l => "[" +:+ join ", " (map py_repr l) +:+ "]"
  | VDict d =>
      "{" +:+ join ", " (map (λ kv, repr_str kv.1 +:+ ": " +:+ py_repr kv.2) d) +:+ "}"
  end.

Definition py_str (v : value) : string :=
  match v with
  | VStr s => s
  | _ => py_repr v
  end.

(** ** Dynamic operations *)

(** [len(v)] *)
Definition py_len (v : value) : result nat :=
  match v with
  | VStr s => Ok (String.length s)
  | VList l => Ok (length l)
  | VDict d => Ok (length d)
  | _ => Raise TypeError
  end.

(** [v[k]] for a string key [k]. *)
Definition py_getitem (v : value) (k : string) : result value :=
  match v with
  | VDict d => match dict_get k d with Some x => Ok x | None => Raise KeyError end
  | _ => Raise TypeError
  end.

(** [v.get(k, default)] *)
Definition py_get (v : value) (k : string) (dflt : value) : result value :=
  match v with
  | VDict d => Ok (from_option id dflt (dict_get k d))
  | _ => Raise AttributeError
  end.

(** [v[:stop]]: a negative [stop] counts from the end. *)
Definition slice_stop (len : nat) (stop : Z) : nat :=
  if (stop <? 0)%Z then Z.to_nat (Z.of_nat len + stop) else Z.to_nat stop.

Definition py_slice_to (v : value) (stop : Z) : result value :=
  match v with
  | VList l => Ok (VList (take (slice_stop (length l) stop) l))
  | VStr s => Ok (VStr (string_take (slice_stop (String.length s) stop) s))
  | _ => Raise TypeError
  end.

(** The elements visited by [for x in v]. *)
Definition py_iter (v : value) : result (list value) :=
  match v with
  | VList l => Ok l
  | VStr s => Ok (VStr <$> chars s)
  | VDict d => Ok ((λ kv, VStr kv.1) <$> d)
  | _ => Raise TypeError
  end.

(** [v + s] for a string literal [s]. *)
Definition py_add_str (v : value) (s : string) : result value :=
  match v with
  | VStr x => Ok (VStr (x +:+ s))
  | _ => Raise TypeError
  end.

(** [k in v] for a string [k]. *)
Definition py_contains (k : string) (v : value) : result bool :=
  match v with
  | VDict d => Ok (bool_decide (is_Some (dict_get k d)))
  | VList l => Ok (existsb (λ x, match x with VStr s => bool_decide (s = k) | _ => false end) l)
  | VStr s => Ok (is_substring k s)
  | _ => Raise TypeError
  end.

(** [v[k] = x] for a string key [k]. *)
Definition py_setitem (v : value) (k : string) (x : value) : result value :=
  match v with
  | VDict d => Ok (VDict (dict_set k x d))
  | _ => Raise TypeError
  end.

(** Truth value of a Python value. *)
Definition py_truthy (v : value) : bool :=
  match v with
  | VNone => false
  | VBool b => b
  | VInt z => negb (bool_decide (z = 0))
  | VStr s => negb (bool_decide (s = ""))
  | VList l => negb (bool_decide (l = []))
  | VDict d => negb (bool_decide (d = []))
  end.

(** [v.lower()] *)
Definition py_lower (v : value) : result string :=
  match v with
  | VStr s => Ok (lower s)
  | _ => Raise AttributeError
  end.

(** Truth value of an optional string, as [os.environ.get] returns it. *)
Definition truthy_opt (o : option string) : bool :=
  match o with
  | Some s => negb (bool_decide (s = ""))
  | None => false
  end.

(** * youtube_service.py *)

(** ** The search client: [search_youtube_videos] *)

(** What [requests.get] returns: the status, the body text, and what
    [response.json()] gives on that body. *)
Record Response := {
  status_code : Z;
  text : string;
  json : result value
}.

(** The process environment and the network, at one call. *)
Record Env := {
  YOUTUBE_API_KEY : option string;
  requests_get : string → dict → Z → result Response
}.

(** The [video_info] dictionary. *)
Record VideoRecord := {
  video_title : value;
  video_url : string;
  video_description : value;
  video_channel : value;
  video_published_at : value;
  video_thumbnails : value
}.

(** [item['snippet'][k]] *)
Definition snippet_field (item : value) (k : string) : result value :=
  snippet ← py_getitem item "snippet";
  py_getitem snippet k.

(** [d[:200] + "..." if len(d) > 200 else d] *)
Definition truncate_description (d : value) : result value :=
  n ← py_len d;
  if (200 <? n)%nat then
    head ← py_slice_to d 200;
    py_add_str head "..."
  else mret d.

(** The body of the loop over the provider's items. *)
Definition video_info (item : value) : result VideoRecord :=
  title ← snippet_field item "title";
  id ← py_getitem item "id";
  video_id ← py_getitem id "videoId";
  d ← snippet_field item "description";
  description ← truncate_description d;
  channel ← snippet_field item "channelTitle";
  published_at ← snippet_field item "publishedAt";
  thumbnails ← snippet_field item "thumbnails";
  mret {| video_title := title;
          video_url := "https://www.youtube.com/watch?v=" +:+ py_str video_id;
          video_description := description;
          video_channel := channel;
          video_published_at := published_at;
          video_thumbnails := thumbnails |}.

Definition search_url : string := "https://www.googleapis.com/youtube/v3/search".

Definition search_params (query : string) (max_results : Z) (api_key : string) : dict :=
  [("part", VStr "snippet");
   ("q", VStr query);
   ("type", VStr "video");
   ("maxResults", VInt max_results);
   ("key", VStr api_key);
   ("videoDuration", VStr "medium");
   ("order", VStr "relevance")].

(** The statements under [if response.status_code == 200]. *)
Definition collect_videos (response : Response) (max_results : Z)
    : result (list VideoRecord) :=
  data ← json response;
  items ← py_get data "items" (VList []);
  sliced ← py_slice_to items max_results;
  elems ← py_iter sliced;
  for_collect video_info elems.

Definition search_youtube_videos (env : Env) (query : string) (max_results : Z)
    : result (list VideoRecord) :=
  let api_key := YOUTUBE_API_KEY env in
  if negb (truthy_opt api_key) then mret []
  else
    let params := search_params query max_results (default "" api_key) in
    try_except
      (response ← requests_get env search_url params 10;
       if decide (status_code response = 200)
       then collect_videos response max_results
       else mret [])
      (λ _, mret []).

(** ** The enhancer: [enhance_learning_path_with_youtube] *)

(** A module of the path, at the types of [learning_path.py]; a missing
    [title] reads as the empty string and a missing [subtopics] as the
    empty list, which is what [module.get] gives the enhancer. *)
Record LearningModule := {
  title : string;
  subtopics : list string
}.

(** The dictionary [{'title': .., 'url': .., 'keywords': ..}] the enhancer
    builds for one video. *)
Record Recommendation := {
  rec_title : value;
  rec_url : string;
  rec_keywords : list string
}.

Definition recommendation_value (r : Recommendation) : value :=
  VDict [("title", rec_title r);
         ("url", VStr (rec_url r));
         ("keywords", VList (VStr <$> rec_keywords r))].

(** The learning path assembled by [routes.py]. The recommendations and
    the quiz are whatever the generator supplied. *)
Record LearningPath := {
  topic : string;
  modules : list LearningModule;
  youtube_recommendations : value;
  quiz_questions : value
}.

Definition set_youtube_recommendations (p : LearningPath) (v : value) : LearningPath :=
  {| topic := topic p;
     modules := modules p;
     youtube_recommendations := v;
     quiz_questions := quiz_questions p |}.

(** The local variables of one enhancement, and the log of the search
    calls issued so far (query and [max_results]). *)
Record EnhancerState := {
  calls : list (string * Z);
  searched_keywords : gset string;
  enhanced_recommendations : list Recommendation
}.

Definition initial_state : EnhancerState :=
  {| calls := []; searched_keywords := ∅; enhanced_recommendations := [] |}.

(** State passing with exceptions. *)
Definition Enh (A : Type) : Type := EnhancerState → result (A * EnhancerState).

#[global] Instance Enh_ret : MRet Enh := λ A a st, Ok (a, st).
#[global] Instance Enh_bind : MBind Enh := λ A B f m st,
  match m st with
  | Ok (a, st') => f a st'
  | Raise e => Raise e
  end.

Definition get_state : Enh EnhancerState := λ st, Ok (st, st).

Definition lift {A} (r : result A) : Enh A := λ st,
  match r with
  | Ok a => Ok (a, st)
  | Raise e => Raise e
  end.

Definition append_recommendation (r : Recommendation) : Enh unit := λ st,
  Ok ((), {| calls := calls st;
             searched_keywords := searched_keywords st;
             enhanced_recommendations := enhanced_recommendations st ++ [r] |}).

Definition mark_searched (k : string) : Enh unit := λ st,
  Ok ((), {| calls := calls st;
             searched_keywords := {[k]} ∪ searched_keywords st;
             enhanced_recommendations := enhanced_recommendations st |}).

Fixpoint for_each {A} (l : list A) (body : A → Enh unit) : Enh unit :=
  match l with
  | [] => mret ()
  | x :: l' => body x;; for_each l' body
  end.

Definition when (b : bool) (m : Enh unit) : Enh unit :=
  if b then m else mret ().

(** [if s and s not in searched_keywords] *)
Definition fresh_key (s : string) (st : EnhancerState) : bool :=
  negb (bool_decide (s = "")) && negb (bool_decide (s ∈ searched_keywords st)).

Definition topic_queries (topic : string) : list string :=
  [topic +:+ " complete tutorial";
   topic +:+ " course for beginners";
   topic +:+ " fundamentals"].

Definition module_queries (topic module_title : string) : list string :=
  [module_title +:+ " explained";
   module_title +:+ " tutorial " +:+ topic;
   topic +:+ " " +:+ module_title].

Definition subtopic_queries (topic subtopic : string) : list string :=
  [subtopic +:+ " " +:+ topic +:+ " tutorial";
   topic +:+ " " +:+ subtopic +:+ " explained"].

(** Deduplication by url: the loop over [enhanced_recommendations] with
    its two accumulators [unique_recommendations] and [seen_urls]. *)
Definition dedup_step (acc : list Recommendation * gset string) (rec : Recommendation)
    : list Recommendation * gset string :=
  if bool_decide (rec_url rec ∈ acc.2)
  then acc
  else (acc.1 ++ [rec], {[rec_url rec]} ∪ acc.2).

Definition deduplicate (l : list Recommendation) : list Recommendation :=
  (foldl dedup_step ([], ∅) l).1.

(** [unique_recommendations[:5]] of the deduplicated list. *)
Definition final_recommendations (l : list Recommendation) : list Recommendation :=
  take 5 (deduplicate l).

Section Enhancer.

(** The environment met by the [i]-th search call of the request. *)
Variable world : nat → Env.

(** One call of [search_youtube_videos], logged. *)
Definition search (query : string) (max_results : Z) : Enh (list VideoRecord) := λ st,
  match search_youtube_videos (world (length (calls st))) query max_results with
  | Ok videos =>
      Ok (videos, {| calls := calls st ++ [(query, max_results)];
                     searched_keywords := searched_keywords st;
                     enhanced_recommendations := enhanced_recommendations st |})
  | Raise e => Raise e
  end.

(** The loop over [topic_queries[:2]]. *)
Definition search_topic (topic : string) : Enh unit :=
  for_each (take 2 (topic_queries topic)) (λ query,
    topic_videos ← search query 2;
    for_each topic_videos (λ video,
      word ← lift (py_last (split query));
      append_recommendation
        {| rec_title := video_title video;
           rec_url := video_url video;
           rec_keywords := [lower topic; word; "tutorial"] |})).

(** The body of the loop over [modules[:3]]. *)
Definition search_module (topic : string) (module : LearningModule) : Enh unit :=
  let module_title := title module in
  st ← get_state;
  when (fresh_key module_title st)
    (for_each (take 1 (module_queries topic module_title)) (λ query,
       videos ← search query 1;
       for_each videos (λ video,
         append_recommendation
           {| rec_title := video_title video;
              rec_url := video_url video;
              rec_keywords := [lower topic; lower module_title; "module"] |});;
       mark_searched module_title));;
  for_each (take 2 (subtopics module)) (λ subtopic,
    st ← get_state;
    when (fresh_key subtopic st)
      (for_each (take 1 (subtopic_queries topic subtopic)) (λ query,
         videos ← search query 1;
         for_each videos (λ video,
           append_recommendation
             {| rec_title := video_title video;
                rec_url := video_url video;
                rec_keywords := [lower topic; lower subtopic; "concept"] |});;
         mark_searched subtopic))).

(** The fill query, issued when fewer than 5 recommendations were
    collected. *)
Definition search_fill (topic : string) : Enh unit :=
  st ← get_state;
  let n := length (enhanced_recommendations st) in
  when (bool_decide (n < 5)%nat)
    (additional_videos ← search (topic +:+ " advanced tutorial") (5 - Z.of_nat n);
     for_each additional_videos (λ video,
       append_recommendation
         {| rec_title := video_title video;
            rec_url := video_url video;
            rec_keywords := [lower topic; "advanced"; "tutorial"] |})).

Definition enhance_learning_path_with_youtube (topic : string)
    (learning_path : LearningPath) : Enh LearningPath :=
  search_topic topic;;
  for_each (take 3 (modules learning_path)) (search_module topic);;
  search_fill topic;;
  st ← get_state;
  let final := final_recommendations (enhanced_recommendations st) in
  match final with
  | [] => mret learning_path
  | _ :: _ =>
      mret (set_youtube_recommendations learning_path
              (VList (recommendation_value <$> final)))
  end.

(** One enhancement, from fresh local variables. *)
Definition enhance (topic : string) (learning_path : LearningPath)
    : result (LearningPath * EnhancerState) :=
  enhance_learning_path_with_youtube topic learning_path initial_state.

End Enhancer.

(** ** The enhancer on modules of any shape

    [routes.py] hands the enhancer the generated modules as they are,
    and the enhancer reads them field by field. A title or subtopic that
    is not a string is searched all the same, under its [str()]: a number
    joins [searched_keywords], kept here in a set of its own (as a member
    of a set [True] is [1]); [.lower()] raises on it as soon as a video
    comes back; and a list or dictionary that is not empty cannot be
    looked up in a set. *)

(** The dictionary [routes.py] builds from the generated content. *)
Record GeneratedPath := {
  path_topic : string;
  path_modules : value;
  path_recommendations : value;
  path_quiz : value
}.

(** The local variables of the enhancer, with the numbers of
    [searched_keywords]. *)
Record DynState := {
  typed_state : EnhancerState;
  searched_numbers : gset Z
}.

Definition initial_dyn_state : DynState :=
  {| typed_state := initial_state; searched_numbers := ∅ |}.

Definition Dyn (A : Type) : Type := DynState → result (A * DynState).

#[global] Instance Dyn_ret : MRet Dyn := λ A a ds, Ok (a, ds).
#[global] Instance Dyn_bind : MBind Dyn := λ A B f m ds,
  match m ds with
  | Ok (a, ds') => f a ds'
  | Raise e => Raise e
  end.

(** A step that leaves the numbers alone. *)
Definition typed {A} (m : Enh A) : Dyn A := λ ds,
  match m (typed_state ds) with
  | Ok (a, st') => Ok (a, {| typed_state := st'; searched_numbers := searched_numbers ds |})
  | Raise e => Raise e
  end.

Definition get_dyn_state : Dyn DynState := λ ds, Ok (ds, ds).

Fixpoint dyn_for_each {A} (l : list A) (body : A → Dyn unit) : Dyn unit :=
  match l with
  | [] => mret ()
  | x :: l' => body x;; dyn_for_each l' body
  end.

Definition dyn_when (b : bool) (m : Dyn unit) : Dyn unit :=
  if b then m else mret ().

(** [if key and key not in searched_keywords]: a key that is falsy is not
    looked up. *)
Definition fresh_value (key : value) (ds : DynState) : result bool :=
  match key with
  | VStr s => Ok (fresh_key s (typed_state ds))
  | VInt z => Ok (negb (bool_decide (z = 0)) && negb (bool_decide (z ∈ searched_numbers ds)))
  | VBool b => Ok (b && negb (bool_decide (1 ∈ searched_numbers ds)))
  | VNone => Ok false
  | VList l => if bool_decide (l = []) then Ok false else Raise TypeError
  | VDict d => if bool_decide (d = []) then Ok false else Raise TypeError
  end.

Definition add_number (z : Z) : Dyn unit := λ ds,
  Ok ((), {| typed_state := typed_state ds;
             searched_numbers := {[z]} ∪ searched_numbers ds |}).

(** [searched_keywords.add(key)]; [None], being falsy, is never looked
    up. *)
Definition mark_value (key : value) : Dyn unit :=
  match key with
  | VStr s => typed (mark_searched s)
  | VInt z => add_number z
  | VBool b => add_number (if b then 1 else 0)
  | VNone => mret ()
  | VList _ | VDict _ => typed (lift (Raise TypeError))
  end.

Section DynEnhancer.

Variable world : nat → Env.

(** The body of the loop over [modules[:3]]. *)
Definition search_module_dyn (topic : string) (module : value) : Dyn unit :=
  module_title ← typed (lift (py_get module "title" (VStr "")));
  ds ← get_dyn_state;
  fresh ← typed (lift (fresh_value module_title ds));
  dyn_when fresh
    (dyn_for_each (take 1 (module_queries topic (py_str module_title))) (λ query,
       videos ← typed (search world query 1);
       dyn_for_each videos (λ video,
         lowered ← typed (lift (py_lower module_title));
         typed (append_recommendation
                  {| rec_title := video_title video;
                     rec_url := video_url video;
                     rec_keywords := [lower topic; lowered; "module"] |}));;
       mark_value module_title));;
  subtopics ← typed (lift (py_get module "subtopics" (VList [])));
  sliced ← typed (lift (py_slice_to subtopics 2));
  items ← typed (lift (py_iter sliced));
  dyn_for_each items (λ subtopic,
    ds ← get_dyn_state;
    fresh ← typed (lift (fresh_value subtopic ds));
    dyn_when fresh
      (dyn_for_each (take 1 (subtopic_queries topic (py_str subtopic))) (λ query,
         videos ← typed (search world query 1);
         dyn_for_each videos (λ video,
           lowered ← typed (lift (py_lower subtopic));
           typed (append_recommendation
                    {| rec_title := video_title video;
                       rec_url := video_url video;
                       rec_keywords := [lower topic; lowered; "concept"] |}));;
         mark_value subtopic))).

(** [enhance_learning_path_with_youtube] on the dictionary of
    [routes.py]. *)
Definition enhance_generated_path (topic : string) (learning_path : GeneratedPath)
    : Dyn GeneratedPath :=
  typed (search_topic world topic);;
  sliced ← typed (lift (py_slice_to (path_modules learning_path) 3));
  items ← typed (lift (py_iter sliced));
  dyn_for_each items (search_module_dyn topic);;
  typed (search_fill world topic);;
  ds ← get_dyn_state;
  let final := final_recommendations (enhanced_recommendations (typed_state ds)) in
  match final with
  | [] => mret learning_path
  | _ :: _ =>
      mret {| path_topic := path_topic learning_path;
              path_modules := path_modules learning_path;
              path_recommendations := VList (recommendation_value <$> final);
              path_quiz := path_quiz learning_path |}
  end.

End DynEnhancer.

(** * gemini_service.py *)

(** ** The default structures written out in [generate_learning_path_content] *)

(** The structure created when no JSON can be extracted (lines 144-169). *)
Definition unparsed_default (topic : string) : value :=
  VDict
    [("modules", VList
      [VDict
        [("title", VStr ("Introduction to " +:+ topic));
         ("subtopics", VList
          [VStr ("Basics of " +:+ topic);
           VStr ("Fundamentals of " +:+ topic);
           VStr ("Getting Started with " +:+ topic);
           VStr ("Core Concepts of " +:+ topic);
           VStr ("Overview of " +:+ topic)])];
       VDict
        [("title", VStr ("Intermediate " +:+ topic));
         ("subtopics", VList
          [VStr ("Advanced " +:+ topic +:+ " Concepts");
           VStr (topic +:+ " Best Practices");
           VStr ("Real-world " +:+ topic +:+ " Applications");
           VStr (topic +:+ " Tools and Techniques");
           VStr ("Problem Solving with " +:+ topic)])]]);
     ("youtube_recommendations", VList
      [VDict
        [("title", VStr ("Learn " +:+ topic));
         ("url", VStr "https://youtube.com");
         ("keywords", VList [VStr (lower topic); VStr "tutorial"])]]);
     ("quiz_questions", VList
      [VDict
        [("question", VStr ("What is " +:+ topic +:+ "?"));
         ("options", VList [VStr "A"; VStr "B"; VStr "C"; VStr "D"]);
         ("correct_answer", VStr "A")]])].

(** Self-repair: the modules substituted at lines 173-186. *)
Definition repair_modules (topic : string) : value :=
  VList
    [VDict
      [("title", VStr ("Foundations of " +:+ topic));
       ("subtopics", VList
        [VStr ("Introduction to " +:+ topic);
         VStr "Basic Principles";
         VStr "Core Components";
         VStr "Essential Tools";
         VStr "Getting Started"])];
     VDict
      [("title", VStr ("Intermediate " +:+ topic));
       ("subtopics", VList
        [VStr "Advanced Concepts";
         VStr "Practical Applications";
         VStr "Problem Solving";
         VStr "Best Practices";
         VStr "Real-world Examples"])];
     VDict
      [("title", VStr ("Advanced " +:+ topic));
       ("subtopics", VList
        [VStr "Expert Techniques";
         VStr "Optimization Strategies";
         VStr "Industry Applications";
         VStr "Cutting-edge Developments";
         VStr "Future Trends"])]].

(** Self-repair: the recommendations substituted at lines 189-215. *)
Definition repair_youtube_recommendations (topic : string) : value :=
  VList
    [VDict
      [("title", VStr ("Complete " +:+ topic +:+ " Course for Beginners"));
       ("url", VStr "https://youtube.com/watch?v=beginner");
       ("keywords", VList [VStr (lower topic); VStr "course"; VStr "beginner"])];
     VDict
      [("title", VStr ("Advanced " +:+ topic +:+ " Tutorial"));
       ("url", VStr "https://youtube.com/watch?v=advanced");
       ("keywords", VList [VStr (lower topic); VStr "tutorial"; VStr "advanced"])];
     VDict
      [("title", VStr (topic +:+ " Projects and Examples"));
       ("url", VStr "https://youtube.com/watch?v=projects");
       ("keywords", VList [VStr (lower topic); VStr "projects"; VStr "examples"])];
     VDict
      [("title", VStr (topic +:+ " Tips and Tricks"));
       ("url", VStr "https://youtube.com/watch?v=tips");
       ("keywords", VList [VStr (lower topic); VStr "tips"; VStr "tricks"])];
     VDict
      [("title", VStr ("Mastering " +:+ topic));
       ("url", VStr "https://youtube.com/watch?v=master");
       ("keywords", VList [VStr (lower topic); VStr "master"; VStr "expert"])]].

(** Self-repair: the quiz substituted at lines 218-269. *)
Definition repair_quiz_questions (topic : string) : value :=
  VList
    [VDict
      [("question", VStr ("What is the primary purpose of " +:+ topic +:+ "?"));
       ("options", VList
        [VStr ("To solve " +:+ topic +:+ "-related problems");
         VStr "To create art";
         VStr "To play games";
         VStr "To browse the internet"]);
       ("correct_answer", VStr ("To solve " +:+ topic +:+ "-related problems"))];
     VDict
      [("question", VStr ("Which of these is a fundamental concept in " +:+ topic +:+ "?"));
       ("options", VList
        [VStr "Core principle 1";
         VStr "Random concept";
         VStr "Irrelevant topic";
         VStr "Unrelated field"]);
       ("correct_answer", VStr "Core principle 1")];
     VDict
      [("question", VStr ("What is an important skill in " +:+ topic +:+ "?"));
       ("options", VList
        [VStr "Key skill";
         VStr "Unrelated ability";
         VStr "Irrelevant knowledge";
         VStr "Random talent"]);
       ("correct_answer", VStr "Key skill")];
     VDict
      [("question", VStr ("What tool is commonly used in " +:+ topic +:+ "?"));
       ("options", VList
        [VStr "Essential tool";
         VStr "Unrelated software";
         VStr "Irrelevant application";
         VStr "Random program"]);
       ("correct_answer", VStr "Essential tool")];
     VDict
      [("question", VStr ("What is a benefit of learning " +:+ topic +:+ "?"));
       ("options", VList
        [VStr "Key benefit";
         VStr "Unrelated advantage";
         VStr "Irrelevant gain";
         VStr "Random improvement"]);
       ("correct_answer", VStr "Key benefit")];
     VDict
      [("question", VStr ("What is a common challenge in " +:+ topic +:+ "?"));
       ("options", VList
        [VStr "Typical difficulty";
         VStr "Unrelated obstacle";
         VStr "Irrelevant problem";
         VStr "Random issue"]);
       ("correct_answer", VStr "Typical difficulty")];
     VDict
      [("question", VStr ("What is an advanced technique in " +:+ topic +:+ "?"));
       ("options", VList
        [VStr "Expert method";
         VStr "Basic approach";
         VStr "Simple technique";
         VStr "Elementary strategy"]);
       ("correct_answer", VStr "Expert method")];
     VDict
      [("question", VStr ("What is a best practice in " +:+ topic +:+ "?"));
       ("options", VList
        [VStr "Recommended approach";
         VStr "Outdated method";
         VStr "Inefficient technique";
         VStr "Poor strategy"]);
       ("correct_answer", VStr "Recommended approach")];
     VDict
      [("question", VStr ("What is a real-world application of " +:+ topic +:+ "?"));
       ("options", VList
        [VStr "Practical use case";
         VStr "Theoretical concept";
         VStr "Academic exercise";
         VStr "Hypothetical scenario"]);
       ("correct_answer", VStr "Practical use case")];
     VDict
      [("question", VStr ("What is the future of " +:+ topic +:+ "?"));
       ("options", VList
        [VStr "Emerging trend";
         VStr "Declining field";
         VStr "Stagnant area";
         VStr "Obsolete technology"]);
       ("correct_answer", VStr "Emerging trend")]].

(** The structure returned by the [asyncio.TimeoutError] handler (lines 276-370). *)
Definition timeout_default (topic : string) : value :=
  VDict
    [("modules", VList
      [VDict
        [("title", VStr ("Introduction to " +:+ topic));
         ("subtopics", VList
          [VStr ("Basics of " +:+ topic);
           VStr ("Fundamentals of " +:+ topic);
           VStr ("Getting Started with " +:+ topic);
           VStr ("Core Concepts of " +:+ topic);
           VStr ("Overview of " +:+ topic)])];
       VDict
        [("title", VStr ("Intermediate " +:+ topic));
         ("subtopics", VList
          [VStr ("Advanced " +:+ topic +:+ " Concepts");
           VStr (topic +:+ " Best Practices");
           VStr ("Real-world " +:+ topic +:+ " Applications");
           VStr (topic +:+ " Tools and Techniques");
           VStr ("Problem Solving with " +:+ topic)])];
       VDict
        [("title", VStr ("Advanced " +:+ topic));
         ("subtopics", VList
          [VStr "Expert Techniques";
           VStr "Optimization Strategies";
           VStr "Industry Applications";
           VStr "Cutting-edge Developments";
           VStr "Future Trends"])]]);
     ("youtube_recommendations", VList
      [VDict
        [("title", VStr ("Complete " +:+ topic +:+ " Tutorial for Beginners"));
         ("url", VStr "https://youtube.com");
         ("keywords", VList [VStr (lower topic); VStr "tutorial"; VStr "beginner"])];
       VDict
        [("title", VStr ("Advanced " +:+ topic +:+ " Techniques"));
         ("url", VStr "https://youtube.com");
         ("keywords", VList [VStr (lower topic); VStr "advanced"; VStr "techniques"])];
       VDict
        [("title", VStr (topic +:+ " Projects and Examples"));
         ("url", VStr "https://youtube.com");
         ("keywords", VList [VStr (lower topic); VStr "projects"; VStr "examples"])];
       VDict
        [("title", VStr (topic +:+ " Tips and Tricks"));
         ("url", VStr "https://youtube.com");
         ("keywords", VList [VStr (lower topic); VStr "tips"; VStr "tricks"])];
       VDict
        [("title", VStr ("Mastering " +:+ topic));
         ("url", VStr "https://youtube.com");
         ("keywords", VList [VStr (lower topic); VStr "master"; VStr "expert"])]]);
     ("quiz_questions", VList
      [VDict
        [("question", VStr ("What is " +:+ topic +:+ " primarily used for?"));
         ("options", VList
          [VStr ("To solve " +:+ topic +:+ "-related problems");
           VStr "To create art";
           VStr "To play games";
           VStr "To browse the internet"]);
         ("correct_answer", VStr ("To solve " +:+ topic +:+ "-related problems"))];
       VDict
        [("question", VStr ("Which of these is a fundamental concept in " +:+ topic +:+ "?"));
         ("options", VList
          [VStr "Core principle 1";
           VStr "Random concept";
           VStr "Irrelevant topic";
           VStr "Unrelated field"]);
         ("correct_answer", VStr "Core principle 1")];
       VDict
        [("question", VStr ("What is an important skill in " +:+ topic +:+ "?"));
         ("options", VList
          [VStr "Key skill";
           VStr "Unrelated ability";
           VStr "Irrelevant knowledge";
           VStr "Random talent"]);
         ("correct_answer", VStr "Key skill")];
       VDict
        [("question", VStr ("What tool is commonly used in " +:+ topic +:+ "?"));
         ("options", VList
          [VStr "Essential tool";
           VStr "Unrelated software";
           VStr "Irrelevant application";
           VStr "Random program"]);
         ("correct_answer", VStr "Essential tool")];
       VDict
        [("question", VStr ("What is a benefit of learning " +:+ topic +:+ "?"));
         ("options", VList
          [VStr "Key benefit";
           VStr "Unrelated advantage";
           VStr "Irrelevant gain";
           VStr "Random improvement"]);
         ("correct_answer", VStr "Key benefit")];
       VDict
        [("question", VStr ("What is a common challenge in " +:+ topic +:+ "?"));
         ("options", VList
          [VStr "Typical difficulty";
           VStr "Unrelated obstacle";
           VStr "Irrelevant problem";
           VStr "Random issue"]);
         ("correct_answer", VStr "Typical difficulty")];
       VDict
        [("question", VStr ("What is an advanced technique in " +:+ topic +:+ "?"));
         ("options", VList
          [VStr "Expert method";
           VStr "Basic approach";
           VStr "Simple technique";
           VStr "Elementary strategy"]);
         ("correct_answer", VStr "Expert method")];
       VDict
        [("question", VStr ("What is a best practice in " +:+ topic +:+ "?"));
         ("options", VList
          [VStr "Recommended approach";
           VStr "Outdated method";
           VStr "Inefficient technique";
           VStr "Poor strategy"]);
         ("correct_answer", VStr "Recommended approach")];
       VDict
        [("question", VStr ("What is a real-world application of " +:+ topic +:+ "?"));
         ("options", VList
          [VStr "Practical use case";
           VStr "Theoretical concept";
           VStr "Academic exercise";
           VStr "Hypothetical scenario"]);
         ("correct_answer", VStr "Practical use case")];
       VDict
        [("question", VStr ("What is the future of " +:+ topic +:+ "?"));
         ("options", VList
          [VStr "Emerging trend";
           VStr "Declining field";
           VStr "Stagnant area";
           VStr "Obsolete technology"]);
         ("correct_answer", VStr "Emerging trend")]])].

(** The structure returned by the [Exception] handler (lines 374-468). *)
Definition error_default (topic : string) : value :=
  VDict
    [("modules", VList
      [VDict
        [("title", VStr ("Introduction to " +:+ topic));
         ("subtopics", VList
          [VStr ("Basics of " +:+ topic);
           VStr ("Fundamentals of " +:+ topic);
           VStr ("Getting Started with " +:+ topic);
           VStr ("Core Concepts of " +:+ topic);
           VStr ("Overview of " +:+ topic)])];
       VDict
        [("title", VStr ("Intermediate " +:+ topic));
         ("subtopics", VList
          [VStr ("Advanced " +:+ topic +:+ " Concepts");
           VStr (topic +:+ " Best Practices");
           VStr ("Real-world " +:+ topic +:+ " Applications");
           VStr (topic +:+ " Tools and Techniques");
           VStr ("Problem Solving with " +:+ topic)])];
       VDict
        [("title", VStr ("Advanced " +:+ topic));
         ("subtopics", VList
          [VStr "Expert Techniques";
           VStr "Optimization Strategies";
           VStr "Industry Applications";
           VStr "Cutting-edge Developments";
           VStr "Future Trends"])]]);
     ("youtube_recommendations", VList
      [VDict
        [("title", VStr ("Complete " +:+ topic +:+ " Tutorial for Beginners"));
         ("url", VStr "https://youtube.com");
         ("keywords", VList [VStr (lower topic); VStr "tutorial"; VStr "beginner"])];
       VDict
        [("title", VStr ("Advanced " +:+ topic +:+ " Techniques"));
         ("url", VStr "https://youtube.com");
         ("keywords", VList [VStr (lower topic); VStr "advanced"; VStr "techniques"])];
       VDict
        [("title", VStr (topic +:+ " Projects and Examples"));
         ("url", VStr "https://youtube.com");
         ("keywords", VList [VStr (lower topic); VStr "projects"; VStr "examples"])];
       VDict
        [("title", VStr (topic +:+ " Tips and Tricks"));
         ("url", VStr "https://youtube.com");
         ("keywords", VList [VStr (lower topic); VStr "tips"; VStr "tricks"])];
       VDict
        [("title", VStr ("Mastering " +:+ topic));
         ("url", VStr "https://youtube.com");
         ("keywords", VList [VStr (lower topic); VStr "master"; VStr "expert"])]]);
     ("quiz_questions", VList
      [VDict
        [("question", VStr ("What is " +:+ topic +:+ " primarily used for?"));
         ("options", VList
          [VStr ("To solve " +:+ topic +:+ "-related problems");
           VStr "To create art";
           VStr "To play games";
           VStr "To browse the internet"]);
         ("correct_answer", VStr ("To solve " +:+ topic +:+ "-related problems"))];
       VDict
        [("question", VStr ("Which of these is a fundamental concept in " +:+ topic +:+ "?"));
         ("options", VList
          [VStr "Core principle 1";
           VStr "Random concept";
           VStr "Irrelevant topic";
           VStr "Unrelated field"]);
         ("correct_answer", VStr "Core principle 1")];
       VDict
        [("question", VStr ("What is an important skill in " +:+ topic +:+ "?"));
         ("options", VList
          [VStr "Key skill";
           VStr "Unrelated ability";
           VStr "Irrelevant knowledge";
           VStr "Random talent"]);
         ("correct_answer", VStr "Key skill")];
       VDict
        [("question", VStr ("What tool is commonly used in " +:+ topic +:+ "?"));
         ("options", VList
          [VStr "Essential tool";
           VStr "Unrelated software";
           VStr "Irrelevant application";
           VStr "Random program"]);
         ("correct_answer", VStr "Essential tool")];
       VDict
        [("question", VStr ("What is a benefit of learning " +:+ topic +:+ "?"));
         ("options", VList
          [VStr "Key benefit";
           VStr "Unrelated advantage";
           VStr "Irrelevant gain";
           VStr "Random improvement"]);
         ("correct_answer", VStr "Key benefit")];
       VDict
        [("question", VStr ("What is a common challenge in " +:+ topic +:+ "?"));
         ("options", VList
          [VStr "Typical difficulty";
           VStr "Unrelated obstacle";
           VStr "Irrelevant problem";
           VStr "Random issue"]);
         ("correct_answer", VStr "Typical difficulty")];
       VDict
        [("question", VStr ("What is an advanced technique in " +:+ topic +:+ "?"));
         ("options", VList
          [VStr "Expert method";
           VStr "Basic approach";
           VStr "Simple technique";
           VStr "Elementary strategy"]);
         ("correct_answer", VStr "Expert method")];
       VDict
        [("question", VStr ("What is a best practice in " +:+ topic +:+ "?"));
         ("options", VList
          [VStr "Recommended approach";
           VStr "Outdated method";
           VStr "Inefficient technique";
           VStr "Poor strategy"]);
         ("correct_answer", VStr "Recommended approach")];
       VDict
        [("question", VStr ("What is a real-world application of " +:+ topic +:+ "?"));
         ("options", VList
          [VStr "Practical use case";
           VStr "Theoretical concept";
           VStr "Academic exercise";
           VStr "Hypothetical scenario"]);
         ("correct_answer", VStr "Practical use case")];
       VDict
        [("question", VStr ("What is the future of " +:+ topic +:+ "?"));
         ("options", VList
          [VStr "Emerging trend";
           VStr "Declining field";
           VStr "Stagnant area";
           VStr "Obsolete technology"]);
         ("correct_answer", VStr "Emerging trend")]])].

(** ** Parsing, self-repair and the handlers *)

(** [re.search(r'\{.*\}', text, re.DOTALL)]: from the first opening brace
    to the last closing brace after it. *)
Fixpoint from_first_open (s : string) : option string :=
  match s with
  | "" => None
  | String c s' => if bool_decide (c = "{"%char) then Some s' else from_first_open s'
  end.

Fixpoint upto_last_close (s : string) : option string :=
  match s with
  | "" => None
  | String c s' =>
      match upto_last_close s' with
      | Some p => Some (String c p)
      | None => if bool_decide (c = "}"%char) then Some (String c "") else None
      end
  end.

Definition json_match (text : string) : option string :=
  rest ← from_first_open text;
  span ← upto_last_close rest;
  Some (String "{"%char span).

(** What the process environment and the model give one request:
    [generate_content] is the outcome of the awaited call and of reading
    [response.text]; a timeout is [Raise TimeoutError]. *)
Record GeminiEnv := {
  GOOGLE_API_KEY : option string;
  generate_content : result string
}.

Definition configure_gemini (env : GeminiEnv) : result unit :=
  if negb (truthy_opt (GOOGLE_API_KEY env)) then Raise ValueError else mret ().

(** [k not in content or len(content[k]) < n] *)
Definition missing_or_short (content : value) (k : string) (n : nat) : result bool :=
  present ← py_contains k content;
  if negb present then mret true
  else
    v ← py_getitem content k;
    len ← py_len v;
    mret (bool_decide (len < n)%nat).

Definition ensure_modules (topic : string) (content : value) : result value :=
  b ← missing_or_short content "modules" 2;
  if (b : bool) then py_setitem content "modules" (repair_modules topic) else mret content.

Definition ensure_youtube_recommendations (topic : string) (content : value)
    : result value :=
  b ← missing_or_short content "youtube_recommendations" 3;
  if (b : bool) then py_setitem content "youtube_recommendations"
              (repair_youtube_recommendations topic)
  else mret content.

Definition ensure_quiz_questions (topic : string) (content : value) : result value :=
  b ← missing_or_short content "quiz_questions" 5;
  if (b : bool) then py_setitem content "quiz_questions" (repair_quiz_questions topic)
  else mret content.

(** "Ensure we have the required number of items": the three repairs in
    sequence. *)
Definition ensure_required_items (topic : string) (content : value) : result value :=
  c1 ← ensure_modules topic content;
  c2 ← ensure_youtube_recommendations topic c1;
  ensure_quiz_questions topic c2.

Section Generator.

(** [json.loads]; [Raise JSONDecodeError] on text that is not JSON. *)
Variable json_loads : string → result value.

(** "Parse the response". *)
Definition parse_response (topic text : string) : result value :=
  match json_loads text with
  | Ok content => Ok content
  | Raise JSONDecodeError =>
      match json_match text with
      | Some span => json_loads span
      | None => Ok (unparsed_default topic)
      end
  | Raise e => Raise e
  end.

(** The [try] block. *)
Definition generate_body (env : GeminiEnv) (topic : string) : result value :=
  configure_gemini env;;
  text ← generate_content env;
  content ← parse_response topic text;
  ensure_required_items topic content.

Definition generate_learning_path_content (env : GeminiEnv) (topic : string)
    : result value :=
  try_except (generate_body env topic)
    (λ e, match e with
          | TimeoutError => mret (timeout_default topic)
          | _ => mret (error_default topic)
          end).

End Generator.

(** * routes.py *)

(** Reading the generated modules at the types of [learning_path.py]. *)
Definition decode_string (v : value) : option string :=
  match v with
  | VStr s => Some s
  | _ => None
  end.

Definition decode_module (v : value) : option LearningModule :=
  match v with
  | VDict d =>
      t ← decode_string (from_option id (VStr "") (dict_get "title" d));
      subs ← match from_option id (VList []) (dict_get "subtopics" d) with
             | VList l => mapM decode_string l
             | _ => None
             end;
      Some {| title := t; subtopics := subs |}
  | _ => None
  end.

Definition decode_modules (v : value) : option (list LearningModule) :=
  match v with
  | VList l => mapM decode_module l
  | _ => None
  end.

(** The path at the types of [learning_path.py], when its modules fit
    them. *)
Definition typed_path (p : GeneratedPath) : option LearningPath :=
  ms ← decode_modules (path_modules p);
  Some {| topic := path_topic p;
          modules := ms;
          youtube_recommendations := path_recommendations p;
          quiz_questions := path_quiz p |}.

(** The dictionary built from the generated content (lines 50-55). *)
Definition assemble_learning_path (topic : string) (generated_content : value)
    : result GeneratedPath :=
  generated_modules ← py_getitem generated_content "modules";
  recommendations ← py_get generated_content "youtube_recommendations" (VList []);
  quiz ← py_get generated_content "quiz_questions" (VList []);
  mret {| path_topic := topic;
          path_modules := generated_modules;
          path_recommendations := recommendations;
          path_quiz := quiz |}.

(** [generate_learning_path] up to the enhanced path, which is both
    handed to the store and returned; it is given at the types of
    [learning_path.py], [None] when its modules are outside them. What
    the code raises on the way is raised here. *)
Definition generate_learning_path (json_loads : string → result value)
    (env : GeminiEnv) (world : nat → Env) (topic : string)
    : result (option LearningPath) :=
  generated_content ← generate_learning_path_content json_loads env topic;
  learning_path ← assemble_learning_path topic generated_content;
  r ← enhance_generated_path world topic learning_path initial_dyn_state;
  mret (typed_path r.1).

(** [youtube_recommendations or []], the value [insert_learning_path]
    writes to the store. *)
Definition stored_youtube_recommendations (p : LearningPath) : value :=
  if py_truthy (youtube_recommendations p) then youtube_recommendations p else VList [].

(** * supabase_service.py *)

(** [v[0]] *)
Definition py_first (v : value) : result value :=
  match v with
  | VList (x :: _) => Ok x
  | VList [] => Raise IndexError
  | VStr (String c _) => Ok (VStr (String c ""))
  | VStr "" => Raise IndexError
  | VDict _ => Raise KeyError
  | _ => Raise TypeError
  end.

(** [v or []] *)
Definition or_empty_list (v : value) : value :=
  if py_truthy v then v else VList [].

(** The client of the store. [insert_execute table data] is the [data] of
    the response to [table(table).insert(data).execute()], and
    [select_eq_execute table columns column x] that of the response to
    [table(table).select(columns).eq(column, x).execute()]; a call that
    raises is [Raise]. *)
Record Client := {
  insert_execute : string → dict → result value;
  select_eq_execute : string → string → string → string → result value
}.

(** The process environment and the client library. *)
Record StoreEnv := {
  SUPABASE_URL : option string;
  SUPABASE_KEY : option string;
  create_client : string → string → result Client
}.

(** The exception is logged and raised again. *)
Definition get_supabase_client (env : StoreEnv) : result Client :=
  try_except
    (create_client env (default "" (SUPABASE_URL env)) (default "" (SUPABASE_KEY env)))
    (λ e, Raise e).

(** The record sent to the store. *)
Definition insert_data (topic : string) (modules youtube_recommendations
    quiz_questions user_id : value) : dict :=
  [("topic", VStr topic);
   ("modules", modules);
   ("youtube_recommendations", or_empty_list youtube_recommendations);
   ("quiz_questions", or_empty_list quiz_questions);
   ("user_id", user_id)].

(** The record returned when nothing was inserted. *)
Definition mock_inserted (topic : string) (modules youtube_recommendations
    quiz_questions user_id : value) : value :=
  VDict [("id", VStr "mock-id");
         ("topic", VStr topic);
         ("modules", modules);
         ("youtube_recommendations", or_empty_list youtube_recommendations);
         ("quiz_questions", or_empty_list quiz_questions);
         ("user_id", user_id);
         ("created_at", VStr "2025-01-01T00:00:00Z")].

Definition insert_learning_path (env : StoreEnv) (topic : string)
    (modules youtube_recommendations quiz_questions user_id : value) : result value :=
  try_except
    (supabase ← get_supabase_client env;
     let data := insert_data topic modules youtube_recommendations quiz_questions
                   user_id in
     response_data ← insert_execute supabase "learning_paths" data;
     if py_truthy response_data then py_first response_data
     else mret (mock_inserted topic modules youtube_recommendations quiz_questions
                  user_id))
    (λ _, mret (mock_inserted topic modules youtube_recommendations quiz_questions
                  user_id)).

(** The record returned when nothing was found. *)
Definition mock_found (path_id : string) : value :=
  VDict [("id", VStr path_id);
         ("topic", VStr "Mock Topic");
         ("modules",
          VList [VDict [("title", VStr "Mock Module");
                        ("subtopics", VList [VStr "Mock Subtopic"])]]);
         ("youtube_recommendations", VList []);
         ("quiz_questions", VList []);
         ("created_at", VStr "2025-01-01T00:00:00Z")].

Definition get_learning_path (env : StoreEnv) (path_id : string) : result value :=
  try_except
    (supabase ← get_supabase_client env;
     response_data ← select_eq_execute supabase "learning_paths" "*" "id" path_id;
     if py_truthy response_data then py_first response_data
     else mret (mock_found path_id))
    (λ _, mret (mock_found path_id)).

(** A store that cannot be reached. *)
Definition store_down : StoreEnv :=
  {| SUPABASE_URL := None;
     SUPABASE_KEY := None;
     create_client := λ _ _, Raise RuntimeError |}.

(** * Vocabulary of the properties and sample inputs *)

(** The url of one entry of a recommendation list. *)
Definition entry_url (r : value) : option value :=
  match r with
  | VDict d => dict_get "url" d
  | _ => None
  end.

(** At most 5 entries, no two sharing a url. *)
Definition capped_and_distinct (v : value) : Prop :=
  ∃ l, v = VList l ∧ (length l ≤ 5)%nat ∧ NoDup (entry_url <$> l).

(** What the code reads from one item of a well-formed provider response. *)
Record ItemFields := {
  item_title : value;
  item_video_id : value;
  item_description : string;
  item_channel : value;
  item_published_at : value;
  item_thumbnails : value
}.

Definition has_fields (item : value) (f : ItemFields) : Prop :=
  ∃ d snippet id,
    item = VDict d ∧
    dict_get "snippet" d = Some (VDict snippet) ∧
    dict_get "id" d = Some (VDict id) ∧
    dict_get "title" snippet = Some (item_title f) ∧
    dict_get "description" snippet = Some (VStr (item_description f)) ∧
    dict_get "channelTitle" snippet = Some (item_channel f) ∧
    dict_get "publishedAt" snippet = Some (item_published_at f) ∧
    dict_get "thumbnails" snippet = Some (item_thumbnails f) ∧
    dict_get "videoId" id = Some (item_video_id f).

(** The description rule of the contract. *)
Definition truncated (d : string) : string :=
  if bool_decide (String.length d ≤ 200)%nat then d else string_take 200 d +:+ "...".

Definition record_of (f : ItemFields) : VideoRecord :=
  {| video_title := item_title f;
     video_url := "https://www.youtube.com/watch?v=" +:+ py_str (item_video_id f);
     video_description := VStr (truncated (item_description f));
     video_channel := item_channel f;
     video_published_at := item_published_at f;
     video_thumbnails := item_thumbnails f |}.

(** [m] run from [st] returns, and its value and final state satisfy [Q]. *)
Definition post {A} (m : Enh A) (st : EnhancerState)
    (Q : A → EnhancerState → Prop) : Prop :=
  ∃ a st', m st = Ok (a, st') ∧ Q a st'.

Definition same_locals (st st' : EnhancerState) : Prop :=
  searched_keywords st' = searched_keywords st ∧
  enhanced_recommendations st' = enhanced_recommendations st.

Fixpoint no_space (s : string) : bool :=
  match s with
  | "" => true
  | String c s' => negb (is_space c) && no_space s'
  end.

(** Every search call of the request comes back empty. *)
Definition quiet (world : nat → Env) : Prop :=
  ∀ i query max_results, search_youtube_videos (world i) query max_results = Ok [].

Definition topic_call (query : string) : string * Z := (query, 2).

Definition module_call (m : LearningModule) : string * Z := (title m +:+ " explained", 1).

Definition subtopic_call (topic subtopic : string) : string * Z :=
  (subtopic +:+ " " +:+ topic +:+ " tutorial", 1).

(** The calls one module may cause: at most its title query, then at most
    one query for each of its first two subtopics, in order. *)
Definition module_calls (topic : string) (m : LearningModule)
    (chunk : list (string * Z)) : Prop :=
  ∃ tc sc, chunk = tc ++ sc ∧
    tc `sublist_of` [module_call m] ∧
    sc `sublist_of` (subtopic_call topic <$> take 2 (subtopics m)).

Definition fill_calls (topic : string) (fc : list (string * Z)) : Prop :=
  fc = [] ∨ ∃ n, 1 ≤ n ≤ 5 ∧ fc = [(topic +:+ " advanced tutorial", n)].

(** Deduplication as the specification words it: going through the list,
    keep an entry exactly when its url has not been seen before. *)
Fixpoint first_seen (seen : gset string) (l : list Recommendation)
    : list Recommendation :=
  match l with
  | [] => []
  | r :: l' =>
      if decide (rec_url r ∈ seen) then first_seen seen l'
      else r :: first_seen ({[rec_url r]} ∪ seen) l'
  end.

Definition has_url (u : string) (r : Recommendation) : bool :=
  bool_decide (rec_url r = u).

(** The key is missing, or its value has fewer than [n] entries. *)
Definition lacks (d : dict) (k : string) (n : nat) : Prop :=
  dict_get k d = None ∨
  ∃ v len, dict_get k d = Some v ∧ py_len v = Ok len ∧ (len < n)%nat.

(** The key is missing, or its value has a length. *)
Definition absent_or_sized (d : dict) (k : string) : Prop :=
  dict_get k d = None ∨ ∃ v len, dict_get k d = Some v ∧ py_len v = Ok len.

Definition module_titles (v : value) : list value :=
  match v with
  | VList ms =>
      omap (λ m, match m with VDict d => dict_get "title" d | _ => None end) ms
  | _ => []
  end.

(** Four options, and the answer is one of them. *)
Definition question_ok (q : value) : Prop :=
  ∃ d options answer,
    q = VDict d ∧
    dict_get "options" d = Some (VList options) ∧
    length options = 4%nat ∧
    dict_get "correct_answer" d = Some answer ∧
    answer ∈ options.

Definition quiz_well_formed (content : value) : Prop :=
  ∃ d questions,
    content = VDict d ∧
    dict_get "quiz_questions" d = Some (VList questions) ∧
    length questions = 10%nat ∧
    Forall question_ok questions.

(** The three repairs have one shape. *)
Definition ensure_key (k : string) (n : nat) (fallback content : value) : result value :=
  b ← missing_or_short content k n;
  if (b : bool) then py_setitem content k fallback else mret content.

(** No API credential for the video search. *)
Definition no_key_env : Env :=
  {| YOUTUBE_API_KEY := None;
     requests_get := λ _ _ _, Raise RequestException |}.

Definition no_key_world : nat → Env := λ _, no_key_env.

(** The model call times out. *)
Definition timeout_env : GeminiEnv :=
  {| GOOGLE_API_KEY := Some "key"; generate_content := Raise TimeoutError |}.

(** A parser that rejects every text; enough where no text is JSON. *)
Definition reject_all : string → result value := λ _, Raise JSONDecodeError.

(** The model answers with prose holding no brace. *)
Definition prose_env : GeminiEnv :=
  {| GOOGLE_API_KEY := Some "key"; generate_content := Ok "I cannot answer that." |}.

(** The model answers with a sentence followed by a JSON object that has
    five quiz entries, each an empty object. *)
Definition sample_span : string :=
  "{" +:+ dquote +:+ "quiz_questions" +:+ dquote +:+ ": [{}, {}, {}, {}, {}]}".

Definition sample_text : string := "Sure! " +:+ sample_span.

Definition sample_parsed : value :=
  VDict [("quiz_questions", VList [VDict []; VDict []; VDict []; VDict []; VDict []])].

(** [json.loads] on the two texts of that run: it rejects [sample_text]
    and decodes [sample_span]. *)
Definition sample_json_loads (s : string) : result value :=
  if decide (s = sample_span) then Ok sample_parsed else Raise JSONDecodeError.

Definition chatty_env : GeminiEnv :=
  {| GOOGLE_API_KEY := Some "key"; generate_content := Ok sample_text |}.

(** A generated path with six recommendations. *)
Definition six_recommendations : value :=
  VList ((λ u, VDict [("title", VStr "Rust video");
                      ("url", VStr u);
                      ("keywords", VList [VStr "rust"])])
         <$> ["u1"; "u2"; "u3"; "u4"; "u5"; "u6"]).

Definition six_path : LearningPath :=
  {| topic := "Rust";
     modules := [{| title := "Ownership"; subtopics := ["Borrowing"; "Lifetimes"] |}];
     youtube_recommendations := six_recommendations;
     quiz_questions := VList [] |}.

(** A generator output with one module only. *)
Definition one_module : dict :=
  [("modules",
    VList [VDict [("title", VStr "Ownership");
                  ("subtopics", VList [VStr "Borrowing"])]])].

(** A provider answer with two items; the first description is longer
    than 200 characters. *)
Definition long_description : string :=
  "This course covers ownership, borrowing and lifetimes, then traits and generics, error handling with Result and Option, iterators and closures, modules and crates, testing, concurrency with threads and channels, and a final project building a small command line tool from start to finish.".

Definition sample_item (id title description : string) : value :=
  VDict [("kind", VStr "youtube#searchResult");
         ("id", VDict [("kind", VStr "youtube#video"); ("videoId", VStr id)]);
         ("snippet",
          VDict [("publishedAt", VStr "2024-01-01T00:00:00Z");
                 ("title", VStr title);
                 ("description", VStr description);
                 ("thumbnails", VDict []);
                 ("channelTitle", VStr "Rust Channel")])].

Definition sample_items : list value :=
  [sample_item "abc" "Rust in depth" long_description;
   sample_item "def" "Rust in brief" "A short tour."].

Definition sample_response : Response :=
  {| status_code := 200;
     text := "";
     json := Ok (VDict [("kind", VStr "youtube#searchListResponse");
                        ("items", VList sample_items)]) |}.

Definition sample_env : Env :=
  {| YOUTUBE_API_KEY := Some "key";
     requests_get := λ _ _ _, Ok sample_response |}.

Definition sample_fields : ItemFields :=
  {| item_title := VStr "Rust in depth";
     item_video_id := VStr "abc";
     item_description := long_description;
     item_channel := VStr "Rust Channel";
     item_published_at := VStr "2024-01-01T00:00:00Z";
     item_thumbnails := VDict [] |}.

(** Field [k] of the first entry of a list of dictionaries. *)
Definition first_entry_field (k : string) (r : result value) : option value :=
  match r with
  | Ok (VList (VDict d :: _)) => dict_get k d
  | _ => None
  end.

(** ** Vocabulary of the further properties *)

(** The prefix of every url the search client builds. *)
Definition watch_prefix : string := "https://www.youtube.com/watch?v=".

(** A record as the client returns it: a watch link, and a description of
    at most 203 entries. *)
Definition record_ok (v : VideoRecord) : Prop :=
  is_prefix watch_prefix (video_url v) = true ∧
  ∃ len, py_len (video_description v) = Ok len ∧ (len ≤ 203)%nat.

(** A search result of another kind than a video: its [id] has no
    [videoId]. *)
Definition channel_item : value :=
  VDict [("kind", VStr "youtube#searchResult");
         ("id", VDict [("kind", VStr "youtube#channel"); ("channelId", VStr "UC1")]);
         ("snippet",
          VDict [("publishedAt", VStr "2024-01-01T00:00:00Z");
                 ("title", VStr "Rust Channel");
                 ("description", VStr "All about Rust.");
                 ("thumbnails", VDict []);
                 ("channelTitle", VStr "Rust Channel")])].

Definition mixed_response : Response :=
  {| status_code := 200;
     text := "";
     json := Ok (VDict [("items", VList (sample_items ++ [channel_item]))]) |}.

Definition mixed_env : Env :=
  {| YOUTUBE_API_KEY := Some "key";
     requests_get := λ _ _ _, Ok mixed_response |}.

(** ** The enhancer's calls, by where they come from *)

(** Where a search call of the enhancer comes from: one of the topic
    queries, a module title, a subtopic, or the fill query with the number
    of results it asks for. *)
Inductive Origin : Type :=
  | TopicQuery (query : string)
  | ModuleTitle (module_title : string)
  | Subtopic (subtopic : string)
  | Fill (missing : Z).

(** The query and [max_results] of the call. *)
Definition origin_call (topic : string) (o : Origin) : string * Z :=
  match o with
  | TopicQuery query => (query, 2)
  | ModuleTitle module_title => (module_title +:+ " explained", 1)
  | Subtopic subtopic => (subtopic +:+ " " +:+ topic +:+ " tutorial", 1)
  | Fill missing => (topic +:+ " advanced tutorial", missing)
  end.

(** [query.split()[-1]], the empty string standing for a query without a
    word. *)
Definition last_word (query : string) : string :=
  match py_last (split query) with
  | Ok w => w
  | Raise _ => ""
  end.

(** The keywords given to the videos of the call. *)
Definition origin_keywords (topic : string) (o : Origin) : list string :=
  match o with
  | TopicQuery query => [lower topic; last_word query; "tutorial"]
  | ModuleTitle module_title => [lower topic; lower module_title; "module"]
  | Subtopic subtopic => [lower topic; lower subtopic; "concept"]
  | Fill _ => [lower topic; "advanced"; "tutorial"]
  end.

(** The string added to [searched_keywords] after the call. *)
Definition origin_key (o : Origin) : option string :=
  match o with
  | ModuleTitle module_title => Some module_title
  | Subtopic subtopic => Some subtopic
  | _ => None
  end.

Definition recommendation_of (topic : string) (o : Origin) (video : VideoRecord)
    : Recommendation :=
  {| rec_title := video_title video;
     rec_url := video_url video;
     rec_keywords := origin_keywords topic o |}.

(** The videos the [i]-th call of a request returns. *)
Definition answer (world : nat → Env) (i : nat) (call : string * Z) : list VideoRecord :=
  match search_youtube_videos (world i) call.1 call.2 with
  | Ok videos => videos
  | Raise _ => []
  end.

(** The recommendations collected by a sequence of calls. *)
Definition collected (world : nat → Env) (topic : string) (events : list Origin)
    : list Recommendation :=
  concat (imap (λ i o, recommendation_of topic o <$> answer world i (origin_call topic o))
            events).

(** The titles and subtopics the module loop looks at, in its order. *)
Definition module_keys (m : LearningModule) : list Origin :=
  ModuleTitle (title m) :: (Subtopic <$> take 2 (subtopics m)).

Definition path_keys (ms : list LearningModule) : list Origin :=
  concat (module_keys <$> take 3 ms).

(** One title or subtopic: searched, and added to the set, when it is not
    empty and not in the set. *)
Definition key_step (acc : list Origin * gset string) (o : Origin)
    : list Origin * gset string :=
  match origin_key o with
  | Some k =>
      if bool_decide (k ≠ "" ∧ k ∉ acc.2) then (acc.1 ++ [o], {[k]} ∪ acc.2) else acc
  | None => acc
  end.

Definition key_events (keys : list Origin) : list Origin * gset string :=
  foldl key_step ([], ∅) keys.

(** The fill query after the calls [events]. *)
Definition fill_events (world : nat → Env) (topic : string) (events : list Origin)
    : list Origin :=
  let n := length (collected world topic events) in
  if bool_decide (n < 5)%nat then [Fill (5 - Z.of_nat n)] else [].

(** The calls of one enhancement. *)
Definition planned_events (topic : string) (ms : list LearningModule) : list Origin :=
  (TopicQuery <$> take 2 (topic_queries topic)) ++ (key_events (path_keys ms)).1.

Definition all_events (world : nat → Env) (topic : string) (ms : list LearningModule)
    : list Origin :=
  planned_events topic ms ++ fill_events world topic (planned_events topic ms).

(** The state reached after the calls [events], with [seen] searched. *)
Definition trace (world : nat → Env) (topic : string) (st : EnhancerState)
    (events : list Origin) (seen : gset string) : Prop :=
  calls st = origin_call topic <$> events ∧
  enhanced_recommendations st = collected world topic events ∧
  searched_keywords st = seen.

(** The keyword lists the enhancer can give a recommendation. *)
Definition keywords_allowed (topic : string) (ms : list LearningModule)
    (keywords : list string) : Prop :=
  keywords = [lower topic; "tutorial"; "tutorial"] ∨
  keywords = [lower topic; "beginners"; "tutorial"] ∨
  keywords = [lower topic; "advanced"; "tutorial"] ∨
  (∃ m, m ∈ take 3 ms ∧ keywords = [lower topic; lower (title m); "module"]) ∨
  (∃ m s, m ∈ take 3 ms ∧ s ∈ take 2 (subtopics m) ∧
          keywords = [lower topic; lower s; "concept"]).

(** The title and the url of a recommendation, and of a video. *)
Definition rec_link (r : Recommendation) : value * string := (rec_title r, rec_url r).

Definition video_link (v : VideoRecord) : value * string := (video_title v, video_url v).

(** The key is present and its value has at least [n] entries. *)
Definition sized_at_least (d : dict) (k : string) (n : nat) : Prop :=
  ∃ v len, dict_get k d = Some v ∧ py_len v = Ok len ∧ (n ≤ len)%nat.

(** What the self-repair leaves alone: at least 2 modules, 3
    recommendations and 5 quiz questions. *)
Definition well_sized (d : dict) : Prop :=
  sized_at_least d "modules" 2 ∧
  sized_at_least d "youtube_recommendations" 3 ∧
  sized_at_least d "quiz_questions" 5.

(** A generator output with enough modules, one recommendation, no quiz,
    and a key of its own. *)
Definition partial_output : dict :=
  [("modules",
    VList [VDict [("title", VStr "Ownership"); ("subtopics", VList [VStr "Borrowing"])];
           VDict [("title", VStr "Traits"); ("subtopics", VList [VStr "Generics"])]]);
   ("youtube_recommendations",
    VList [VDict [("title", VStr "Rust video"); ("url", VStr "u1");
                  ("keywords", VList [VStr "rust"])]]);
   ("level", VStr "beginner")].

(** The model answers with a JSON array. *)
Definition array_env : GeminiEnv :=
  {| GOOGLE_API_KEY := Some "key"; generate_content := Ok "[1, 2]" |}.

Definition array_json_loads (s : string) : result value :=
  if decide (s = "[1, 2]") then Ok (VList [VInt 1; VInt 2]) else Raise JSONDecodeError.

(** The character occurs in the string. *)
Fixpoint occurs (c : ascii) (s : string) : bool :=
  match s with
  | "" => false
  | String a s' => bool_decide (a = c) || occurs c s'
  end.

(** A path as the store and the caller receive it. *)
Definition path_well_sized (p : LearningPath) : Prop :=
  (2 ≤ length (modules p))%nat ∧
  (∃ n, py_len (youtube_recommendations p) = Ok n ∧ (1 ≤ n)%nat) ∧
  (∃ n, py_len (quiz_questions p) = Ok n ∧ (5 ≤ n)%nat) ∧
  stored_youtube_recommendations p = youtube_recommendations p.

(** An entry of a list the enhancer has put in the path: a title, a watch
    link, and three keywords beginning with the topic in lower case. *)
Definition entry_ok (topic : string) (entry : value) : Prop :=
  ∃ entry_title url k2 k3,
    entry = VDict [("title", entry_title);
                   ("url", VStr url);
                   ("keywords", VList [VStr (lower topic); VStr k2; VStr k3])] ∧
    is_prefix watch_prefix url = true.

(** What the enhancer reads of the modules of a path. *)
Definition module_view (m : LearningModule) : string * list string :=
  (title m, take 2 (subtopics m)).

Definition modules_view (ms : list LearningModule) : list (string * list string) :=
  module_view <$> take 3 ms.

(** [six_path] with a third subtopic in its module and three modules
    more. *)
Definition longer_path : LearningPath :=
  {| topic := "Rust";
     modules :=
       [{| title := "Ownership"; subtopics := ["Borrowing"; "Lifetimes"; "Moves"] |};
        {| title := "Traits"; subtopics := [] |};
        {| title := "Macros"; subtopics := ["Hygiene"] |};
        {| title := "Unsafe"; subtopics := ["Raw pointers"] |}];
     youtube_recommendations := six_recommendations;
     quiz_questions := VList [] |}.

Definition shorter_path : LearningPath :=
  {| topic := "Rust";
     modules :=
       [{| title := "Ownership"; subtopics := ["Borrowing"; "Lifetimes"] |};
        {| title := "Traits"; subtopics := [] |};
        {| title := "Macros"; subtopics := ["Hygiene"] |}];
     youtube_recommendations := VList [];
     quiz_questions := VList [] |}.

(** A generator output with 2 modules, 3 recommendations and 5 quiz
    questions. *)
Definition full_output : dict :=
  [("modules",
    VList [VDict [("title", VStr "Ownership"); ("subtopics", VList [VStr "Borrowing"])];
           VDict [("title", VStr "Traits"); ("subtopics", VList [VStr "Generics"])]]);
   ("youtube_recommendations",
    VList ((λ u, VDict [("title", VStr "Rust video"); ("url", VStr u);
                        ("keywords", VList [VStr "rust"])])
           <$> ["u1"; "u2"; "u3"]));
   ("quiz_questions",
    VList ((λ q, VDict [("question", VStr q);
                        ("options", VList [VStr "A"; VStr "B"; VStr "C"; VStr "D"]);
                        ("correct_answer", VStr "A")])
           <$> ["q1"; "q2"; "q3"; "q4"; "q5"]))].

(** The model answers with a text that [json.loads] reads as
    [full_output]. *)
Definition full_text : string := "{...}".

Definition full_env : GeminiEnv :=
  {| GOOGLE_API_KEY := Some "key"; generate_content := Ok full_text |}.

Definition full_json_loads (s : string) : result value :=
  if decide (s = full_text) then Ok (VDict full_output) else Raise JSONDecodeError.

(** A path whose second module has for title the subtopic of the first. *)
Definition repeated_key_path : LearningPath :=
  {| topic := "Rust";
     modules := [{| title := "A"; subtopics := ["B"] |};
                 {| title := "B"; subtopics := [] |}];
     youtube_recommendations := VList [];
     quiz_questions := VList [] |}.

(** Two generated modules, the first with [null] for [subtopics]. *)
Definition null_modules : value :=
  VList [VDict [("title", VStr "Ownership"); ("subtopics", VNone)];
         VDict [("title", VStr "Traits")]].

Definition quoted (s : string) : string := dquote +:+ s +:+ dquote.

Definition null_text : string :=
  "{" +:+ quoted "modules" +:+ ": [{" +:+ quoted "title" +:+ ": "
  +:+ quoted "Ownership" +:+ ", " +:+ quoted "subtopics" +:+ ": null}, {"
  +:+ quoted "title" +:+ ": " +:+ quoted "Traits" +:+ "}]}".

Definition null_json_loads (s : string) : result value :=
  if decide (s = null_text) then Ok (VDict [("modules", null_modules)])
  else Raise JSONDecodeError.

Definition null_env : GeminiEnv :=
  {| GOOGLE_API_KEY := Some "key"; generate_content := Ok null_text |}.

(** The call behind a recommendation's keywords: which of the five kinds
    of query [o] is, and the keywords its videos get. *)
Definition call_keywords (topic : string) (ms : list LearningModule) (o : Origin)
    (keywords : list string) : Prop :=
  (o = TopicQuery (topic +:+ " complete tutorial") ∧
   keywords = [lower topic; "tutorial"; "tutorial"]) ∨
  (o = TopicQuery (topic +:+ " course for beginners") ∧
   keywords = [lower topic; "beginners"; "tutorial"]) ∨
  (∃ m, m ∈ take 3 ms ∧ o = ModuleTitle (title m) ∧
        keywords = [lower topic; lower (title m); "module"]) ∨
  (∃ m s, m ∈ take 3 ms ∧ s ∈ take 2 (subtopics m) ∧ o = Subtopic s ∧
          keywords = [lower topic; lower s; "concept"]) ∨
  (∃ missing, o = Fill missing ∧ keywords = [lower topic; "advanced"; "tutorial"]).

Ltac question_ok_here :=
  eexists _, _, _; split_and!; [reflexivity | reflexivity | reflexivity | reflexivity | left].

(** * Properties *)

Lemma search_youtube_videos_returns env query max_results :
  ∃ videos, search_youtube_videos env query max_results = Ok videos.
Proof.
  unfold search_youtube_videos.
  destruct (truthy_opt (YOUTUBE_API_KEY env)); simpl; [|by eexists].
  destruct (requests_get env _ _ _) as [response|e]; simpl; [|by eexists].
  destruct (decide (status_code response = 200)); simpl; [|by eexists].
  destruct (collect_videos response max_results); simpl; by eexists.
Qed.

(** C4. For every environment, query and [max_results],
    [search_youtube_videos] returns a list and raises nothing; and it
    returns the empty list when the API key is missing or empty, when the
    HTTP call raises, when the status is not 200, and when reading the
    response body or one of its items raises. *)
Theorem search_youtube_videos_degrades_to_empty env query max_results :
  let params := search_params query max_results (default "" (YOUTUBE_API_KEY env)) in
  (∃ videos, search_youtube_videos env query max_results = Ok videos) ∧
  (truthy_opt (YOUTUBE_API_KEY env) = false →
     search_youtube_videos env query max_results = Ok []) ∧
  (∀ e, requests_get env search_url params 10 = Raise e →
     search_youtube_videos env query max_results = Ok []) ∧
  (∀ response, requests_get env search_url params 10 = Ok response →
     status_code response ≠ 200 →
     search_youtube_videos env query max_results = Ok []) ∧
  (∀ response e, requests_get env search_url params 10 = Ok response →
     collect_videos response max_results = Raise e →
     search_youtube_videos env query max_results = Ok []).
Proof.
  intros params. split; [apply search_youtube_videos_returns|].
  unfold search_youtube_videos. fold params.
  destruct (truthy_opt (YOUTUBE_API_KEY env)); simpl.
  - split; [done|]. split; [by intros e ->|]. split.
    + intros response -> Hne. simpl. by rewrite decide_False.
    + intros response e -> Hraise. simpl. rewrite Hraise. by case_decide.
  - done.
Qed.

Lemma string_take_length n s : (n ≤ String.length s)%nat → String.length (string_take n s) = n.
Proof.
  revert s; induction n as [|n IH]; intros [|c s] ?; simpl in *; try lia; auto.
  rewrite IH; lia.
Qed.

Lemma slice_stop_nonneg len n : 0 ≤ n → slice_stop len n = Z.to_nat n.
Proof. intros. unfold slice_stop. by rewrite (proj2 (Z.ltb_ge n 0)). Qed.

Lemma truncate_description_str d :
  truncate_description (VStr d) = Ok (VStr (truncated d)).
Proof.
  unfold truncate_description, truncated. cbn -[slice_stop string_take Nat.ltb].
  destruct (Nat.ltb_spec 200 (String.length d)).
  - rewrite bool_decide_eq_false_2 by lia. cbn -[slice_stop string_take].
    rewrite slice_stop_nonneg by lia. reflexivity.
  - rewrite bool_decide_eq_true_2 by lia. done.
Qed.

Lemma video_info_has_fields item f :
  has_fields item f → video_info item = Ok (record_of f).
Proof.
  intros (d & snippet & id & -> & Hs & Hi & Ht & Hd & Hc & Hp & Hth & Hv).
  unfold video_info, snippet_field. simpl.
  rewrite Hs, Hi. simpl. rewrite Ht, Hv, Hd. simpl.
  rewrite truncate_description_str. simpl. rewrite Hc, Hp, Hth. done.
Qed.

Lemma for_collect_has_fields items fields :
  Forall2 has_fields items fields →
  for_collect video_info items = Ok (record_of <$> fields).
Proof.
  induction 1 as [|item f items fields Hf _ IH]; simpl; [done|].
  rewrite (video_info_has_fields _ _ Hf). simpl. rewrite IH. done.
Qed.

(** C10. On provider success (a key, status 200, a body whose [items]
    have the fields the code reads) and for [max_results >= 0], the call
    returns one record for each of the first [max_results] items, in the
    provider's order, so at most [max_results] records; the description of
    a record is the provider's when that has at most 200 characters, and
    otherwise its first 200 characters followed by ["..."]. *)
Theorem search_youtube_videos_success env query max_results key response d items fields :
  YOUTUBE_API_KEY env = Some key → key ≠ "" →
  requests_get env search_url (search_params query max_results key) 10 = Ok response →
  status_code response = 200 →
  json response = Ok (VDict d) →
  dict_get "items" d = Some (VList items) →
  0 ≤ max_results →
  Forall2 has_fields (take (Z.to_nat max_results) items) fields →
  search_youtube_videos env query max_results = Ok (record_of <$> fields) ∧
  Z.of_nat (length (record_of <$> fields)) ≤ max_results ∧
  Forall2 (λ f v,
      ((String.length (item_description f) ≤ 200)%nat →
         video_description v = VStr (item_description f)) ∧
      ((200 < String.length (item_description f))%nat →
         video_description v = VStr (string_take 200 (item_description f) +:+ "...") ∧
         String.length (string_take 200 (item_description f)) = 200%nat))
    fields (record_of <$> fields).
Proof.
  intros Hkey Hne Hget Hstatus Hjson Hitems Hmax Hfields.
  split; [|split].
  - unfold search_youtube_videos. rewrite Hkey. simpl.
    rewrite bool_decide_eq_false_2 by done. simpl.
    rewrite Hget. simpl. rewrite decide_True by done.
    unfold collect_videos. rewrite Hjson. cbn -[slice_stop]. rewrite Hitems.
    cbn -[slice_stop]. rewrite slice_stop_nonneg by done.
    by rewrite (for_collect_has_fields _ _ Hfields).
  - rewrite length_fmap. rewrite <- (Forall2_length _ _ _ Hfields).
    rewrite length_take. lia.
  - apply Forall2_fmap_r, Forall_Forall2_diag, Forall_forall.
    intros f _. cbn -[string_take]. unfold truncated. split; intros Hlen.
    + by rewrite bool_decide_eq_true_2.
    + rewrite bool_decide_eq_false_2 by lia. split; [done|].
      apply string_take_length. lia.
Qed.

Lemma post_ret {A} (a : A) st (Q : A → EnhancerState → Prop) :
  Q a st → post (mret a) st Q.
Proof. intros. by exists a, st. Qed.

Lemma post_bind {A B} (m : Enh A) (f : A → Enh B) st Q :
  post m st (λ a st', post (f a) st' Q) → post (m ≫= f) st Q.
Proof.
  intros (a & st' & Hm & b & st'' & Hf & HQ). exists b, st''. split; [|done].
  unfold mbind, Enh_bind. by rewrite Hm.
Qed.

Lemma post_mono {A} (m : Enh A) st (Q Q' : A → EnhancerState → Prop) :
  post m st Q → (∀ a st', Q a st' → Q' a st') → post m st Q'.
Proof. intros (a & st' & ? & ?) HQ. exists a, st'. eauto. Qed.

Lemma post_and {A} (m : Enh A) st (Q Q' : A → EnhancerState → Prop) :
  post m st Q → post m st Q' → post m st (λ a st', Q a st' ∧ Q' a st').
Proof.
  intros (a & st' & Hm & ?) (a' & st'' & Hm' & ?). rewrite Hm in Hm'.
  simplify_eq. by exists a', st''.
Qed.

Lemma post_get_state st Q : Q st st → post get_state st Q.
Proof. intros. by exists st, st. Qed.

Lemma post_when (b : bool) m st (Q : unit → EnhancerState → Prop) :
  (b = true → post m st Q) → (b = false → Q () st) → post (when b m) st Q.
Proof. destruct b; simpl; intros H1 H2; [by apply H1|by apply post_ret, H2]. Qed.

Lemma post_for_each {A} (I : list A → EnhancerState → Prop) l body st :
  I [] st →
  (∀ pre x suf st0, l = pre ++ x :: suf → I pre st0 →
     post (body x) st0 (λ _ st', I (pre ++ [x]) st')) →
  post (for_each l body) st (λ _ st', I l st').
Proof.
  intros Hinit Hstep.
  cut (∀ suf pre st0, l = pre ++ suf → I pre st0 →
         post (for_each suf body) st0 (λ _ st', I l st')).
  { intros H. by apply (H l [] st). }
  induction suf as [|x suf IH]; intros pre st0 Hl HI; simpl.
  - apply post_ret. by rewrite Hl, app_nil_r.
  - apply post_bind. eapply post_mono; [by eapply Hstep|].
    intros [] st' HI'. simpl. apply (IH (pre ++ [x])); [|done].
    by rewrite Hl, (cons_middle x pre suf), app_assoc.
Qed.

Lemma post_append r st (Q : unit → EnhancerState → Prop) :
  (∀ st', calls st' = calls st →
          searched_keywords st' = searched_keywords st →
          enhanced_recommendations st' = enhanced_recommendations st ++ [r] →
          Q () st') →
  post (append_recommendation r) st Q.
Proof. intros H. eexists _, _. split; [done|]. by apply H. Qed.

Lemma post_mark k st (Q : unit → EnhancerState → Prop) :
  (∀ st', calls st' = calls st →
          searched_keywords st' = {[k]} ∪ searched_keywords st →
          enhanced_recommendations st' = enhanced_recommendations st →
          Q () st') →
  post (mark_searched k) st Q.
Proof. intros H. eexists _, _. split; [done|]. by apply H. Qed.

Lemma post_lift {A} (r : result A) a st (Q : A → EnhancerState → Prop) :
  r = Ok a → Q a st → post (lift r) st Q.
Proof. intros -> ?. by exists a, st. Qed.

Lemma post_search world query max_results st
    (Q : list VideoRecord → EnhancerState → Prop) :
  (∀ videos st',
     search_youtube_videos (world (length (calls st))) query max_results = Ok videos →
     calls st' = calls st ++ [(query, max_results)] →
     same_locals st st' →
     Q videos st') →
  post (search world query max_results) st Q.
Proof.
  intros H.
  destruct (search_youtube_videos_returns (world (length (calls st))) query max_results)
    as [videos Hv].
  eexists videos, _. unfold search. rewrite Hv. split; [done|]. by apply H.
Qed.

(** The inner loops only append one recommendation per video. *)
Lemma post_append_videos (f : VideoRecord → Enh unit) (g : VideoRecord → Recommendation)
    videos st (Q : unit → EnhancerState → Prop) :
  (∀ video st0, f video st0 = append_recommendation (g video) st0) →
  (∀ st', calls st' = calls st →
          searched_keywords st' = searched_keywords st →
          enhanced_recommendations st' = enhanced_recommendations st ++ (g <$> videos) →
          Q () st') →
  post (for_each videos f) st Q.
Proof.
  intros Hf HQ.
  eapply post_mono.
  - apply (post_for_each (λ pre st',
      calls st' = calls st ∧ searched_keywords st' = searched_keywords st ∧
      enhanced_recommendations st' = enhanced_recommendations st ++ (g <$> pre))).
    + by rewrite app_nil_r.
    + intros pre x suf st0 _ (Hc & Hs & He).
      unfold post. rewrite Hf. apply post_append. intros st' -> -> ->.
      by rewrite fmap_app, He, app_assoc.
  - intros [] st' (? & ? & ?). by apply HQ.
Qed.

Lemma string_app_nil_r s : s +:+ "" = s.
Proof. induction s as [|c s IH]; [done|]. unfold String.app in *. simpl. by rewrite IH. Qed.

Lemma string_app_cons c s t : String c s +:+ t = String c (s +:+ t).
Proof. done. Qed.

Lemma string_app_snoc s c t : s +:+ String c t = (s +:+ String c "") +:+ t.
Proof.
  induction s as [|a s IH]; [done|]. rewrite !string_app_cons. by rewrite IH.
Qed.

Lemma split_go_word cur w :
  no_space w = true → cur +:+ w ≠ "" → split_go cur w = [cur +:+ w].
Proof.
  revert cur; induction w as [|c w IH]; intros cur Hns Hne; simpl in *.
  - rewrite string_app_nil_r in *. by rewrite decide_False.
  - apply andb_prop in Hns as [Hc Hw]. apply negb_true_iff in Hc. rewrite Hc.
    rewrite (string_app_snoc cur c w) in Hne |- *. by apply IH.
Qed.

Lemma last_app_nonempty {A} (l1 l2 : list A) x :
  last l2 = Some x → last (l1 ++ l2) = Some x.
Proof.
  intros H. destruct l2 as [|y l2]; [done|]. by rewrite last_app_cons.
Qed.

Lemma split_go_last_word cur s w :
  no_space w = true → w ≠ "" →
  last (split_go cur (s +:+ " " +:+ w)) = Some w.
Proof.
  intros Hns Hne. revert cur; induction s as [|c s IH]; intros cur.
  - change ("" +:+ " " +:+ w) with (String " "%char w). simpl.
    rewrite (split_go_word "" w) by done. apply last_app_nonempty. done.
  - change (String c s +:+ " " +:+ w) with (String c (s +:+ " " +:+ w)). simpl.
    destruct (is_space c); [|apply IH].
    apply last_app_nonempty, IH.
Qed.

Lemma py_last_split_query s w :
  no_space w = true → w ≠ "" → py_last (split (s +:+ " " +:+ w)) = Ok w.
Proof.
  intros. unfold py_last, split. by rewrite split_go_last_word.
Qed.

Lemma string_app_assoc s t u : (s +:+ t) +:+ u = s +:+ t +:+ u.
Proof. induction s as [|c s IH]; [done|]. rewrite !string_app_cons. by rewrite IH. Qed.

Lemma topic_query_last_word topic query :
  query ∈ take 2 (topic_queries topic) → ∃ w, py_last (split query) = Ok w.
Proof.
  simpl. intros Hq. apply elem_of_cons in Hq as [->|Hq].
  - exists "tutorial".
    replace (topic +:+ " complete tutorial")
      with ((topic +:+ " complete") +:+ " " +:+ "tutorial")
      by (by rewrite string_app_assoc).
    by apply py_last_split_query.
  - apply list_elem_of_singleton in Hq as ->. exists "beginners".
    replace (topic +:+ " course for beginners")
      with ((topic +:+ " course for") +:+ " " +:+ "beginners")
      by (by rewrite string_app_assoc).
    by apply py_last_split_query.
Qed.

Section EnhancerBlocks.

Variable world : nat → Env.

Lemma quiet_videos st query max_results videos :
search_youtube_videos (world (length (calls st))) query max_results = Ok videos →
quiet world → videos = [].
Proof. intros Hv Hq. rewrite Hq in Hv. by simplify_eq. Qed.

(** One search followed by one append per video. *)
Lemma post_search_append query max_results (g : VideoRecord → Recommendation)
  (f : VideoRecord → Enh unit) st (Q : unit → EnhancerState → Prop) :
(∀ video st0, f video st0 = append_recommendation (g video) st0) →
(∀ st', calls st' = calls st ++ [(query, max_results)] →
        searched_keywords st' = searched_keywords st →
        (quiet world → enhanced_recommendations st' = enhanced_recommendations st) →
        Q () st') →
post (videos ← search world query max_results; for_each videos f) st Q.
Proof.
intros Hf HQ. apply post_bind, post_search.
intros videos st1 Hv Hc [Hs He].
apply (post_append_videos f g); [done|].
intros st2 Hc2 Hs2 He2. apply HQ; [congruence|congruence|].
intros Hquiet. rewrite (quiet_videos _ _ _ _ Hv Hquiet) in He2.
rewrite He2, He. by rewrite app_nil_r.
Qed.

Lemma search_topic_post topic st :
post (search_topic world topic) st (λ _ st',
  calls st' = calls st ++ (topic_call <$> take 2 (topic_queries topic)) ∧
  searched_keywords st' = searched_keywords st ∧
  (quiet world → enhanced_recommendations st' = enhanced_recommendations st)).
Proof.
unfold search_topic.
apply (post_for_each (λ pre st',
  calls st' = calls st ++ (topic_call <$> pre) ∧
  searched_keywords st' = searched_keywords st ∧
  (quiet world → enhanced_recommendations st' = enhanced_recommendations st))).
{ by rewrite app_nil_r. }
intros pre query suf st0 Hl (Hc & Hs & He).
destruct (topic_query_last_word topic query) as [w Hw].
{ rewrite Hl. apply elem_of_app. right. left. }
apply (post_search_append _ _ (λ video,
  {| rec_title := video_title video; rec_url := video_url video;
     rec_keywords := [lower topic; w; "tutorial"] |})).
{ intros video st1. unfold mbind, Enh_bind, lift. by rewrite Hw. }
intros st' Hc' Hs' He'. split; [|split].
- by rewrite Hc', Hc, fmap_app, app_assoc.
- congruence.
- intros Hq. rewrite He', He; done.
Qed.

(** The title query of one module. *)
Lemma search_title_post topic m st0 st :
post (when (fresh_key (title m) st0)
        (for_each (take 1 (module_queries topic (title m))) (λ query,
           videos ← search world query 1;
           for_each videos (λ video,
             append_recommendation
               {| rec_title := video_title video;
                  rec_url := video_url video;
                  rec_keywords := [lower topic; lower (title m); "module"] |});;
           mark_searched (title m)))) st
  (λ _ st', ∃ tc, calls st' = calls st ++ tc ∧
     tc `sublist_of` [module_call m] ∧
     (quiet world → enhanced_recommendations st' = enhanced_recommendations st)).
Proof.
apply post_when; intros _.
- simpl. apply post_bind.
  change (post (videos ← search world (title m +:+ " explained") 1;
                (for_each videos (λ video, append_recommendation
                   {| rec_title := video_title video; rec_url := video_url video;
                      rec_keywords := [lower topic; lower (title m); "module"] |});;
                 mark_searched (title m))) st
            (λ _ st', post (mret ()) st' (λ _ st'', ∃ tc,
               calls st'' = calls st ++ tc ∧ tc `sublist_of` [module_call m] ∧
               (quiet world →
                enhanced_recommendations st'' = enhanced_recommendations st)))).
  apply post_bind, post_search. intros videos st1 Hv Hc [Hs He].
  apply post_bind.
  apply (post_append_videos _ (λ video,
    {| rec_title := video_title video; rec_url := video_url video;
       rec_keywords := [lower topic; lower (title m); "module"] |})); [done|].
  intros st2 Hc2 Hs2 He2. apply post_mark. intros st3 Hc3 Hs3 He3.
  apply post_ret. exists [module_call m]. split; [|split].
  + unfold module_call. congruence.
  + done.
  + intros Hquiet. rewrite (quiet_videos _ _ _ _ Hv Hquiet) in He2.
    rewrite He3, He2, He. by rewrite app_nil_r.
- exists []. split; [by rewrite app_nil_r|]. split; [|done].
  apply sublist_nil_l.
Qed.

(** The query of one subtopic. *)
Lemma search_subtopic_post topic subtopic st :
post (st0 ← get_state;
      when (fresh_key subtopic st0)
        (for_each (take 1 (subtopic_queries topic subtopic)) (λ query,
           videos ← search world query 1;
           for_each videos (λ video,
             append_recommendation
               {| rec_title := video_title video;
                  rec_url := video_url video;
                  rec_keywords := [lower topic; lower subtopic; "concept"] |});;
           mark_searched subtopic))) st
  (λ _ st', ∃ sc, calls st' = calls st ++ sc ∧
     sc `sublist_of` [subtopic_call topic subtopic] ∧
     (quiet world → enhanced_recommendations st' = enhanced_recommendations st)).
Proof.
apply post_bind, post_get_state, post_when; intros _.
- simpl. apply post_bind.
  change (post (videos ← search world (subtopic +:+ " " +:+ topic +:+ " tutorial") 1;
                (for_each videos (λ video, append_recommendation
                   {| rec_title := video_title video; rec_url := video_url video;
                      rec_keywords := [lower topic; lower subtopic; "concept"] |});;
                 mark_searched subtopic)) st
            (λ _ st', post (mret ()) st' (λ _ st'', ∃ sc,
               calls st'' = calls st ++ sc ∧
               sc `sublist_of` [subtopic_call topic subtopic] ∧
               (quiet world →
                enhanced_recommendations st'' = enhanced_recommendations st)))).
  apply post_bind, post_search. intros videos st1 Hv Hc [Hs He].
  apply post_bind.
  apply (post_append_videos _ (λ video,
    {| rec_title := video_title video; rec_url := video_url video;
       rec_keywords := [lower topic; lower subtopic; "concept"] |})); [done|].
  intros st2 Hc2 Hs2 He2. apply post_mark. intros st3 Hc3 Hs3 He3.
  apply post_ret. exists [subtopic_call topic subtopic]. split; [|split].
  + unfold subtopic_call. congruence.
  + done.
  + intros Hquiet. rewrite (quiet_videos _ _ _ _ Hv Hquiet) in He2.
    rewrite He3, He2, He. by rewrite app_nil_r.
- exists []. split; [by rewrite app_nil_r|]. split; [|done].
  apply sublist_nil_l.
Qed.

Lemma search_module_post topic m st :
post (search_module world topic m) st (λ _ st',
  ∃ chunk, calls st' = calls st ++ chunk ∧ module_calls topic m chunk ∧
    (quiet world → enhanced_recommendations st' = enhanced_recommendations st)).
Proof.
unfold search_module. apply post_bind, post_get_state. apply post_bind.
eapply post_mono; [apply search_title_post|].
intros [] st1 (tc & Hc1 & Htc & He1). simpl.
eapply post_mono.
- apply (post_for_each (λ pre st',
    ∃ sc, calls st' = calls st1 ++ sc ∧
      sc `sublist_of` (subtopic_call topic <$> pre) ∧
      (quiet world → enhanced_recommendations st' = enhanced_recommendations st1))).
  + exists []. by rewrite app_nil_r.
  + intros pre subtopic suf st0 _ (sc & Hc & Hsc & He).
    eapply post_mono; [apply search_subtopic_post|].
    intros [] st' (sc' & Hc' & Hsc' & He'). simpl.
    exists (sc ++ sc'). split; [|split].
    * by rewrite Hc', Hc, app_assoc.
    * rewrite fmap_app. by apply sublist_app.
    * intros Hq. rewrite He', He; done.
- intros [] st' (sc & Hc & Hsc & He). simpl.
  exists (tc ++ sc). split; [|split].
  + by rewrite Hc, Hc1, app_assoc.
  + by exists tc, sc.
  + intros Hq. rewrite He, He1; done.
Qed.

Lemma search_fill_post topic st :
post (search_fill world topic) st (λ _ st',
  ∃ fc, calls st' = calls st ++ fc ∧ fill_calls topic fc ∧
    (quiet world → enhanced_recommendations st' = enhanced_recommendations st)).
Proof.
unfold search_fill. apply post_bind, post_get_state, post_when; intros Hlt.
- apply bool_decide_eq_true_1 in Hlt.
  apply (post_search_append _ _ (λ video,
    {| rec_title := video_title video; rec_url := video_url video;
       rec_keywords := [lower topic; "advanced"; "tutorial"] |})); [done|].
  intros st' Hc Hs He. eexists. split; [done|]. split; [|done].
  right. eexists. split; [|done]. lia.
- exists []. split; [by rewrite app_nil_r|]. split; [by left|done].
Qed.

End EnhancerBlocks.

Lemma enhance_post world topic learning_path :
  ∃ path' st' module_chunks fc,
    enhance world topic learning_path = Ok (path', st') ∧
    calls st' = (topic_call <$> take 2 (topic_queries topic))
                ++ concat module_chunks ++ fc ∧
    Forall2 (module_calls topic) (take 3 (modules learning_path)) module_chunks ∧
    fill_calls topic fc ∧
    (quiet world → enhanced_recommendations st' = []) ∧
    path' = match final_recommendations (enhanced_recommendations st') with
            | [] => learning_path
            | final =>
                set_youtube_recommendations learning_path
                  (VList (recommendation_value <$> final))
            end.
Proof.
  cut (post (enhance_learning_path_with_youtube world topic learning_path)
         initial_state (λ path' st', ∃ module_chunks fc,
    calls st' = (topic_call <$> take 2 (topic_queries topic))
                ++ concat module_chunks ++ fc ∧
    Forall2 (module_calls topic) (take 3 (modules learning_path)) module_chunks ∧
    fill_calls topic fc ∧
    (quiet world → enhanced_recommendations st' = []) ∧
    path' = match final_recommendations (enhanced_recommendations st') with
            | [] => learning_path
            | final =>
                set_youtube_recommendations learning_path
                  (VList (recommendation_value <$> final))
            end)).
  { intros (path' & st' & Hrun & chunks & fc & H). by exists path', st', chunks, fc. }
  unfold enhance_learning_path_with_youtube.
  apply post_bind. eapply post_mono; [apply search_topic_post|].
  intros [] st1 (Hc1 & _ & He1). simpl in Hc1, He1.
  apply post_bind. eapply post_mono.
  { apply (post_for_each (λ pre st',
      ∃ chunks, calls st' = calls st1 ++ concat chunks ∧
        Forall2 (module_calls topic) pre chunks ∧
        (quiet world → enhanced_recommendations st' = enhanced_recommendations st1))).
    - exists []. by rewrite app_nil_r.
    - intros pre m suf st0 _ (chunks & Hc & Hch & He).
      eapply post_mono; [apply search_module_post|].
      intros [] st' (chunk & Hc' & Hchunk & He'). simpl.
      exists (chunks ++ [chunk]). split; [|split].
      + rewrite Hc', Hc, concat_app. simpl. by rewrite app_nil_r, app_assoc.
      + apply Forall2_app; [done|]. by constructor.
      + intros Hq. rewrite He', He; done. }
  intros [] st2 (chunks & Hc2 & Hch & He2). simpl.
  apply post_bind. eapply post_mono; [apply search_fill_post|].
  intros [] st3 (fc & Hc3 & Hfc & He3). simpl.
  apply post_bind, post_get_state.
  assert (calls st3 = (topic_call <$> take 2 (topic_queries topic))
                      ++ concat chunks ++ fc) as Hcalls.
  { rewrite Hc3, Hc2, Hc1. simpl. done. }
  assert (quiet world → enhanced_recommendations st3 = []) as Hquiet.
  { intros Hq. rewrite He3, He2, He1; done. }
  destruct (final_recommendations (enhanced_recommendations st3)) as [|r final] eqn:Hfinal;
    apply post_ret; exists chunks, fc; by rewrite Hfinal.
Qed.

Lemma foldl_dedup_step unique seen l :
  (foldl dedup_step (unique, seen) l).1 = unique ++ first_seen seen l.
Proof.
  revert unique seen; induction l as [|r l IH]; intros unique seen; simpl.
  - by rewrite app_nil_r.
  - unfold dedup_step at 2. simpl. destruct (decide (rec_url r ∈ seen)).
    + rewrite bool_decide_eq_true_2 by done. apply IH.
    + rewrite bool_decide_eq_false_2 by done. rewrite IH.
      by rewrite <- app_assoc.
Qed.

Lemma deduplicate_first_seen l : deduplicate l = first_seen ∅ l.
Proof. unfold deduplicate. by rewrite foldl_dedup_step. Qed.

Lemma first_seen_fresh seen l r :
  r ∈ first_seen seen l → rec_url r ∉ seen.
Proof.
  revert seen; induction l as [|x l IH]; intros seen; simpl; [by intros ?%elem_of_nil|].
  destruct (decide (rec_url x ∈ seen)); [by apply IH|].
  intros [->|Hin]%elem_of_cons; [done|].
  apply IH in Hin. intros Hs. apply Hin, elem_of_union. by right.
Qed.

Lemma first_seen_NoDup seen l : NoDup (rec_url <$> first_seen seen l).
Proof.
  revert seen; induction l as [|x l IH]; intros seen; simpl; [constructor|].
  destruct (decide (rec_url x ∈ seen)); [apply IH|].
  rewrite fmap_cons. constructor; [|apply IH].
  intros (r & Hu & Hin)%list_elem_of_fmap.
  apply first_seen_fresh in Hin. apply Hin, elem_of_union. left.
  by apply elem_of_singleton.
Qed.

Lemma first_seen_sublist seen l : first_seen seen l `sublist_of` l.
Proof.
  revert seen; induction l as [|x l IH]; intros seen; simpl; [done|].
  destruct (decide (rec_url x ∈ seen)).
  - by apply sublist_cons.
  - by apply sublist_skip.
Qed.

Lemma first_seen_find seen l u :
  find (has_url u) (first_seen seen l)
  = if decide (u ∈ seen) then None else find (has_url u) l.
Proof.
  revert seen; induction l as [|x l IH]; intros seen; simpl; [by case_decide|].
  unfold has_url at 2. destruct (decide (rec_url x ∈ seen)) as [Hin|Hnin].
  - rewrite IH. case_decide as Hu; [done|].
    rewrite bool_decide_eq_false_2; [done|]. by intros <-.
  - simpl. unfold has_url at 1. case_bool_decide as Hx.
    + subst u. by rewrite decide_False.
    + rewrite IH. destruct (decide (u ∈ seen)) as [Hu|Hu].
      * rewrite decide_True; [done|]. apply elem_of_union. by right.
      * rewrite decide_False; [done|].
        intros [Hs%elem_of_singleton|Hs]%elem_of_union; [by subst|done].
Qed.

Lemma first_seen_id seen l :
  NoDup (rec_url <$> l) → (∀ r, r ∈ l → rec_url r ∉ seen) → first_seen seen l = l.
Proof.
  revert seen; induction l as [|x l IH]; intros seen Hnd Hfresh; simpl; [done|].
  rewrite fmap_cons in Hnd. apply NoDup_cons in Hnd as [Hx Hnd].
  rewrite decide_False by (apply Hfresh; left). f_equal. apply IH; [done|].
  intros r Hr. specialize (Hfresh r (list_elem_of_further _ _ _ Hr)).
  intros [Hs%elem_of_singleton|Hs]%elem_of_union; [|done].
  apply Hx. rewrite <- Hs. by apply list_elem_of_fmap_2.
Qed.

Lemma final_recommendations_NoDup l : NoDup (rec_url <$> final_recommendations l).
Proof.
  unfold final_recommendations. rewrite deduplicate_first_seen.
  eapply sublist_NoDup; [apply (first_seen_NoDup ∅ l)|].
  rewrite fmap_take. apply sublist_take.
Qed.

Lemma final_recommendations_length l : (length (final_recommendations l) ≤ 5)%nat.
Proof. unfold final_recommendations. rewrite length_take. lia. Qed.

Lemma final_recommendations_nil l : final_recommendations l = [] ↔ l = [].
Proof.
  unfold final_recommendations. rewrite deduplicate_first_seen. split.
  - destruct l as [|r l]; [done|]. simpl.
    by rewrite decide_False by apply not_elem_of_empty.
  - by intros ->.
Qed.

Lemma concat_length_bound {A} (ls : list (list A)) n :
  Forall (λ l, length l ≤ n)%nat ls → (length (concat ls) ≤ n * length ls)%nat.
Proof.
  induction 1 as [|l ls Hl _ IH]; simpl; [lia|]. rewrite length_app. lia.
Qed.

Lemma Forall2_right {A B} (P : A → B → Prop) (Q : B → Prop) l k :
  Forall2 P l k → (∀ x y, P x y → Q y) → Forall Q k.
Proof. induction 1; intros HPQ; constructor; eauto. Qed.

Lemma module_calls_split topic m chunk :
  module_calls topic m chunk →
  ∃ tc sc, chunk = tc ++ sc ∧ (length tc ≤ 1)%nat ∧ (length sc ≤ 2)%nat.
Proof.
  intros (tc & sc & -> & Htc & Hsc). exists tc, sc.
  apply sublist_length in Htc, Hsc. rewrite length_fmap, length_take in Hsc.
  simpl in Htc. split; [done|]. lia.
Qed.

Lemma module_calls_length topic m chunk :
  module_calls topic m chunk → (length chunk ≤ 3)%nat.
Proof.
  intros (tc & sc & -> & ? & ?)%module_calls_split. rewrite length_app. lia.
Qed.

Lemma fill_calls_length topic fc : fill_calls topic fc → (length fc ≤ 1)%nat.
Proof. intros [->|(n & _ & ->)]; simpl; lia. Qed.

(** C3. For every topic and learning path, [enhance] returns, and the
    search calls it has issued are, in order: the first 2 topic queries;
    for each of the first 3 modules at most 1 title query followed by at
    most 1 query for each of its first 2 subtopics; at most 1 fill query.
    That is at most 2 + 3 + 6 + 1 = 12 calls. *)
Theorem enhance_call_budget world topic learning_path :
  ∃ path' st' module_chunks fc,
    enhance world topic learning_path = Ok (path', st') ∧
    calls st' = (topic_call <$> take 2 (topic_queries topic))
                ++ concat module_chunks ++ fc ∧
    Forall2 (module_calls topic) (take 3 (modules learning_path)) module_chunks ∧
    fill_calls topic fc ∧
    (length (topic_call <$> take 2 (topic_queries topic)) ≤ 2)%nat ∧
    (length module_chunks ≤ 3)%nat ∧
    Forall (λ chunk, ∃ tc sc, chunk = tc ++ sc ∧
                       (length tc ≤ 1)%nat ∧ (length sc ≤ 2)%nat) module_chunks ∧
    (length fc ≤ 1)%nat ∧
    (length (calls st') ≤ 12)%nat.
Proof.
  destruct (enhance_post world topic learning_path)
    as (path' & st' & chunks & fc & Hrun & Hcalls & Hch & Hfc & _ & _).
  exists path', st', chunks, fc.
  assert (length chunks ≤ 3)%nat as Hlen.
  { rewrite <- (Forall2_length _ _ _ Hch), length_take. lia. }
  assert (Forall (λ chunk, length chunk ≤ 3)%nat chunks) as Hall.
  { eapply Forall2_right; [done|]. apply module_calls_length. }
  split_and!; try done.
  - eapply Forall2_right; [done|]. apply module_calls_split.
  - by eapply fill_calls_length.
  - rewrite Hcalls, !length_app. apply concat_length_bound in Hall.
    apply fill_calls_length in Hfc. simpl. lia.
Qed.

(** C5. If every search call returns the empty list, [enhance] returns
    the path it was given, unchanged: nothing was collected, the
    deduplicated list is empty, and no replacement takes place. *)
Theorem enhance_quiet_unchanged world topic learning_path :
  quiet world →
  ∃ st', enhance world topic learning_path = Ok (learning_path, st') ∧
         enhanced_recommendations st' = [] ∧
         final_recommendations (enhanced_recommendations st') = [].
Proof.
  intros Hquiet.
  destruct (enhance_post world topic learning_path)
    as (path' & st' & chunks & fc & Hrun & _ & _ & _ & He & Hpath).
  specialize (He Hquiet). rewrite He in Hpath. simpl in Hpath. subst path'.
  exists st'. by rewrite He.
Qed.

Lemma entry_url_recommendation r :
  entry_url (recommendation_value r) = Some (VStr (rec_url r)).
Proof. done. Qed.

Lemma capped_and_distinct_final l :
  capped_and_distinct (VList (recommendation_value <$> final_recommendations l)).
Proof.
  eexists. split; [done|]. split.
  - rewrite length_fmap. apply final_recommendations_length.
  - rewrite <- list_fmap_compose.
    assert ((entry_url ∘ recommendation_value <$> final_recommendations l)
            = (λ u, Some (VStr u)) <$> (rec_url <$> final_recommendations l)) as ->.
    { rewrite <- list_fmap_compose. by apply list_fmap_ext. }
    apply NoDup_fmap_2; [|apply final_recommendations_NoDup].
    intros u1 u2 Heq. by simplify_eq.
Qed.

(** C1, amended. [enhance] changes no field of the path other than
    [youtube_recommendations]. When the searches collected at least one
    video, that field is replaced by a non-empty list of at most 5 entries,
    no two sharing a url; when they collected none, the field keeps the
    generator's list as it is, whatever its length and its urls. *)
Theorem enhance_recommendations world topic learning_path :
  ∃ path' st',
    enhance world topic learning_path = Ok (path', st') ∧
    path' = set_youtube_recommendations learning_path (youtube_recommendations path') ∧
    (enhanced_recommendations st' = [] →
       youtube_recommendations path' = youtube_recommendations learning_path) ∧
    (enhanced_recommendations st' ≠ [] →
       capped_and_distinct (youtube_recommendations path') ∧
       youtube_recommendations path' ≠ VList []).
Proof.
  destruct (enhance_post world topic learning_path)
    as (path' & st' & chunks & fc & Hrun & _ & _ & _ & _ & Hpath).
  exists path', st'. split; [done|].
  destruct (final_recommendations (enhanced_recommendations st')) as [|r final] eqn:Hfinal.
  - subst path'. split_and!; try done; [by destruct learning_path|].
    intros Hne. destruct Hne. by apply final_recommendations_nil.
  - subst path'. split_and!; try done.
    + intros He%final_recommendations_nil. by rewrite He in Hfinal.
    + intros _. split; [|done]. rewrite <- Hfinal. apply capped_and_distinct_final.
Qed.

(** C6. Deduplication keeps, for every url, the first entry of the
    accumulated list with that url and no other, in the order of the list;
    the final list is its first 5 entries. Of two entries with one url and
    different titles, the first one alone survives. *)
Theorem deduplicate_keeps_first_seen l :
  deduplicate l = first_seen ∅ l ∧
  (∀ u, find (has_url u) (deduplicate l) = find (has_url u) l) ∧
  NoDup (rec_url <$> deduplicate l) ∧
  deduplicate l `sublist_of` l ∧
  final_recommendations l = take 5 (deduplicate l) ∧
  (∀ title1 title2 url keywords1 keywords2,
     final_recommendations
       [ {| rec_title := title1; rec_url := url; rec_keywords := keywords1 |};
         {| rec_title := title2; rec_url := url; rec_keywords := keywords2 |} ]
     = [ {| rec_title := title1; rec_url := url; rec_keywords := keywords1 |} ]).
Proof.
  split_and!.
  - apply deduplicate_first_seen.
  - intros u. rewrite deduplicate_first_seen, first_seen_find.
    by rewrite decide_False by apply not_elem_of_empty.
  - rewrite deduplicate_first_seen. apply first_seen_NoDup.
  - rewrite deduplicate_first_seen. apply first_seen_sublist.
  - done.
  - intros. unfold final_recommendations. rewrite deduplicate_first_seen. simpl.
    rewrite decide_False by apply not_elem_of_empty.
    rewrite decide_True; [done|]. apply elem_of_union. left. by apply elem_of_singleton.
Qed.

(** C7. Deduplicating by url and truncating to 5, applied twice, gives
    the same list as applied once. *)
Theorem final_recommendations_idempotent l :
  final_recommendations (final_recommendations l) = final_recommendations l.
Proof.
  unfold final_recommendations at 1. rewrite deduplicate_first_seen.
  rewrite first_seen_id.
  - unfold final_recommendations. rewrite take_take. f_equal.
  - apply final_recommendations_NoDup.
  - intros r _. apply not_elem_of_empty.
Qed.

(** ** The generator's self-repair *)

Lemma dict_get_set_eq k v d : dict_get k (dict_set k v d) = Some v.
Proof.
  induction d as [|[k' v'] d IH]; simpl.
  - by rewrite decide_True.
  - destruct (decide (k = k')); simpl.
    + by rewrite decide_True.
    + by rewrite decide_False.
Qed.

Lemma dict_get_set_ne k k' v d :
  k ≠ k' → dict_get k' (dict_set k v d) = dict_get k' d.
Proof.
  intros Hne. induction d as [|[k0 v0] d IH]; simpl.
  - by rewrite decide_False.
  - destruct (decide (k = k0)) as [->|]; simpl.
    + by rewrite !decide_False.
    + destruct (decide (k' = k0)); [done|]. apply IH.
Qed.

Lemma ensure_key_lacks k n fallback d :
  lacks d k n → ensure_key k n fallback (VDict d) = Ok (VDict (dict_set k fallback d)).
Proof.
  unfold ensure_key, missing_or_short. simpl.
  intros [Hnone|(v & len & Hsome & Hlen & Hlt)].
  - rewrite Hnone. simpl. done.
  - rewrite Hsome. simpl.
    rewrite Hlen. simpl. by rewrite bool_decide_eq_true_2.
Qed.

Lemma ensure_key_sized k n fallback d :
  absent_or_sized d k →
  ∃ d', ensure_key k n fallback (VDict d) = Ok (VDict d') ∧
        ∀ k', k' ≠ k → dict_get k' d' = dict_get k' d.
Proof.
  intros [Hnone|(v & len & Hsome & Hlen)].
  - exists (dict_set k fallback d). split.
    + apply ensure_key_lacks. by left.
    + intros k' Hne. by apply dict_get_set_ne.
  - destruct (decide (len < n)%nat).
    + exists (dict_set k fallback d). split.
      * apply ensure_key_lacks. right. eauto.
      * intros k' Hne. by apply dict_get_set_ne.
    + exists d. split; [|done].
      unfold ensure_key, missing_or_short. simpl. rewrite Hsome. simpl.
      rewrite Hlen. simpl. by rewrite bool_decide_eq_false_2.
Qed.

(** Whatever a repair returns, it returns a dictionary that agrees with
    its argument on the other keys. *)
Lemma ensure_key_other k n fallback d out :
  ensure_key k n fallback (VDict d) = Ok out →
  ∃ d', out = VDict d' ∧ ∀ k', k' ≠ k → dict_get k' d' = dict_get k' d.
Proof.
  unfold ensure_key, missing_or_short. simpl.
  destruct (dict_get k d) as [v|] eqn:Hget; simpl.
  - destruct (py_len v) as [len|e]; simpl; [|done].
    case_bool_decide; simpl; intros Hout.
    + simplify_eq. eexists. split; [done|].
      intros k' Hne. by apply dict_get_set_ne.
    + unfold mret, result_ret in Hout. simplify_eq. exists d. split; [done|]. by intros.
  - intros ?; simplify_eq. eexists. split; [done|].
    intros k' Hne. by apply dict_get_set_ne.
Qed.

Lemma ensure_modules_key topic content :
  ensure_modules topic content = ensure_key "modules" 2 (repair_modules topic) content.
Proof. done. Qed.

Lemma ensure_youtube_recommendations_key topic content :
  ensure_youtube_recommendations topic content
  = ensure_key "youtube_recommendations" 3 (repair_youtube_recommendations topic) content.
Proof. done. Qed.

Lemma ensure_quiz_questions_key topic content :
  ensure_quiz_questions topic content
  = ensure_key "quiz_questions" 5 (repair_quiz_questions topic) content.
Proof. done. Qed.

Lemma absent_or_sized_other d d' k :
  dict_get k d' = dict_get k d → absent_or_sized d k → absent_or_sized d' k.
Proof. unfold absent_or_sized. by intros ->. Qed.

Lemma lacks_other d d' k n :
  dict_get k d' = dict_get k d → lacks d k n → lacks d' k n.
Proof. unfold lacks. by intros ->. Qed.

Lemma lacks_sized d k n : lacks d k n → absent_or_sized d k.
Proof. intros [?|(v & len & ? & ? & _)]; [by left|right; eauto]. Qed.

(** The self-repair completes on a dictionary whose three fields, where
    present, have a length; the other keys of each step are untouched. *)
Lemma ensure_required_items_sized topic d :
  absent_or_sized d "modules" →
  absent_or_sized d "youtube_recommendations" →
  absent_or_sized d "quiz_questions" →
  ∃ d1 d2 d3,
    ensure_modules topic (VDict d) = Ok (VDict d1) ∧
    ensure_youtube_recommendations topic (VDict d1) = Ok (VDict d2) ∧
    ensure_quiz_questions topic (VDict d2) = Ok (VDict d3) ∧
    ensure_required_items topic (VDict d) = Ok (VDict d3) ∧
    (∀ k, k ≠ "modules" → dict_get k d1 = dict_get k d) ∧
    (∀ k, k ≠ "youtube_recommendations" → dict_get k d2 = dict_get k d1) ∧
    (∀ k, k ≠ "quiz_questions" → dict_get k d3 = dict_get k d2).
Proof.
  intros Hm Hr Hq.
  destruct (ensure_key_sized "modules" 2 (repair_modules topic) d Hm) as (d1 & H1 & O1).
  destruct (ensure_key_sized "youtube_recommendations" 3
              (repair_youtube_recommendations topic) d1) as (d2 & H2 & O2).
  { eapply absent_or_sized_other; [|done]. by apply O1. }
  destruct (ensure_key_sized "quiz_questions" 5
              (repair_quiz_questions topic) d2) as (d3 & H3 & O3).
  { eapply absent_or_sized_other; [|done]. rewrite O2, O1; done. }
  exists d1, d2, d3. rewrite ensure_modules_key, ensure_youtube_recommendations_key,
    ensure_quiz_questions_key. split_and!; try done.
  unfold ensure_required_items.
  rewrite ensure_modules_key, H1. simpl.
  rewrite ensure_youtube_recommendations_key, H2. simpl.
  by rewrite ensure_quiz_questions_key.
Qed.

Lemma ensure_required_items_modules topic d out :
  lacks d "modules" 2 →
  ensure_required_items topic (VDict d) = Ok out →
  ∃ d', out = VDict d' ∧ dict_get "modules" d' = Some (repair_modules topic).
Proof.
  intros Hlack. unfold ensure_required_items.
  rewrite ensure_modules_key, (ensure_key_lacks _ _ _ _ Hlack). simpl.
  rewrite ensure_youtube_recommendations_key.
  destruct (ensure_key "youtube_recommendations" _ _ _) as [c2|e] eqn:H2; simpl; [|done].
  apply ensure_key_other in H2 as (d2 & -> & O2).
  rewrite ensure_quiz_questions_key. intros H3.
  apply ensure_key_other in H3 as (d3 & -> & O3).
  exists d3. split; [done|]. rewrite O3, O2 by done. apply dict_get_set_eq.
Qed.

Section GeneratorFacts.

Variable json_loads : string → result value.

Lemma generate_from_parsed env topic text content out :
truthy_opt (GOOGLE_API_KEY env) = true →
generate_content env = Ok text →
parse_response json_loads topic text = Ok content →
ensure_required_items topic content = Ok out →
generate_learning_path_content json_loads env topic = Ok out.
Proof.
intros Hkey Htext Hparse Hensure.
unfold generate_learning_path_content, generate_body, configure_gemini.
rewrite Hkey. simpl. rewrite Htext. simpl. rewrite Hparse. simpl.
by rewrite Hensure.
Qed.

Lemma generate_from_failure env topic e :
generate_body json_loads env topic = Raise e →
generate_learning_path_content json_loads env topic
= Ok (match e with TimeoutError => timeout_default topic | _ => error_default topic end).
Proof.
intros Hbody. unfold generate_learning_path_content. rewrite Hbody. simpl.
by destruct e.
Qed.

End GeneratorFacts.

Lemma timeout_error_default topic : timeout_default topic = error_default topic.
Proof. reflexivity. Qed.

(** C9. When the generator output has no [modules] key or fewer than 2
    modules, the self-repair puts under [modules] the 3-module fallback,
    whose titles are ["Foundations of {topic}"], ["Intermediate {topic}"]
    and ["Advanced {topic}"]; this holds of whatever the self-repair
    returns, and [generate_learning_path_content] returns such a content
    when the other two fields are absent or have a length. *)
Theorem modules_self_repair json_loads topic d :
  lacks d "modules" 2 →
  py_len (repair_modules topic) = Ok 3%nat ∧
  module_titles (repair_modules topic)
  = [VStr ("Foundations of " +:+ topic);
     VStr ("Intermediate " +:+ topic);
     VStr ("Advanced " +:+ topic)] ∧
  (∃ d1, ensure_modules topic (VDict d) = Ok (VDict d1) ∧
         dict_get "modules" d1 = Some (repair_modules topic)) ∧
  (∀ out, ensure_required_items topic (VDict d) = Ok out →
          ∃ d', out = VDict d' ∧ dict_get "modules" d' = Some (repair_modules topic)) ∧
  (absent_or_sized d "youtube_recommendations" →
   absent_or_sized d "quiz_questions" →
   ∃ d', ensure_required_items topic (VDict d) = Ok (VDict d') ∧
         dict_get "modules" d' = Some (repair_modules topic) ∧
         ∀ env text,
           truthy_opt (GOOGLE_API_KEY env) = true →
           generate_content env = Ok text →
           parse_response json_loads topic text = Ok (VDict d) →
           generate_learning_path_content json_loads env topic = Ok (VDict d')).
Proof.
  intros Hlack. split_and!; try done.
  - eexists. split.
    + rewrite ensure_modules_key. by apply ensure_key_lacks.
    + apply dict_get_set_eq.
  - intros out. by apply ensure_required_items_modules.
  - intros Hr Hq.
    destruct (ensure_required_items_sized topic d (lacks_sized _ _ _ Hlack) Hr Hq)
      as (d1 & d2 & d3 & _ & _ & _ & Hrun & _).
    destruct (ensure_required_items_modules topic d _ Hlack Hrun) as (d' & Heq & Hget).
    simplify_eq. exists d'. split_and!; try done.
    intros env text Hkey Htext Hparse. by eapply generate_from_parsed.
Qed.

Lemma repair_quiz_questions_ok topic :
  ∃ questions, repair_quiz_questions topic = VList questions ∧
    length questions = 10%nat ∧ Forall question_ok questions.
Proof.
  eexists. split; [reflexivity|]. split; [reflexivity|].
  repeat (constructor; [question_ok_here|]). constructor.
Qed.

Lemma timeout_default_quiz topic : quiz_well_formed (timeout_default topic).
Proof.
  eexists _, _. split; [reflexivity|]. split; [reflexivity|]. split; [reflexivity|].
  repeat (constructor; [question_ok_here|]). constructor.
Qed.

Lemma repaired_quiz_well_formed topic d :
  dict_get "quiz_questions" d = Some (repair_quiz_questions topic) →
  quiz_well_formed (VDict d).
Proof.
  intros Hget. destruct (repair_quiz_questions_ok topic) as (qs & Heq & Hlen & Hall).
  exists d, qs. by rewrite Hget, Heq.
Qed.

Lemma ensure_unparsed_default topic :
  ∃ d, ensure_required_items topic (unparsed_default topic) = Ok (VDict d) ∧
       dict_get "quiz_questions" d = Some (repair_quiz_questions topic).
Proof.
  eexists. split; [reflexivity|]. reflexivity.
Qed.

(** Whatever one repair returns, its argument was a dictionary; it
    either wrote the fallback under its key or, the field having enough
    entries, returned the dictionary as it is. *)
Lemma ensure_key_result k n fallback content out :
  ensure_key k n fallback content = Ok out →
  ∃ d, content = VDict d ∧
    ((lacks d k n ∧ out = VDict (dict_set k fallback d)) ∨
     (sized_at_least d k n ∧ out = VDict d)).
Proof.
  unfold ensure_key, missing_or_short.
  destruct content as [| | |s|l|d]; simpl; try done.
  - destruct (is_substring k s); simpl; done.
  - destruct (existsb _ l); simpl; done.
  - intros Hout. exists d. split; [done|]. revert Hout.
    destruct (dict_get k d) as [v|] eqn:Hget; simpl.
    + destruct (py_len v) as [len|e] eqn:Hlen; simpl; [|done].
      case_bool_decide; simpl; intros Hout; unfold mret, result_ret in *; simplify_eq.
      * left. split; [|done]. right. by exists v, len.
      * right. split; [|done]. exists v, len. split_and!; try done. lia.
    + intros Hout. simplify_eq. left. split; [|done]. by left.
Qed.

(** The quiz after the self-repair: the fallback questions, or the quiz
    of the argument when it has at least 5 entries. *)
Lemma ensure_required_items_quiz topic content out :
  ensure_required_items topic content = Ok out →
  ∃ d d', content = VDict d ∧ out = VDict d' ∧
    (dict_get "quiz_questions" d' = Some (repair_quiz_questions topic) ∨
     (sized_at_least d "quiz_questions" 5 ∧
      dict_get "quiz_questions" d' = dict_get "quiz_questions" d)).
Proof.
  unfold ensure_required_items.
  rewrite ensure_modules_key.
  destruct (ensure_key "modules" _ _ content) as [c1|] eqn:H1; simpl; [|done].
  rewrite ensure_youtube_recommendations_key.
  destruct (ensure_key "youtube_recommendations" _ _ c1) as [c2|] eqn:H2; simpl; [|done].
  rewrite ensure_quiz_questions_key. intros H3.
  destruct (ensure_key_result _ _ _ _ _ H1) as (d & -> & _).
  apply ensure_key_other in H1 as (d1 & -> & O1).
  apply ensure_key_other in H2 as (d2 & -> & O2).
  assert (dict_get "quiz_questions" d2 = dict_get "quiz_questions" d) as Hsame.
  { rewrite O2, O1; done. }
  apply ensure_key_result in H3 as (d2' & Heq & [(_ & ->)|(Hsized & ->)]).
  - eexists d, _. split_and!; try done. left. apply dict_get_set_eq.
  - injection Heq as <-. exists d, d2. split_and!; try done. right. split; [|done].
    unfold sized_at_least in *. by rewrite <- Hsame.
Qed.

Section Unparseable.

Variable json_loads : string → result value.

(** C8, amended. If [json.loads] rejects the response text, the content
  returned has 10 quiz questions, each with 4 options and a
  [correct_answer] that is one of them, in every run but those of one
  kind: the span from the first opening to the last closing brace of the
  text parses to an object whose [quiz_questions] has at least 5
  entries, and the content returned has that value under
  [quiz_questions]. So the 10 questions are returned whenever the text
  has no such span or [json.loads] rejects the span too. *)
Theorem unparseable_response_quiz env topic text :
generate_content env = Ok text →
json_loads text = Raise JSONDecodeError →
∃ content,
  generate_learning_path_content json_loads env topic = Ok content ∧
  (quiz_well_formed content ∨
   ∃ span d quiz len,
     json_match text = Some span ∧
     json_loads span = Ok (VDict d) ∧
     dict_get "quiz_questions" d = Some quiz ∧
     py_len quiz = Ok len ∧ (5 ≤ len)%nat ∧
     py_getitem content "quiz_questions" = Ok quiz) ∧
  ((∀ span, json_match text = Some span → ∃ e, json_loads span = Raise e) →
   quiz_well_formed content).
Proof.
intros Htext Hloads.
assert (∀ content, quiz_well_formed content →
  (quiz_well_formed content ∨
   ∃ span d quiz len,
     json_match text = Some span ∧
     json_loads span = Ok (VDict d) ∧
     dict_get "quiz_questions" d = Some quiz ∧
     py_len quiz = Ok len ∧ (5 ≤ len)%nat ∧
     py_getitem content "quiz_questions" = Ok quiz) ∧
  ((∀ span, json_match text = Some span → ∃ e, json_loads span = Raise e) →
   quiz_well_formed content)) as Hwf.
{ intros content Hc. split; [by left|done]. }
destruct (generate_body json_loads env topic) as [out|e] eqn:Hbody.
2: { eexists. split; [by apply generate_from_failure|].
     apply Hwf. destruct e; try rewrite <- timeout_error_default;
       apply timeout_default_quiz. }
exists out. split.
{ unfold generate_learning_path_content. by rewrite Hbody. }
unfold generate_body, configure_gemini in Hbody.
destruct (truthy_opt (GOOGLE_API_KEY env)); simpl in Hbody; [|done].
rewrite Htext in Hbody. simpl in Hbody.
unfold parse_response in Hbody. rewrite Hloads in Hbody.
destruct (json_match text) as [span|] eqn:Hmatch.
- destruct (json_loads span) as [content|e] eqn:Hspan; simpl in Hbody; [|done].
  apply ensure_required_items_quiz in Hbody
    as (d & d' & -> & -> & [Hrep|[Hsized Hkept]]).
  { apply Hwf. by eapply repaired_quiz_well_formed. }
  destruct Hsized as (quiz & len & Hget & Hlen & Hle). split.
  + right. exists span, d, quiz, len. split_and!; try done.
    simpl. by rewrite Hkept, Hget.
  + intros Hrej. destruct (Hrej span eq_refl) as [e He]. by rewrite He in Hspan.
- simpl in Hbody.
  destruct (ensure_unparsed_default topic) as (d & Hensure & Hquiz).
  rewrite Hensure in Hbody. injection Hbody as <-.
  apply Hwf. by eapply repaired_quiz_well_formed.
Qed.

End Unparseable.

Lemma string_app_length s t : String.length (s +:+ t) = (String.length s + String.length t)%nat.
Proof. induction s as [|c s IH]; [done|]. rewrite string_app_cons. simpl. by rewrite IH. Qed.

Lemma fallback_modules_differ topic :
  py_getitem (timeout_default topic) "modules" ≠ Ok (repair_modules topic).
Proof.
  intros Heq. apply (f_equal (first_entry_field "title")) in Heq.
  vm_compute in Heq. discriminate Heq.
Qed.

Lemma fallback_recommendations_differ topic :
  py_getitem (timeout_default topic) "youtube_recommendations"
  ≠ Ok (repair_youtube_recommendations topic).
Proof.
  intros Heq. apply (f_equal (first_entry_field "url")) in Heq.
  vm_compute in Heq. discriminate Heq.
Qed.

Lemma fallback_quiz_differ topic :
  py_getitem (timeout_default topic) "quiz_questions" ≠ Ok (repair_quiz_questions topic).
Proof.
  intros Heq. apply (f_equal (first_entry_field "question")) in Heq.
  assert (first_entry_field "question" (py_getitem (timeout_default topic) "quiz_questions")
          = Some (VStr ("What is " +:+ topic +:+ " primarily used for?"))) as H1 by done.
  assert (first_entry_field "question" (Ok (repair_quiz_questions topic))
          = Some (VStr ("What is the primary purpose of " +:+ topic +:+ "?"))) as H2 by done.
  rewrite H1, H2 in Heq. injection Heq as Heq.
  apply (f_equal String.length) in Heq. rewrite !string_app_length in Heq.
  simpl in Heq. lia.
Qed.

(** C2, amended. When the body of [generate_learning_path_content] raises
    (a timeout or any other exception), the function returns one fallback
    content, the same for a timeout as for any other exception, with 3
    modules, 5 recommendations and 10 quiz questions. The three blocks of
    the self-repair have the same sizes, and each differs from the
    corresponding block of the failure fallback. *)
Theorem failure_returns_one_fallback json_loads env topic e :
  generate_body json_loads env topic = Raise e →
  generate_learning_path_content json_loads env topic = Ok (timeout_default topic) ∧
  timeout_default topic = error_default topic ∧
  (py_getitem (timeout_default topic) "modules" ≫= py_len) = Ok 3%nat ∧
  (py_getitem (timeout_default topic) "youtube_recommendations" ≫= py_len) = Ok 5%nat ∧
  (py_getitem (timeout_default topic) "quiz_questions" ≫= py_len) = Ok 10%nat ∧
  py_len (repair_modules topic) = Ok 3%nat ∧
  py_len (repair_youtube_recommendations topic) = Ok 5%nat ∧
  py_len (repair_quiz_questions topic) = Ok 10%nat ∧
  py_getitem (timeout_default topic) "modules" ≠ Ok (repair_modules topic) ∧
  py_getitem (timeout_default topic) "youtube_recommendations"
    ≠ Ok (repair_youtube_recommendations topic) ∧
  py_getitem (timeout_default topic) "quiz_questions"
    ≠ Ok (repair_quiz_questions topic).
Proof.
  intros Hbody. split.
  { rewrite (generate_from_failure _ _ _ _ Hbody).
    destruct e; by rewrite <- ?timeout_error_default. }
  split; [apply timeout_error_default|].
  do 6 (split; [reflexivity|]).
  split; [apply fallback_modules_differ|].
  split; [apply fallback_recommendations_differ|apply fallback_quiz_differ].
Qed.

(** C2 (amended) on a timeout. *)
Lemma failure_returns_one_fallback_witness :
  generate_body reject_all timeout_env "Rust" = Raise TimeoutError ∧
  generate_learning_path_content reject_all timeout_env "Rust"
  = Ok (timeout_default "Rust").
Proof.
  split; [reflexivity|].
  apply (failure_returns_one_fallback reject_all timeout_env "Rust" TimeoutError).
  reflexivity.
Defined.

(** C2, as stated, fails: on a timeout for topic ["Rust"] none of the three
    returned blocks is the block the self-repair would substitute. *)
Lemma failure_fallback_is_not_the_repair :
  generate_body reject_all timeout_env "Rust" = Raise TimeoutError ∧
  ∃ content,
    generate_learning_path_content reject_all timeout_env "Rust" = Ok content ∧
    py_getitem content "modules" ≠ Ok (repair_modules "Rust") ∧
    py_getitem content "youtube_recommendations"
      ≠ Ok (repair_youtube_recommendations "Rust") ∧
    py_getitem content "quiz_questions" ≠ Ok (repair_quiz_questions "Rust").
Proof.
  split; [reflexivity|]. exists (timeout_default "Rust"). split; [reflexivity|].
  split; [apply fallback_modules_differ|].
  split; [apply fallback_recommendations_differ|apply fallback_quiz_differ].
Qed.

(** C1, as stated, fails. With a generator that times out and a search
    client without a key, the path for ["Rust"] carries the 5 fallback
    recommendations, all with one url; and a generated list of 6 entries
    comes out of [enhance] with its 6 entries. *)
Lemma generated_recommendations_kept_as_they_are :
  (∃ p, generate_learning_path reject_all timeout_env no_key_world "Rust" = Ok (Some p) ∧
        stored_youtube_recommendations p = youtube_recommendations p ∧
        py_len (youtube_recommendations p) = Ok 5%nat ∧
        ¬ capped_and_distinct (youtube_recommendations p)) ∧
  (∃ p st, enhance no_key_world "Rust" six_path = Ok (p, st) ∧
           py_len (youtube_recommendations p) = Ok 6%nat ∧
           ¬ capped_and_distinct (youtube_recommendations p)).
Proof.
  split.
  - eexists. split; [vm_compute; reflexivity|]. split; [reflexivity|].
    split; [reflexivity|]. intros (l & Heq & _ & Hnd). simpl in Heq.
    injection Heq as <-. simpl in Hnd.
    apply NoDup_cons in Hnd as [Hnotin _]. apply Hnotin. left.
  - eexists _, _. split; [vm_compute; reflexivity|]. split; [reflexivity|].
    intros (l & Heq & Hlen & _). simpl in Heq. injection Heq as <-.
    simpl in Hlen. lia.
Qed.

(** C5 on a search client without a key. *)
Lemma enhance_quiet_unchanged_witness :
  quiet no_key_world ∧
  ∃ st', enhance no_key_world "Rust" six_path = Ok (six_path, st') ∧
         enhanced_recommendations st' = [] ∧
         final_recommendations (enhanced_recommendations st') = [].
Proof.
  split; [intros i query max_results; reflexivity|].
  apply (enhance_quiet_unchanged no_key_world "Rust" six_path).
  intros i query max_results. reflexivity.
Defined.

(** C8, as stated, fails: a response that is not JSON as a whole but holds
    a JSON object with five empty quiz entries is returned with these five
    entries. *)
Lemma extracted_json_keeps_its_quiz :
  generate_content chatty_env = Ok sample_text ∧
  sample_json_loads sample_text = Raise JSONDecodeError ∧
  json_match sample_text = Some sample_span ∧
  ∃ content,
    generate_learning_path_content sample_json_loads chatty_env "Python Programming"
    = Ok content ∧
    (py_getitem content "quiz_questions" ≫= py_len) = Ok 5%nat ∧
    ¬ quiz_well_formed content.
Proof.
  split; [reflexivity|]. split; [reflexivity|]. split; [reflexivity|].
  eexists. split; [vm_compute; reflexivity|]. split; [reflexivity|].
  intros (d & qs & Heq & Hget & Hlen & _).
  injection Heq as <-. vm_compute in Hget. injection Hget as <-.
  simpl in Hlen. lia.
Qed.

(** C8 (amended) on a prose answer. *)
Lemma unparseable_response_quiz_witness :
  json_match "I cannot answer that." = None ∧
  ∃ content,
    generate_learning_path_content reject_all prose_env "Python Programming" = Ok content ∧
    quiz_well_formed content.
Proof.
  split; [reflexivity|].
  destruct (unparseable_response_quiz reject_all prose_env "Python Programming"
              "I cannot answer that.") as (content & Hrun & _ & Hwf).
  - reflexivity.
  - reflexivity.
  - exists content. split; [exact Hrun|].
    apply Hwf. intros span Hspan. vm_compute in Hspan. discriminate Hspan.
Defined.

(** C9 on an output with one module. *)
Lemma modules_self_repair_witness :
  lacks one_module "modules" 2 ∧
  ∃ d1, ensure_modules "Rust" (VDict one_module) = Ok (VDict d1) ∧
        dict_get "modules" d1 = Some (repair_modules "Rust").
Proof.
  assert (lacks one_module "modules" 2) as Hlacks.
  { right. eexists _, 1%nat. split; [reflexivity|]. split; [reflexivity|]. lia. }
  split; [exact Hlacks|].
  apply (modules_self_repair reject_all "Rust" one_module Hlacks).
Defined.

(** C10 on a provider answer of two items, asked for one. *)
Lemma search_youtube_videos_success_witness :
  search_youtube_videos sample_env "rust tutorial" 1 = Ok [record_of sample_fields] ∧
  video_description (record_of sample_fields)
  = VStr (string_take 200 long_description +:+ "...").
Proof.
  split; [|reflexivity].
  apply (search_youtube_videos_success sample_env "rust tutorial" 1 "key"
           sample_response
           [("kind", VStr "youtube#searchListResponse"); ("items", VList sample_items)]
           sample_items [sample_fields]).
  - reflexivity.
  - discriminate.
  - reflexivity.
  - reflexivity.
  - reflexivity.
  - reflexivity.
  - lia.
  - constructor; [|constructor].
    eexists _, _, _. split_and!; reflexivity.
Defined.

(** * Further properties *)

Lemma for_collect_Forall2 {A B} (body : A → result B) l ys :
  for_collect body l = Ok ys → Forall2 (λ x y, body x = Ok y) l ys.
Proof.
  revert ys; induction l as [|x l IH]; intros ys; simpl.
  - intros ?; simplify_eq. constructor.
  - destruct (body x) as [y|e] eqn:Hx; simpl; [|done].
    destruct (for_collect body l) as [ys'|e]; simpl; [|done].
    intros ?. unfold mret, result_ret in *. simplify_eq.
    constructor; [done|]. by apply IH.
Qed.

Lemma for_collect_raises {A B} (body : A → result B) l x e :
  x ∈ l → body x = Raise e → ∃ e', for_collect body l = Raise e'.
Proof.
  induction l as [|y l IH]; intros Hin Hx; [by apply elem_of_nil in Hin|].
  apply elem_of_cons in Hin as [<-|Hin]; simpl.
  - rewrite Hx. by eexists.
  - destruct (body y); simpl; [|by eexists].
    destruct (IH Hin Hx) as [e' ->]. by eexists.
Qed.

Lemma string_take_length_le n s : (String.length (string_take n s) ≤ n)%nat.
Proof.
  revert s; induction n as [|n IH]; intros [|c s]; simpl; try lia.
  specialize (IH s). lia.
Qed.

Lemma chars_length s : length (chars s) = String.length s.
Proof. induction s as [|c s IH]; simpl; congruence. Qed.

Lemma truncate_description_length d d' :
  truncate_description d = Ok d' →
  ∃ len, py_len d' = Ok len ∧ (len ≤ 203)%nat.
Proof.
  unfold truncate_description.
  destruct (py_len d) as [n|e] eqn:Hlen; simpl; [|done].
  destruct (Nat.ltb_spec 200 n) as [Hlt|Hle].
  - destruct d as [| | |s|l|kv]; simpl; try done.
    intros ?; simplify_eq. eexists. split; [done|].
    rewrite string_app_length. simpl.
    pose proof (string_take_length_le (slice_stop (String.length s) 200) s) as Hle.
    unfold slice_stop in Hle. simpl in Hle.
    change (Z.to_nat 200) with 200%nat in Hle. lia.
  - intros ?. unfold mret, result_ret in *. simplify_eq. exists n. split; [done|]. lia.
Qed.

Lemma video_info_ok item v : video_info item = Ok v → record_ok v.
Proof.
  unfold video_info.
  destruct (snippet_field item "title") as [t|]; simpl; [|done].
  destruct (py_getitem item "id") as [id|]; simpl; [|done].
  destruct (py_getitem id "videoId") as [vid|]; simpl; [|done].
  destruct (snippet_field item "description") as [d|]; simpl; [|done].
  destruct (truncate_description d) as [d'|] eqn:Hd; simpl; [|done].
  destruct (snippet_field item "channelTitle") as [c|]; simpl; [|done].
  destruct (snippet_field item "publishedAt") as [p|]; simpl; [|done].
  destruct (snippet_field item "thumbnails") as [th|]; simpl; [|done].
  intros ?. unfold mret, result_ret in *. simplify_eq. split; simpl.
  - done.
  - by eapply truncate_description_length.
Qed.

(** The items the loop visits are at most [max_results] many. *)
Lemma sliced_items_length items max_results sliced elems :
  0 ≤ max_results →
  py_slice_to items max_results = Ok sliced →
  py_iter sliced = Ok elems →
  (length elems ≤ Z.to_nat max_results)%nat.
Proof.
  intros Hmax. destruct items as [| | |s|l|kv]; simpl; try done.
  - intros ?; simplify_eq. simpl. intros ?; simplify_eq.
    rewrite length_fmap, chars_length. rewrite slice_stop_nonneg by done.
    apply string_take_length_le.
  - intros ?; simplify_eq. simpl. intros ?; simplify_eq.
    rewrite length_take, slice_stop_nonneg by done. lia.
Qed.

Lemma collect_videos_spec response max_results videos :
  collect_videos response max_results = Ok videos →
  Forall record_ok videos ∧
  (0 ≤ max_results → (length videos ≤ Z.to_nat max_results)%nat).
Proof.
  unfold collect_videos.
  destruct (json response) as [data|]; simpl; [|done].
  destruct (py_get data "items" (VList [])) as [items|]; simpl; [|done].
  destruct (py_slice_to items max_results) as [sliced|] eqn:Hs; simpl; [|done].
  destruct (py_iter sliced) as [elems|] eqn:Hi; simpl; [|done].
  intros Hc%for_collect_Forall2. split.
  - clear Hs Hi. induction Hc as [|x y l k Hx _ IH]; constructor; [|done].
    by eapply video_info_ok.
  - intros Hmax. rewrite <- (Forall2_length _ _ _ Hc).
    by eapply sliced_items_length.
Qed.

Lemma search_youtube_videos_cases env query max_results :
  search_youtube_videos env query max_results = Ok [] ∨
  ∃ key response videos,
    YOUTUBE_API_KEY env = Some key ∧ key ≠ "" ∧
    requests_get env search_url (search_params query max_results key) 10 = Ok response ∧
    status_code response = 200 ∧
    collect_videos response max_results = Ok videos ∧
    search_youtube_videos env query max_results = Ok videos.
Proof.
  unfold search_youtube_videos.
  destruct (YOUTUBE_API_KEY env) as [key|] eqn:Hkey; simpl; [|by left].
  case_bool_decide as Hne; simpl; [by left|].
  destruct (requests_get env _ _ _) as [response|] eqn:Hget; simpl; [|by left].
  case_decide as Hst; simpl; [|by left].
  destruct (collect_videos response max_results) as [videos|] eqn:Hc; simpl; [|by left].
  right. by exists key, response, videos.
Qed.

(** X1. Whatever the environment and the provider's answer, the search
    returns a list, and every record in it has a url that begins with
    ["https://www.youtube.com/watch?v="] and a description whose length
    is at most 203 (200 characters and the ellipsis). *)
Theorem search_youtube_videos_records env query max_results :
  ∃ videos, search_youtube_videos env query max_results = Ok videos ∧
            Forall record_ok videos.
Proof.
  destruct (search_youtube_videos_cases env query max_results)
    as [->|(key & response & videos & _ & _ & _ & _ & Hc & ->)].
  - by exists [].
  - exists videos. split; [done|]. by apply collect_videos_spec in Hc as [? _].
Qed.

(** X2. For [max_results >= 0] and whatever the provider answers (with
    more items than asked for, with [items] of another type), the search
    returns at most [max_results] records; asked for 0, it returns the
    empty list. *)
Theorem search_youtube_videos_at_most env query max_results :
  0 ≤ max_results →
  (∃ videos, search_youtube_videos env query max_results = Ok videos ∧
             Z.of_nat (length videos) ≤ max_results) ∧
  (max_results = 0 → search_youtube_videos env query max_results = Ok []).
Proof.
  intros Hmax.
  assert (∃ videos, search_youtube_videos env query max_results = Ok videos ∧
                    Z.of_nat (length videos) ≤ max_results) as (videos & Hrun & Hlen).
  { destruct (search_youtube_videos_cases env query max_results)
      as [->|(key & response & videos & _ & _ & _ & _ & Hc & ->)].
    - exists []. split; [done|]. simpl. lia.
    - exists videos. split; [done|].
      apply collect_videos_spec in Hc as [_ Hlen]. specialize (Hlen Hmax). lia. }
  split; [by exists videos|].
  intros ->. rewrite Hrun. destruct videos; [done|]. simpl in Hlen. lia.
Qed.

(** X2 on a provider answer of two items, asked for one. *)
Lemma search_youtube_videos_at_most_witness :
  (∃ videos, search_youtube_videos sample_env "rust tutorial" 1 = Ok videos ∧
             Z.of_nat (length videos) ≤ 1) ∧
  (1 = 0 → search_youtube_videos sample_env "rust tutorial" 1 = Ok []).
Proof.
  apply (search_youtube_videos_at_most sample_env "rust tutorial" 1). lia.
Defined.

(** X3. When one of the first [max_results] items of a successful answer
    cannot be read (it has no [videoId], say), the search returns the empty
    list: the records of the items read before it are lost with it. *)
Theorem search_youtube_videos_all_or_nothing
    env query max_results key response d items item e :
  YOUTUBE_API_KEY env = Some key → key ≠ "" →
  requests_get env search_url (search_params query max_results key) 10 = Ok response →
  status_code response = 200 →
  json response = Ok (VDict d) →
  dict_get "items" d = Some (VList items) →
  0 ≤ max_results →
  item ∈ take (Z.to_nat max_results) items →
  video_info item = Raise e →
  search_youtube_videos env query max_results = Ok [].
Proof.
  intros Hkey Hne Hget Hstatus Hjson Hitems Hmax Hin Hraise.
  unfold search_youtube_videos. rewrite Hkey. simpl.
  rewrite bool_decide_eq_false_2 by done. simpl.
  rewrite Hget. simpl. rewrite decide_True by done.
  unfold collect_videos. rewrite Hjson. cbn -[slice_stop]. rewrite Hitems.
  cbn -[slice_stop]. rewrite slice_stop_nonneg by done.
  destruct (for_collect_raises video_info _ _ _ Hin Hraise) as [e' ->]. done.
Qed.

(** X3 on an answer of two videos followed by a channel. *)
Lemma search_youtube_videos_all_or_nothing_witness :
  video_info (sample_item "abc" "Rust in depth" long_description)
  = Ok (record_of sample_fields) ∧
  video_info channel_item = Raise KeyError ∧
  search_youtube_videos mixed_env "rust tutorial" 5 = Ok [].
Proof.
  split; [reflexivity|]. split; [reflexivity|].
  apply (search_youtube_videos_all_or_nothing mixed_env "rust tutorial" 5 "key"
           mixed_response [("items", VList (sample_items ++ [channel_item]))]
           (sample_items ++ [channel_item]) channel_item KeyError).
  - reflexivity.
  - discriminate.
  - reflexivity.
  - reflexivity.
  - reflexivity.
  - reflexivity.
  - lia.
  - change (Z.to_nat 5) with 5%nat. simpl. do 2 right. left.
  - reflexivity.
Defined.

Lemma collected_snoc world topic events o :
  collected world topic (events ++ [o])
  = collected world topic events
    ++ (recommendation_of topic o <$> answer world (length events) (origin_call topic o)).
Proof.
  unfold collected. rewrite imap_app, concat_app. simpl.
  by rewrite Nat.add_0_r, app_nil_r.
Qed.

Lemma post_for_each_singleton {A} (x : A) body st (Q : unit → EnhancerState → Prop) :
  post (body x) st Q → post (for_each [x] body) st Q.
Proof.
  intros H. simpl. apply post_bind. eapply post_mono; [exact H|].
  intros [] st' HQ. by apply post_ret.
Qed.

Section EnhancerTrace.

Variable world : nat → Env.

Variable topic : string.

(** One search followed by one append per video. *)
Lemma search_append_trace o query n (f : VideoRecord → Enh unit) events seen st
  (Q : unit → EnhancerState → Prop) :
origin_call topic o = (query, n) →
(∀ video st0, f video st0 = append_recommendation (recommendation_of topic o video) st0) →
trace world topic st events seen →
(∀ st', trace world topic st' (events ++ [o]) seen → Q () st') →
post (videos ← search world query n; for_each videos f) st Q.
Proof.
intros Hcall Hf (Hc & He & Hs) HQ. apply post_bind, post_search.
intros videos st1 Hv Hc1 [Hs1 He1].
apply (post_append_videos f (recommendation_of topic o)); [done|].
intros st2 Hc2 Hs2 He2. apply HQ. split; [|split].
- rewrite Hc2, Hc1, Hc, fmap_app. simpl. by rewrite Hcall.
- rewrite He2, He1, He, collected_snoc. unfold answer. rewrite Hcall. simpl.
  rewrite Hc, length_fmap in Hv. by rewrite Hv.
- congruence.
Qed.

(** The same, followed by the addition of the key to the set. *)
Lemma search_append_mark_trace o query k (f : VideoRecord → Enh unit) events seen st
  (Q : unit → EnhancerState → Prop) :
origin_call topic o = (query, 1) →
(∀ video st0, f video st0 = append_recommendation (recommendation_of topic o video) st0) →
trace world topic st events seen →
(∀ st', trace world topic st' (events ++ [o]) ({[k]} ∪ seen) → Q () st') →
post (videos ← search world query 1; (for_each videos f;; mark_searched k)) st Q.
Proof.
intros Hcall Hf (Hc & He & Hs) HQ. apply post_bind, post_search.
intros videos st1 Hv Hc1 [Hs1 He1].
apply post_bind.
apply (post_append_videos f (recommendation_of topic o)); [done|].
intros st2 Hc2 Hs2 He2. apply post_mark. intros st3 Hc3 Hs3 He3.
apply HQ. split; [|split].
- rewrite Hc3, Hc2, Hc1, Hc, fmap_app. simpl. by rewrite Hcall.
- rewrite He3, He2, He1, He, collected_snoc. unfold answer. rewrite Hcall. simpl.
  rewrite Hc, length_fmap in Hv. by rewrite Hv.
- congruence.
Qed.

(** One title or subtopic of the module loop. *)
Lemma search_key_trace o k query (f : VideoRecord → Enh unit) base keys st0 st :
origin_key o = Some k →
origin_call topic o = (query, 1) →
(∀ video st1, f video st1 = append_recommendation (recommendation_of topic o video) st1) →
searched_keywords st0 = searched_keywords st →
trace world topic st (base ++ (key_events keys).1) (key_events keys).2 →
post (when (fresh_key k st0)
        (for_each [query] (λ _,
           videos ← search world query 1;
           (for_each videos f;; mark_searched k)))) st
  (λ _ st', trace world topic st'
              (base ++ (key_events (keys ++ [o])).1) (key_events (keys ++ [o])).2).
Proof.
intros Hkey Hcall Hf Hst0 Htr.
unfold key_events in *. rewrite foldl_snoc.
set (acc := foldl key_step ([], ∅) keys) in *.
unfold key_step. rewrite Hkey.
assert (searched_keywords st = acc.2) as Hseen by apply Htr.
assert (fresh_key k st0 = bool_decide (k ≠ "" ∧ k ∉ acc.2)) as Hfresh.
{ unfold fresh_key. rewrite Hst0, Hseen.
  repeat case_bool_decide; simpl; try done; tauto. }
apply post_when; rewrite Hfresh; intros Hb; rewrite Hb; simpl.
- apply post_for_each_singleton.
  apply (search_append_mark_trace o query k f (base ++ acc.1) acc.2); try done.
  intros st'. by rewrite app_assoc.
- done.
Qed.

Lemma search_module_trace m base keys st :
trace world topic st (base ++ (key_events keys).1) (key_events keys).2 →
post (search_module world topic m) st
  (λ _ st', trace world topic st'
              (base ++ (key_events (keys ++ module_keys m)).1)
              (key_events (keys ++ module_keys m)).2).
Proof.
intros Htr. unfold search_module.
apply post_bind, post_get_state. apply post_bind.
eapply post_mono.
{ apply (search_key_trace (ModuleTitle (title m)) (title m) (title m +:+ " explained")
           (λ video, append_recommendation
              {| rec_title := video_title video; rec_url := video_url video;
                 rec_keywords := [lower topic; lower (title m); "module"] |})
           base keys st st); done. }
intros [] st1 Htr1. simpl.
eapply post_mono.
- apply (post_for_each (λ pre st',
    trace world topic st'
      (base ++ (key_events ((keys ++ [ModuleTitle (title m)]) ++ (Subtopic <$> pre))).1)
      (key_events ((keys ++ [ModuleTitle (title m)]) ++ (Subtopic <$> pre))).2)).
  + simpl. by rewrite app_nil_r.
  + intros pre subtopic suf st0 _ Htr0.
    apply post_bind, post_get_state.
    eapply post_mono.
    { apply (search_key_trace (Subtopic subtopic) subtopic
               (subtopic +:+ " " +:+ topic +:+ " tutorial")
               (λ video, append_recommendation
                  {| rec_title := video_title video; rec_url := video_url video;
                     rec_keywords := [lower topic; lower subtopic; "concept"] |})
               base ((keys ++ [ModuleTitle (title m)]) ++ (Subtopic <$> pre))
               st0 st0); done. }
    intros [] st' Htr'. simpl. by rewrite fmap_app, app_assoc.
- intros [] st' Htr'. simpl. unfold module_keys.
  by rewrite (cons_middle _ keys), app_assoc.
Qed.

Lemma search_topic_trace st :
trace world topic st [] ∅ →
post (search_topic world topic) st
  (λ _ st', trace world topic st' (TopicQuery <$> take 2 (topic_queries topic)) ∅).
Proof.
intros Htr. unfold search_topic.
apply (post_for_each (λ pre st', trace world topic st' (TopicQuery <$> pre) ∅)).
{ done. }
intros pre query suf st0 Hl Htr0.
destruct (topic_query_last_word topic query) as [w Hw].
{ rewrite Hl. apply elem_of_app. right. left. }
apply (search_append_trace (TopicQuery query) query 2 _ (TopicQuery <$> pre) ∅); try done.
- intros video st1. unfold mbind, Enh_bind, lift, recommendation_of. simpl.
  unfold last_word. by rewrite Hw.
- intros st'. by rewrite fmap_app.
Qed.

Lemma search_fill_trace events seen st :
trace world topic st events seen →
post (search_fill world topic) st
  (λ _ st', trace world topic st' (events ++ fill_events world topic events) seen).
Proof.
intros Htr. unfold search_fill, fill_events.
apply post_bind, post_get_state.
assert (enhanced_recommendations st = collected world topic events) as -> by apply Htr.
apply post_when; intros Hb; rewrite Hb.
- apply (search_append_trace (Fill (5 - Z.of_nat (length (collected world topic events))))
           _ _ _ events seen); done.
- by rewrite app_nil_r.
Qed.

(** The whole enhancement: its calls, what it collected, what it marked
    and what it returns. *)
Lemma enhance_trace learning_path :
∃ path' st',
  enhance world topic learning_path = Ok (path', st') ∧
  trace world topic st' (all_events world topic (modules learning_path))
    (key_events (path_keys (modules learning_path))).2 ∧
  path' = match final_recommendations (enhanced_recommendations st') with
          | [] => learning_path
          | final =>
              set_youtube_recommendations learning_path
                (VList (recommendation_value <$> final))
          end.
Proof.
cut (post (enhance_learning_path_with_youtube world topic learning_path)
       initial_state (λ path' st',
  trace world topic st' (all_events world topic (modules learning_path))
    (key_events (path_keys (modules learning_path))).2 ∧
  path' = match final_recommendations (enhanced_recommendations st') with
          | [] => learning_path
          | final =>
              set_youtube_recommendations learning_path
                (VList (recommendation_value <$> final))
          end)).
{ intros (path' & st' & Hrun & H). by exists path', st'. }
unfold enhance_learning_path_with_youtube.
apply post_bind. eapply post_mono; [by apply search_topic_trace|].
intros [] st1 Htr1. simpl.
apply post_bind. eapply post_mono.
{ apply (post_for_each (λ pre st',
    trace world topic st'
      ((TopicQuery <$> take 2 (topic_queries topic))
       ++ (key_events (concat (module_keys <$> pre))).1)
      (key_events (concat (module_keys <$> pre))).2)).
  - change (key_events (concat (module_keys <$> []))) with (@nil Origin, (∅ : gset string)).
    simpl fst. simpl snd. by rewrite app_nil_r.
  - intros pre m suf st0 _ Htr0.
    eapply post_mono; [by apply search_module_trace|].
    intros [] st' Htr'. simpl.
    by rewrite fmap_app, concat_app; simpl; rewrite app_nil_r. }
intros [] st2 Htr2. simpl.
apply post_bind. eapply post_mono; [by apply search_fill_trace|].
intros [] st3 Htr3. simpl.
apply post_bind, post_get_state.
destruct (final_recommendations (enhanced_recommendations st3)) as [|r final] eqn:Hfinal;
  apply post_ret; by rewrite Hfinal.
Qed.

End EnhancerTrace.

Lemma elem_of_concat {A} (x : A) (ls : list (list A)) :
  x ∈ concat ls ↔ ∃ l, l ∈ ls ∧ x ∈ l.
Proof.
  induction ls as [|l ls IH]; simpl.
  - split; [by intros ?%elem_of_nil|]. by intros (l & ?%elem_of_nil & _).
  - rewrite elem_of_app, IH. split.
    + intros [Hx|(l' & Hl' & Hx)].
      * exists l. split; [left|done].
      * exists l'. split; [by right|done].
    + intros (l' & Hl' & Hx). apply elem_of_cons in Hl' as [->|Hl']; [by left|].
      right. by exists l'.
Qed.

Lemma fmap_concat_imap {A B C D} (f : B → D) (g : C → D)
    (F : nat → A → list B) (G : nat → A → list C) (l : list A) :
  (∀ i x, f <$> F i x = g <$> G i x) →
  f <$> concat (imap F l) = g <$> concat (imap G l).
Proof.
  revert F G. induction l as [|x l IH]; intros F G HFG; [done|].
  rewrite !imap_cons. simpl. rewrite !fmap_app, HFG. f_equal.
  apply IH. intros i y. apply HFG.
Qed.

Lemma collected_links world topic events :
  rec_link <$> collected world topic events
  = video_link <$> concat (imap (answer world) (origin_call topic <$> events)).
Proof.
  unfold collected. rewrite imap_fmap. apply fmap_concat_imap.
  intros i o. simpl. rewrite <- list_fmap_compose. done.
Qed.

Lemma elem_of_collected world topic events r :
  r ∈ collected world topic events →
  ∃ o, o ∈ events ∧ rec_keywords r = origin_keywords topic o.
Proof.
  unfold collected. intros (l & Hl & Hr)%elem_of_concat.
  apply elem_of_lookup_imap_1 in Hl as (i & o & -> & Ho).
  apply list_elem_of_fmap in Hr as (v & -> & _).
  exists o. split; [by eapply list_elem_of_lookup_2|done].
Qed.

(** What the module loop searches: a sublist of the keys it looks at, one
    call for each string that is not empty, the first time it is met. *)
Lemma key_events_spec keys :
  (key_events keys).1 `sublist_of` keys ∧
  NoDup (omap origin_key (key_events keys).1) ∧
  (key_events keys).2 = list_to_set (omap origin_key (key_events keys).1) ∧
  (∀ k, k ∈ (key_events keys).2 ↔ k ≠ "" ∧ k ∈ omap origin_key keys).
Proof.
  unfold key_events.
  induction keys as [|o keys (Hsub & Hnd & Hset & Hin)] using rev_ind.
  { simpl. split_and!; [done|constructor|done|].
    intros k. split; [by intros ?%not_elem_of_empty|]. by intros [_ ?%elem_of_nil]. }
  rewrite foldl_snoc. set (acc := foldl key_step ([], ∅) keys) in *.
  unfold key_step. destruct (origin_key o) as [k0|] eqn:Hkey.
  - case_bool_decide as Hfresh; simpl.
    + destruct Hfresh as [Hne Hnotin]. split_and!.
      * by apply sublist_app.
      * rewrite omap_app. simpl. rewrite Hkey. simpl.
        apply NoDup_app. split; [done|]. split; [|apply NoDup_singleton].
        intros k Hk ->%list_elem_of_singleton. apply Hnotin.
        rewrite Hset. by apply elem_of_list_to_set.
      * rewrite omap_app. simpl. rewrite Hkey. simpl.
        rewrite list_to_set_snoc_L, Hset. apply union_comm_L.
      * intros k. rewrite elem_of_union, elem_of_singleton, Hin, omap_app, elem_of_app.
        simpl. rewrite Hkey. simpl. rewrite list_elem_of_singleton.
        split; [intros [-> | [? ?]]; auto|]. intros [? [? | ?]]; auto.
    + split_and!; try done.
      * by apply sublist_inserts_r.
      * intros k. rewrite Hin, omap_app, elem_of_app. simpl. rewrite Hkey. simpl.
        rewrite list_elem_of_singleton. split; [intros [? ?]; auto|].
        intros [Hne [? | ->]]; [done|].
        apply Hin. destruct (decide (k0 ∈ acc.2)) as [Hk|Hk]; [done|].
        destruct Hfresh. done.
  - split_and!; try done.
    + by apply sublist_inserts_r.
    + intros k. rewrite Hin, omap_app, elem_of_app. simpl. rewrite Hkey. simpl.
      split; [intros [? ?]; auto|]. intros [? [?|?%elem_of_nil]]; done.
Qed.

Lemma last_word_complete_tutorial topic :
  last_word (topic +:+ " complete tutorial") = "tutorial".
Proof.
  unfold last_word.
  replace (topic +:+ " complete tutorial")
    with ((topic +:+ " complete") +:+ " " +:+ "tutorial")
    by (by rewrite string_app_assoc).
  by rewrite py_last_split_query.
Qed.

Lemma last_word_course_for_beginners topic :
  last_word (topic +:+ " course for beginners") = "beginners".
Proof.
  unfold last_word.
  replace (topic +:+ " course for beginners")
    with ((topic +:+ " course for") +:+ " " +:+ "beginners")
    by (by rewrite string_app_assoc).
  by rewrite py_last_split_query.
Qed.

Lemma all_events_keywords world topic ms o :
  o ∈ all_events world topic ms → keywords_allowed topic ms (origin_keywords topic o).
Proof.
  unfold all_events, planned_events. rewrite !elem_of_app.
  intros [[Ho|Ho]|Ho].
  - simpl in Ho. apply elem_of_cons in Ho as [->|Ho].
    { left. simpl. by rewrite last_word_complete_tutorial. }
    apply list_elem_of_singleton in Ho as ->.
    right; left. simpl. by rewrite last_word_course_for_beginners.
  - destruct (key_events_spec (path_keys ms)) as (Hsub & _).
    apply (elem_of_sublist _ _ _ Ho) in Hsub.
    apply elem_of_concat in Hsub as (l & Hl & Hol).
    apply list_elem_of_fmap in Hl as (m & -> & Hm).
    apply elem_of_cons in Hol as [->|Hol].
    + do 3 right; left. by exists m.
    + apply list_elem_of_fmap in Hol as (s & -> & Hs).
      do 4 right. by exists m, s.
  - unfold fill_events in Ho. case_bool_decide; [|by apply elem_of_nil in Ho].
    apply list_elem_of_singleton in Ho as ->. by do 2 right; left.
Qed.

Lemma final_recommendations_sublist l : final_recommendations l `sublist_of` l.
Proof.
  unfold final_recommendations. etrans; [apply sublist_take|].
  rewrite deduplicate_first_seen. apply first_seen_sublist.
Qed.

(** X5. The recommendations collected by one enhancement are the videos
    its calls returned, one recommendation per video with the video's title
    and url, in the order of the calls and, within a call, of the answer;
    the path gets their deduplicated first five when there is one, and
    keeps its list otherwise. *)
Theorem enhance_collects_answers world topic learning_path :
  ∃ path' st',
    enhance world topic learning_path = Ok (path', st') ∧
    rec_link <$> enhanced_recommendations st'
    = video_link <$> concat (imap (answer world) (calls st')) ∧
    youtube_recommendations path'
    = match final_recommendations (enhanced_recommendations st') with
      | [] => youtube_recommendations learning_path
      | final => VList (recommendation_value <$> final)
      end.
Proof.
  destruct (enhance_trace world topic learning_path)
    as (path' & st' & Hrun & (Hc & He & _) & Hpath).
  exists path', st'. split; [done|]. split.
  - rewrite He, Hc. apply collected_links.
  - rewrite Hpath. by destruct (final_recommendations _).
Qed.

Lemma snoc_eq_middle {A} (l pre suf : list A) (x o : A) :
  l ++ [x] = pre ++ o :: suf →
  (suf = [] ∧ pre = l ∧ o = x) ∨ ∃ suf', suf = suf' ++ [x] ∧ l = pre ++ o :: suf'.
Proof.
  destruct suf as [|y suf _] using rev_ind.
  - intros H. apply (app_inj_tail l pre x o) in H as [-> ->]. by left.
  - intros H. change (pre ++ o :: suf ++ [y]) with (pre ++ (o :: suf) ++ [y]) in H.
    rewrite app_assoc in H. apply app_inj_tail in H as [-> ->].
    right. by exists suf.
Qed.

(** The titles and subtopics searched are the first occurrences, in the
    loop's order, of the strings that are not empty. *)
Lemma key_events_first keys o :
  o ∈ (key_events keys).1
  ↔ ∃ pre suf k, keys = pre ++ o :: suf ∧ origin_key o = Some k ∧
                 k ≠ "" ∧ k ∉ omap origin_key pre.
Proof.
  induction keys as [|x keys IH] using rev_ind.
  { split; [by intros ?%elem_of_nil|].
    intros (pre & suf & k & H & _). by destruct pre. }
  destruct (key_events_spec keys) as (_ & _ & _ & Hin).
  assert (o ∈ (key_events keys).1 →
          ∃ pre suf k, keys ++ [x] = pre ++ o :: suf ∧ origin_key o = Some k ∧
                       k ≠ "" ∧ k ∉ omap origin_key pre) as Hold.
  { intros (pre & suf & k & -> & Hk & Hne & Hpre)%IH.
    exists pre, (suf ++ [x]), k. split; [|done]. by rewrite <- app_assoc. }
  assert (∀ pre suf, keys ++ [x] = pre ++ o :: suf → suf ≠ [] →
          ∀ k, origin_key o = Some k → k ≠ "" → k ∉ omap origin_key pre →
          o ∈ (key_events keys).1) as Hearlier.
  { intros pre suf Heq Hsuf k Hk Hne Hpre.
    apply snoc_eq_middle in Heq as [(-> & _)|(suf' & -> & ->)]; [done|].
    apply IH. by exists pre, suf', k. }
  unfold key_events in *. rewrite foldl_snoc.
  set (acc := foldl key_step ([], ∅) keys) in *.
  unfold key_step. destruct (origin_key x) as [k0|] eqn:Hkey.
  - case_bool_decide as Hfresh; simpl.
    + destruct Hfresh as [Hne Hnotin]. rewrite elem_of_app, list_elem_of_singleton.
      split.
      * intros [Ho | ->]; [by apply Hold|].
        exists keys, [], k0. split_and!; try done.
        intros Hk. apply Hnotin, Hin. done.
      * intros (pre & suf & k & Heq & Hk & Hk' & Hpre).
        destruct suf as [|y suf].
        -- apply snoc_eq_middle in Heq as [(_ & _ & ->)|(suf' & Hs & _)].
           ++ right. reflexivity.
           ++ by destruct suf'.
        -- left. by eapply Hearlier.
    + split; [done|].
      intros (pre & suf & k & Heq & Hk & Hk' & Hpre).
      destruct suf as [|y suf]; [|by eapply Hearlier].
      apply snoc_eq_middle in Heq as [(_ & -> & ->)|(suf' & Hs & _)];
        [|by destruct suf'].
      rewrite Hkey in Hk. injection Hk as ->.
      destruct Hpre.
      destruct (decide (k ∈ acc.2)) as [Hacc|Hacc]; [by apply Hin in Hacc as [_ ?]|].
      destruct Hfresh. done.
  - split; [done|].
    intros (pre & suf & k & Heq & Hk & Hk' & Hpre).
    destruct suf as [|y suf]; [|by eapply Hearlier].
    apply snoc_eq_middle in Heq as [(_ & -> & ->)|(suf' & Hs & _)];
      [|by destruct suf'].
    by rewrite Hkey in Hk.
Qed.

Lemma all_events_call_keywords world topic ms o :
  o ∈ all_events world topic ms → call_keywords topic ms o (origin_keywords topic o).
Proof.
  unfold all_events, planned_events. rewrite !elem_of_app.
  intros [[Ho|Ho]|Ho].
  - simpl in Ho. apply elem_of_cons in Ho as [->|Ho].
    { left. split; [done|]. simpl. by rewrite last_word_complete_tutorial. }
    apply list_elem_of_singleton in Ho as ->.
    right; left. split; [done|]. simpl. by rewrite last_word_course_for_beginners.
  - destruct (key_events_spec (path_keys ms)) as (Hsub & _).
    apply (elem_of_sublist _ _ _ Ho) in Hsub.
    apply elem_of_concat in Hsub as (l & Hl & Hol).
    apply list_elem_of_fmap in Hl as (m & -> & Hm).
    apply elem_of_cons in Hol as [->|Hol].
    + do 2 right; left. by exists m.
    + apply list_elem_of_fmap in Hol as (s & -> & Hs).
      do 3 right; left. by exists m, s.
  - unfold fill_events in Ho. case_bool_decide; [|by apply elem_of_nil in Ho].
    apply list_elem_of_singleton in Ho as ->. do 4 right. by eexists.
Qed.

(** X4. The calls of one enhancement are exactly: the first two topic
    queries, asking for 2; then one query asking for 1 for each title and
    subtopic in [keys]; then, when the videos returned so far are [n < 5],
    the fill query asking for [5 - n], and no other call. [keys] is what
    the loop over the titles of the first three modules and their first
    two subtopics keeps, going through them in the order of the path with
    the set of the strings searched so far: a title or subtopic is kept
    when it is not the empty string and no earlier title or subtopic is
    the same string. The strings searched are those left in
    [searched_keywords]. *)
Theorem enhance_calls world topic learning_path :
  ∃ path' st',
    enhance world topic learning_path = Ok (path', st') ∧
    let keys := (key_events (path_keys (modules learning_path))).1 in
    let earlier := (TopicQuery <$> take 2 (topic_queries topic)) ++ keys in
    let n := length (concat (imap (answer world) (origin_call topic <$> earlier))) in
    calls st'
    = (origin_call topic <$> earlier)
      ++ (if bool_decide (n < 5)%nat
          then [(topic +:+ " advanced tutorial", 5 - Z.of_nat n)] else []) ∧
    (∀ o, o ∈ keys
          ↔ ∃ pre suf k, path_keys (modules learning_path) = pre ++ o :: suf ∧
                         origin_key o = Some k ∧ k ≠ "" ∧ k ∉ omap origin_key pre) ∧
    keys `sublist_of` path_keys (modules learning_path) ∧
    NoDup (omap origin_key keys) ∧
    (∀ k, k ∈ omap origin_key keys
          ↔ k ≠ "" ∧ k ∈ omap origin_key (path_keys (modules learning_path))) ∧
    searched_keywords st' = list_to_set (omap origin_key keys).
Proof.
  destruct (enhance_trace world topic learning_path)
    as (path' & st' & Hrun & (Hc & _ & Hs) & _).
  destruct (key_events_spec (path_keys (modules learning_path)))
    as (Hsub & Hnd & Hset & Hin).
  exists path', st'.
  split; [done|]. simpl. split_and!; try done.
  - rewrite Hc. unfold all_events. rewrite fmap_app. f_equal.
    unfold fill_events.
    assert (length (collected world topic (planned_events topic (modules learning_path)))
            = length (concat (imap (answer world)
                (origin_call topic <$> planned_events topic (modules learning_path)))))
      as Hlen.
    { rewrite <- (length_fmap rec_link), collected_links. by rewrite length_fmap. }
    rewrite Hlen. unfold planned_events. simpl. by case_bool_decide.
  - apply key_events_first.
  - intros k. rewrite <- Hin, Hset. by rewrite elem_of_list_to_set.
  - by rewrite Hs.
Qed.

(** X4 on a path whose second module is titled as the subtopic of the
    first: the string is searched once, as the subtopic. *)
Lemma enhance_calls_witness :
  ∃ path' st',
    enhance no_key_world "Rust" repeated_key_path = Ok (path', st') ∧
    calls st' = [("Rust complete tutorial", 2); ("Rust course for beginners", 2);
                 ("A explained", 1); ("B Rust tutorial", 1);
                 ("Rust advanced tutorial", 5)].
Proof.
  destruct (enhance_calls no_key_world "Rust" repeated_key_path)
    as (path' & st' & Hrun & Hcalls & _).
  exists path', st'. split; [exact Hrun|].
  rewrite Hcalls. vm_compute. reflexivity.
Defined.

(** X6. The recommendations collected are, call by call, the videos the
    call returned, each with the keywords of that call: for the query
    ["{topic} complete tutorial"] the topic in lower case, ["tutorial"]
    and ["tutorial"]; for ["{topic} course for beginners"] the topic in
    lower case, ["beginners"] and ["tutorial"]; for the query of a module
    title the topic and the title in lower case and ["module"]; for the
    query of a subtopic the topic and the subtopic in lower case and
    ["concept"]; for the fill query the topic in lower case, ["advanced"]
    and ["tutorial"]. So every recommendation collected, and every one of
    the final list, has one of these keyword lists. *)
Theorem enhance_keywords world topic learning_path :
  ∃ path' st',
    enhance world topic learning_path = Ok (path', st') ∧
    let events := all_events world topic (modules learning_path) in
    calls st' = origin_call topic <$> events ∧
    enhanced_recommendations st'
    = concat (imap (λ i o,
                (λ video, {| rec_title := video_title video;
                             rec_url := video_url video;
                             rec_keywords := origin_keywords topic o |})
                <$> answer world i (origin_call topic o)) events) ∧
    Forall (λ o, call_keywords topic (modules learning_path) o (origin_keywords topic o))
      events ∧
    Forall (λ r, keywords_allowed topic (modules learning_path) (rec_keywords r))
      (enhanced_recommendations st') ∧
    Forall (λ r, keywords_allowed topic (modules learning_path) (rec_keywords r))
      (final_recommendations (enhanced_recommendations st')).
Proof.
  destruct (enhance_trace world topic learning_path)
    as (path' & st' & Hrun & (Hc & He & _) & _).
  exists path', st'. split; [done|]. simpl.
  assert (Forall (λ r, keywords_allowed topic (modules learning_path) (rec_keywords r))
            (enhanced_recommendations st')) as Hall.
  { apply Forall_forall. intros r Hr. rewrite He in Hr.
    apply elem_of_collected in Hr as (o & Ho & ->).
    by eapply all_events_keywords. }
  split_and!; try done.
  - apply Forall_forall. intros o Ho. by eapply all_events_call_keywords.
  - apply Forall_forall. intros r Hr. rewrite Forall_forall in Hall. apply Hall.
    eapply elem_of_sublist; [done|]. apply final_recommendations_sublist.
Qed.

Lemma ensure_key_keeps k n fallback d :
  sized_at_least d k n → ensure_key k n fallback (VDict d) = Ok (VDict d).
Proof.
  intros (v & len & Hget & Hlen & Hle).
  unfold ensure_key, missing_or_short. simpl. rewrite Hget. simpl.
  rewrite Hlen. simpl. by rewrite bool_decide_eq_false_2 by lia.
Qed.

(** Whatever one repair returns, its argument was a dictionary, and the
    result is a dictionary with enough entries under the key. *)
Lemma ensure_key_ok k n fallback m content out :
  py_len fallback = Ok m → (n ≤ m)%nat →
  ensure_key k n fallback content = Ok out →
  ∃ d d', content = VDict d ∧ out = VDict d' ∧
    sized_at_least d' k n ∧
    (∀ k', k' ≠ k → dict_get k' d' = dict_get k' d).
Proof.
  intros Hm Hnm. unfold ensure_key, missing_or_short.
  destruct content as [| | |s|l|d]; simpl; try done.
  - destruct (is_substring k s); simpl; done.
  - destruct (existsb _ l); simpl; done.
  - destruct (dict_get k d) as [v|] eqn:Hget; simpl.
    + destruct (py_len v) as [len|e] eqn:Hlen; simpl; [|done].
      case_bool_decide; simpl; intros Hout; unfold mret, result_ret in *; simplify_eq.
      * eexists d, _. split_and!; try done.
        -- exists fallback, m. by rewrite dict_get_set_eq.
        -- intros k' Hne. by apply dict_get_set_ne.
      * exists d, d. split_and!; try done. exists v, len. split_and!; try done. lia.
    + intros Hout; simplify_eq. eexists d, _. split_and!; try done.
      * exists fallback, m. by rewrite dict_get_set_eq.
      * intros k' Hne. by apply dict_get_set_ne.
Qed.

Lemma sized_at_least_other d d' k n :
  dict_get k d' = dict_get k d → sized_at_least d k n → sized_at_least d' k n.
Proof. unfold sized_at_least. by intros ->. Qed.

Lemma ensure_required_items_ok topic content out :
  ensure_required_items topic content = Ok out →
  ∃ d d', content = VDict d ∧ out = VDict d' ∧ well_sized d' ∧
    ∀ k, k ≠ "modules" → k ≠ "youtube_recommendations" → k ≠ "quiz_questions" →
         dict_get k d' = dict_get k d.
Proof.
  unfold ensure_required_items.
  rewrite ensure_modules_key.
  destruct (ensure_key "modules" _ _ content) as [c1|] eqn:H1; simpl; [|done].
  rewrite ensure_youtube_recommendations_key.
  destruct (ensure_key "youtube_recommendations" _ _ c1) as [c2|] eqn:H2; simpl; [|done].
  rewrite ensure_quiz_questions_key. intros H3.
  apply (ensure_key_ok _ _ _ 3%nat) in H1 as (d & d1 & -> & -> & S1 & O1);
    [|reflexivity|lia].
  apply (ensure_key_ok _ _ _ 5%nat) in H2 as (d1' & d2 & ? & -> & S2 & O2);
    [|reflexivity|lia].
  apply (ensure_key_ok _ _ _ 10%nat) in H3 as (d2' & d3 & ? & -> & S3 & O3);
    [|reflexivity|lia].
  simplify_eq. exists d, d3. split_and!; try done.
  - split_and!; [|by eapply sized_at_least_other; [apply O3|]|done].
    eapply sized_at_least_other; [by apply O3|].
    eapply sized_at_least_other; [by apply O2|]. done.
  - intros k ? ? ?. rewrite O3, O2, O1; done.
Qed.

Lemma well_sized_kept topic d :
  well_sized d → ensure_required_items topic (VDict d) = Ok (VDict d).
Proof.
  intros (Hm & Hr & Hq). unfold ensure_required_items.
  rewrite ensure_modules_key, (ensure_key_keeps _ _ _ _ Hm). simpl.
  rewrite ensure_youtube_recommendations_key, (ensure_key_keeps _ _ _ _ Hr). simpl.
  by rewrite ensure_quiz_questions_key, (ensure_key_keeps _ _ _ _ Hq).
Qed.

Lemma error_default_well_sized topic :
  ∃ d, error_default topic = VDict d ∧ well_sized d.
Proof.
  eexists. split; [reflexivity|].
  split_and!; eexists _, _; (split; [reflexivity|]); (split; [reflexivity|]); simpl; lia.
Qed.

Lemma ensure_key_repairs k n fallback d :
  lacks d k n →
  ∃ d', ensure_key k n fallback (VDict d) = Ok (VDict d') ∧
        dict_get k d' = Some fallback ∧
        ∀ k', k' ≠ k → dict_get k' d' = dict_get k' d.
Proof.
  intros Hlack. eexists. split; [by apply ensure_key_lacks|]. split.
  - apply dict_get_set_eq.
  - intros k' Hne. by apply dict_get_set_ne.
Qed.

Lemma lacks_or_sized d k n :
  absent_or_sized d k → lacks d k n ∨ sized_at_least d k n.
Proof.
  intros [Hnone|(v & len & Hget & Hlen)]; [by left; left|].
  destruct (decide (len < n)%nat).
  - left. right. by exists v, len.
  - right. exists v, len. split_and!; try done. lia.
Qed.

Lemma lacks_not_sized d k n : lacks d k n → sized_at_least d k n → False.
Proof.
  intros [Hnone|(v & len & Hget & Hlen & Hlt)] (v' & len' & Hget' & Hlen' & Hle).
  - by rewrite Hnone in Hget'.
  - rewrite Hget in Hget'. injection Hget' as <-. rewrite Hlen in Hlen'.
    injection Hlen' as <-. lia.
Qed.

(** One repair on a dictionary: the fallback when the field is missing or
    short, the field as it is otherwise; the other keys as they are. *)
Lemma ensure_key_spec k n fallback d :
  absent_or_sized d k →
  ∃ d', ensure_key k n fallback (VDict d) = Ok (VDict d') ∧
    (lacks d k n → dict_get k d' = Some fallback) ∧
    (sized_at_least d k n → d' = d) ∧
    (∀ k', k' ≠ k → dict_get k' d' = dict_get k' d).
Proof.
  intros Habs. destruct (lacks_or_sized d k n Habs) as [Hlack|Hsized].
  - destruct (ensure_key_repairs k n fallback d Hlack) as (d' & Hrun & Hget & Hother).
    exists d'. split_and!; try done.
    intros Hsized. destruct (lacks_not_sized _ _ _ Hlack Hsized).
  - exists d. split_and!; try done.
    + by apply ensure_key_keeps.
    + intros Hlack. destruct (lacks_not_sized _ _ _ Hlack Hsized).
Qed.

Section GeneratorTotal.

Variable json_loads : string → result value.

Lemma generate_learning_path_content_cases env topic :
(∃ e, generate_body json_loads env topic = Raise e ∧
      generate_learning_path_content json_loads env topic = Ok (error_default topic)) ∨
(∃ out, generate_body json_loads env topic = Ok out ∧
        generate_learning_path_content json_loads env topic = Ok out).
Proof.
unfold generate_learning_path_content.
destruct (generate_body json_loads env topic) as [out|e] eqn:Hbody; simpl.
- right. by exists out.
- left. exists e. split; [done|]. by destruct e.
Qed.

Lemma generate_body_ok env topic out :
generate_body json_loads env topic = Ok out →
∃ text content,
  truthy_opt (GOOGLE_API_KEY env) = true ∧
  generate_content env = Ok text ∧
  parse_response json_loads topic text = Ok content ∧
  ensure_required_items topic content = Ok out.
Proof.
unfold generate_body, configure_gemini.
destruct (truthy_opt (GOOGLE_API_KEY env)); simpl; [|done].
destruct (generate_content env) as [text|]; simpl; [|done].
destruct (parse_response json_loads topic text) as [content|] eqn:Hparse; simpl; [|done].
intros Hout. by exists text, content.
Qed.

Lemma generate_well_sized env topic :
∃ d, generate_learning_path_content json_loads env topic = Ok (VDict d) ∧ well_sized d.
Proof.
destruct (generate_learning_path_content_cases env topic)
  as [(e & _ & ->)|(out & Hbody & ->)].
- destruct (error_default_well_sized topic) as (d & -> & Hd). by exists d.
- apply generate_body_ok in Hbody as (text & content & _ & _ & _ & Hens).
  apply ensure_required_items_ok in Hens as (d & d' & _ & -> & Hd & _). by exists d'.
Qed.

End GeneratorTotal.

(** X11. Whatever the environment, the model's answer and [json.loads]
    do, [generate_learning_path_content] raises nothing and returns a
    dictionary whose [modules], [youtube_recommendations] and
    [quiz_questions] are present and have at least 2, 3 and 5 entries. *)
Theorem generate_learning_path_content_well_sized json_loads env topic :
  ∃ d, generate_learning_path_content json_loads env topic = Ok (VDict d) ∧
       well_sized d.
Proof.
  destruct (generate_learning_path_content_cases json_loads env topic)
    as [(e & _ & ->)|(out & Hbody & ->)].
  - destruct (error_default_well_sized topic) as (d & -> & Hd). by exists d.
  - apply generate_body_ok in Hbody as (text & content & _ & _ & _ & Hens).
    apply ensure_required_items_ok in Hens as (d & d' & _ & -> & Hd & _).
    by exists d'.
Qed.

(** X12. The failure fallback (the one content of the timeout and of the
    generic handler) is returned when the API key is missing or empty,
    when the model call raises, when parsing raises (the extracted span is
    not JSON, say), and when the parsed answer is JSON but not an object:
    an array, a string, a number, a boolean or null. *)
Theorem generate_learning_path_content_fallback json_loads env topic :
  timeout_default topic = error_default topic ∧
  (truthy_opt (GOOGLE_API_KEY env) = false →
   generate_learning_path_content json_loads env topic = Ok (error_default topic)) ∧
  (∀ e, generate_content env = Raise e →
   generate_learning_path_content json_loads env topic = Ok (error_default topic)) ∧
  (∀ text e,
     truthy_opt (GOOGLE_API_KEY env) = true →
     generate_content env = Ok text →
     parse_response json_loads topic text = Raise e →
     generate_learning_path_content json_loads env topic = Ok (error_default topic)) ∧
  (∀ text content,
     truthy_opt (GOOGLE_API_KEY env) = true →
     generate_content env = Ok text →
     parse_response json_loads topic text = Ok content →
     (∀ d, content ≠ VDict d) →
     generate_learning_path_content json_loads env topic = Ok (error_default topic)).
Proof.
  split; [reflexivity|].
  assert (∀ e, generate_body json_loads env topic = Raise e →
    generate_learning_path_content json_loads env topic = Ok (error_default topic))
    as Hfail.
  { intros e He. rewrite (generate_from_failure _ _ _ _ He). by destruct e. }
  split_and!.
  - intros Hkey. apply (Hfail ValueError).
    unfold generate_body, configure_gemini. by rewrite Hkey.
  - intros e He. destruct (truthy_opt (GOOGLE_API_KEY env)) eqn:Hkey.
    + apply (Hfail e). unfold generate_body, configure_gemini. rewrite Hkey. simpl.
      by rewrite He.
    + apply (Hfail ValueError). unfold generate_body, configure_gemini. by rewrite Hkey.
  - intros text e Hkey Htext Hparse. apply (Hfail e).
    unfold generate_body, configure_gemini. rewrite Hkey. simpl. rewrite Htext. simpl.
    by rewrite Hparse.
  - intros text content Hkey Htext Hparse Hnot.
    destruct (ensure_required_items topic content) as [out|e] eqn:Hens.
    + apply ensure_required_items_ok in Hens as (d & _ & -> & _). by destruct (Hnot d).
    + apply (Hfail e).
      unfold generate_body, configure_gemini. rewrite Hkey. simpl. rewrite Htext. simpl.
      rewrite Hparse. simpl. done.
Qed.

(** X13. The self-repair treats the three fields independently. On a
    dictionary whose three fields, where present, have a length: a field
    that is missing or short (fewer than 2 modules, 3 recommendations, 5
    quiz questions) is set to its fallback, of 3, 5 and 10 entries; a field
    that is long enough is kept as it is; every other key of the dictionary
    is kept; a dictionary with three long enough fields is returned
    unchanged. *)
Theorem ensure_required_items_by_field topic d :
  absent_or_sized d "modules" →
  absent_or_sized d "youtube_recommendations" →
  absent_or_sized d "quiz_questions" →
  ∃ d', ensure_required_items topic (VDict d) = Ok (VDict d') ∧
    (lacks d "modules" 2 → dict_get "modules" d' = Some (repair_modules topic)) ∧
    (sized_at_least d "modules" 2 → dict_get "modules" d' = dict_get "modules" d) ∧
    (lacks d "youtube_recommendations" 3 →
       dict_get "youtube_recommendations" d'
       = Some (repair_youtube_recommendations topic)) ∧
    (sized_at_least d "youtube_recommendations" 3 →
       dict_get "youtube_recommendations" d' = dict_get "youtube_recommendations" d) ∧
    (lacks d "quiz_questions" 5 →
       dict_get "quiz_questions" d' = Some (repair_quiz_questions topic)) ∧
    (sized_at_least d "quiz_questions" 5 →
       dict_get "quiz_questions" d' = dict_get "quiz_questions" d) ∧
    (∀ k, k ≠ "modules" → k ≠ "youtube_recommendations" → k ≠ "quiz_questions" →
          dict_get k d' = dict_get k d) ∧
    (well_sized d → d' = d) ∧
    py_len (repair_youtube_recommendations topic) = Ok 5%nat ∧
    py_len (repair_quiz_questions topic) = Ok 10%nat.
Proof.
  intros Hm Hr Hq.
  destruct (ensure_key_spec "modules" 2 (repair_modules topic) d Hm)
    as (d1 & H1 & L1 & S1 & O1).
  destruct (ensure_key_spec "youtube_recommendations" 3
              (repair_youtube_recommendations topic) d1)
    as (d2 & H2 & L2 & S2 & O2).
  { eapply absent_or_sized_other; [|done]. by apply O1. }
  destruct (ensure_key_spec "quiz_questions" 5 (repair_quiz_questions topic) d2)
    as (d3 & H3 & L3 & S3 & O3).
  { eapply absent_or_sized_other; [|done]. rewrite O2, O1; done. }
  exists d3. split_and!; try done.
  - unfold ensure_required_items.
    rewrite ensure_modules_key, H1. simpl.
    rewrite ensure_youtube_recommendations_key, H2. simpl.
    by rewrite ensure_quiz_questions_key.
  - intros Hl. rewrite O3, O2 by done. by apply L1.
  - intros Hs. rewrite O3, O2 by done. by rewrite (S1 Hs).
  - intros Hl. rewrite O3 by done. apply L2. eapply lacks_other; [|done]. by apply O1.
  - intros Hs. rewrite O3 by done.
    assert (sized_at_least d1 "youtube_recommendations" 3) as Hs1.
    { eapply sized_at_least_other; [|done]. by apply O1. }
    rewrite (S2 Hs1). by apply O1.
  - intros Hl. apply L3. eapply lacks_other; [|done]. rewrite O2, O1; done.
  - intros Hs.
    assert (sized_at_least d2 "quiz_questions" 5) as Hs2.
    { eapply sized_at_least_other; [|done]. rewrite O2, O1; done. }
    rewrite (S3 Hs2). rewrite O2, O1; done.
  - intros k ? ? ?. rewrite O3, O2, O1; done.
  - intros (Sm & Sr & Sq). specialize (S1 Sm). subst d1.
    specialize (S2 Sr). subst d2. by apply S3.
Qed.

(** X13 on an output with 2 modules, 1 recommendation, no quiz and a key of its own. *)
Lemma ensure_required_items_by_field_witness :
  ∃ d', ensure_required_items "Rust" (VDict partial_output) = Ok (VDict d') ∧
        dict_get "modules" d' = dict_get "modules" partial_output ∧
        dict_get "youtube_recommendations" d'
        = Some (repair_youtube_recommendations "Rust") ∧
        dict_get "quiz_questions" d' = Some (repair_quiz_questions "Rust") ∧
        dict_get "level" d' = Some (VStr "beginner").
Proof.
  assert (absent_or_sized partial_output "modules") as Hm.
  { right. eexists _, _. split; reflexivity. }
  assert (absent_or_sized partial_output "youtube_recommendations") as Hr.
  { right. eexists _, _. split; reflexivity. }
  assert (absent_or_sized partial_output "quiz_questions") as Hq.
  { by left. }
  destruct (ensure_required_items_by_field "Rust" partial_output Hm Hr Hq)
    as (d' & Hrun & _ & Sm & Lr & _ & Lq & _ & Hother & _).
  exists d'. split_and!.
  - exact Hrun.
  - apply Sm. eexists _, 2%nat. split; [reflexivity|]. split; [reflexivity|]. lia.
  - apply Lr. right. eexists _, 1%nat. split; [reflexivity|]. split; [reflexivity|]. lia.
  - apply Lq. by left.
  - by rewrite Hother.
Defined.

(** X14. The self-repair is idempotent: applied to a content it has
    returned, it returns that content. *)
Theorem ensure_required_items_idempotent topic content out :
  ensure_required_items topic content = Ok out →
  ensure_required_items topic out = Ok out.
Proof.
  intros (d & d' & _ & -> & Hd & _)%ensure_required_items_ok.
  by apply well_sized_kept.
Qed.

(** X14 on the same output. *)
Lemma ensure_required_items_idempotent_witness :
  ∃ out, ensure_required_items "Rust" (VDict partial_output) = Ok out ∧
         ensure_required_items "Rust" out = Ok out.
Proof.
  eexists. split; [reflexivity|].
  apply (ensure_required_items_idempotent "Rust" (VDict partial_output)).
  reflexivity.
Defined.

(** X12 on an answer that is a JSON array. *)
Lemma generate_learning_path_content_fallback_witness :
  generate_learning_path_content array_json_loads array_env "Rust"
  = Ok (error_default "Rust").
Proof.
  apply (proj2 (proj2 (proj2 (proj2
           (generate_learning_path_content_fallback array_json_loads array_env "Rust"))))
           "[1, 2]" (VList [VInt 1; VInt 2])).
  - reflexivity.
  - reflexivity.
  - reflexivity.
  - intros d. discriminate.
Defined.

Lemma occurs_app c s t : occurs c (s +:+ t) = occurs c s || occurs c t.
Proof.
  induction s as [|a s IH]; [done|]. rewrite string_app_cons. simpl.
  by rewrite IH, orb_assoc.
Qed.

Lemma from_first_open_None s : from_first_open s = None → occurs "{" s = false.
Proof.
  induction s as [|c s IH]; simpl; [done|].
  case_bool_decide; [done|]. simpl. apply IH.
Qed.

Lemma from_first_open_Some s r :
  from_first_open s = Some r →
  ∃ pre, s = pre +:+ String "{" r ∧ occurs "{" pre = false.
Proof.
  revert r; induction s as [|c s IH]; intros r; simpl; [done|].
  case_bool_decide as Hc.
  - intros ?; simplify_eq. by exists "".
  - intros (pre & -> & Hpre)%IH. exists (String c pre). split; [done|].
    simpl. by rewrite bool_decide_eq_false_2.
Qed.

Lemma from_first_open_app pre r :
  occurs "{" pre = false → from_first_open (pre +:+ String "{" r) = Some r.
Proof.
  induction pre as [|c pre IH]; [done|].
  rewrite string_app_cons. simpl. intros [Hc Hpre]%orb_false_elim.
  rewrite Hc. by apply IH.
Qed.

(** The first brace is found also when others precede the one pointed
    at; what follows it then still holds what followed that one. *)
Lemma from_first_open_any pre rest :
  ∃ r, from_first_open (pre +:+ String "{" rest) = Some r ∧
       (occurs "}" rest = true → occurs "}" r = true).
Proof.
  induction pre as [|c pre (r & IH & Hr)].
  - exists rest. by split.
  - rewrite string_app_cons. simpl. case_bool_decide.
    + eexists. split; [done|]. intros Hrest.
      rewrite occurs_app. simpl. rewrite Hrest. by rewrite !orb_true_r.
    + by exists r.
Qed.

Lemma upto_last_close_None s : upto_last_close s = None → occurs "}" s = false.
Proof.
  induction s as [|c s IH]; simpl; [done|].
  destruct (upto_last_close s); [done|].
  case_bool_decide; [done|]. intros _. simpl. by apply IH.
Qed.

Lemma upto_last_close_Some s p :
  upto_last_close s = Some p →
  ∃ mid post, p = mid +:+ "}" ∧ s = p +:+ post ∧ occurs "}" post = false.
Proof.
  revert p; induction s as [|c s IH]; intros p; simpl; [done|].
  destruct (upto_last_close s) as [p'|] eqn:Hs.
  - intros ?; simplify_eq. destruct (IH p' eq_refl) as (mid & post & -> & -> & Hpost).
    exists (String c mid), post. by rewrite !string_app_cons.
  - case_bool_decide as Hc; [|done]. intros ?; simplify_eq.
    exists "", s. split_and!; try done. by apply upto_last_close_None.
Qed.

Lemma upto_last_close_app mid post :
  occurs "}" post = false →
  upto_last_close (mid +:+ String "}" post) = Some (mid +:+ "}").
Proof.
  intros Hpost.
  assert (upto_last_close post = None) as Hnone.
  { clear mid. induction post as [|c post IH]; simpl in *; [done|].
    apply orb_false_elim in Hpost as [Hc Hpost]. rewrite (IH Hpost). by rewrite Hc. }
  induction mid as [|c mid IH].
  - change ("" +:+ String "}" post) with (String "}" post). simpl.
    by rewrite Hnone.
  - rewrite !string_app_cons. simpl. by rewrite IH.
Qed.

Lemma json_match_Some text span :
  json_match text = Some span →
  ∃ pre mid post,
    text = pre +:+ span +:+ post ∧ span = "{" +:+ mid +:+ "}" ∧
    occurs "{" pre = false ∧ occurs "}" post = false.
Proof.
  unfold json_match.
  destruct (from_first_open text) as [rest|] eqn:Hopen; simpl; [|done].
  destruct (upto_last_close rest) as [p|] eqn:Hclose; simpl; [|done].
  intros ?; simplify_eq.
  apply from_first_open_Some in Hopen as (pre & -> & Hpre).
  apply upto_last_close_Some in Hclose as (mid & post & -> & -> & Hpost).
  exists pre, mid, post. split_and!; try done.
Qed.

(** X15. The extraction [re.search(r'\{.*\}', text, re.DOTALL)] takes the
    span from the first opening brace of the text to its last closing
    brace: it finds nothing exactly when no opening brace of the text is
    followed by a closing one, and applied to a span it has found it finds
    that span again. *)
Theorem json_match_first_to_last :
  (∀ pre mid post,
     occurs "{" pre = false → occurs "}" post = false →
     json_match (pre +:+ "{" +:+ mid +:+ "}" +:+ post) = Some ("{" +:+ mid +:+ "}")) ∧
  (∀ text span,
     json_match text = Some span →
     ∃ pre mid post,
       text = pre +:+ span +:+ post ∧ span = "{" +:+ mid +:+ "}" ∧
       occurs "{" pre = false ∧ occurs "}" post = false) ∧
  (∀ text,
     json_match text = None ↔
     ∀ pre mid post, text ≠ pre +:+ "{" +:+ mid +:+ "}" +:+ post) ∧
  (∀ text span, json_match text = Some span → json_match span = Some span).
Proof.
  assert (∀ pre mid post,
     occurs "{" pre = false → occurs "}" post = false →
     json_match (pre +:+ "{" +:+ mid +:+ "}" +:+ post) = Some ("{" +:+ mid +:+ "}"))
    as Hforward.
  { intros pre mid post Hpre Hpost. unfold json_match.
    change (pre +:+ "{" +:+ mid +:+ "}" +:+ post)
      with (pre +:+ String "{" (mid +:+ String "}" post)).
    rewrite (from_first_open_app _ _ Hpre). simpl.
    by rewrite (upto_last_close_app _ _ Hpost). }
  split_and!.
  - exact Hforward.
  - apply json_match_Some.
  - intros text. split.
    + intros Hnone pre mid post ->.
      destruct (from_first_open_any pre (mid +:+ String "}" post)) as (r & Hopen & Hr).
      unfold json_match in Hnone.
      change (pre +:+ "{" +:+ mid +:+ "}" +:+ post)
        with (pre +:+ String "{" (mid +:+ String "}" post)) in Hnone.
      rewrite Hopen in Hnone. simpl in Hnone.
      destruct (upto_last_close r) as [p|] eqn:Hclose; [done|].
      apply upto_last_close_None in Hclose. rewrite Hr in Hclose; [done|].
      rewrite occurs_app. simpl. by rewrite orb_true_r.
    + intros Hno. destruct (json_match text) as [span|] eqn:Hmatch; [|done].
      apply json_match_Some in Hmatch as (pre & mid & post & -> & -> & _).
      destruct (Hno pre mid post).
      by rewrite !string_app_assoc.
  - intros text span (pre & mid & post & _ & -> & _)%json_match_Some.
    apply (Hforward "" mid ""); done.
Qed.

Lemma py_len_truthy v n : py_len v = Ok n → (1 ≤ n)%nat → py_truthy v = true.
Proof.
  destruct v as [| | |s|l|d]; simpl; try done; intros ? Hn; simplify_eq.
  - destruct s; simpl in *; [lia|done].
  - destruct l; simpl in *; [lia|done].
  - destruct d; simpl in *; [lia|done].
Qed.

Lemma decode_modules_length v ms :
  decode_modules v = Some ms → py_len v = Ok (length ms).
Proof.
  destruct v as [| | | |l|]; simpl; try done.
  intros H%length_mapM. by rewrite H.
Qed.

(** ** The enhancer on modules that fit the schema *)

Lemma typed_ret {A} (a : A) ds : typed (mret a) ds = (mret a : Dyn A) ds.
Proof. by destruct ds. Qed.

Lemma typed_bind {A B} (m : Enh A) (f : A → Enh B) ds :
  typed (m ≫= f) ds = ((typed m ≫= λ a, typed (f a)) : Dyn B) ds.
Proof.
  destruct ds as [st nums]. unfold typed, mbind, Dyn_bind, Enh_bind. simpl.
  by destruct (m st) as [[a st']|e].
Qed.

Lemma dyn_bind_ext {A B} (m m' : Dyn A) (f g : A → Dyn B) ds :
  m ds = m' ds → (∀ a ds', f a ds' = g a ds') →
  ((m ≫= f) : Dyn B) ds = ((m' ≫= g) : Dyn B) ds.
Proof.
  intros Hm Hfg. unfold mbind, Dyn_bind. rewrite Hm.
  by destruct (m' ds) as [[a ds']|e].
Qed.

Lemma dyn_for_each_typed {A B} (R : A → B → Prop) (body : A → Dyn unit)
    (body' : B → Enh unit) xs ys :
  Forall2 R xs ys →
  (∀ x y ds, R x y → body x ds = typed (body' y) ds) →
  ∀ ds, dyn_for_each xs body ds = typed (for_each ys body') ds.
Proof.
  intros Hxs Hbody. induction Hxs as [|x y xs ys Hxy _ IH]; intros ds; simpl.
  - by rewrite typed_ret.
  - rewrite typed_bind. apply dyn_bind_ext; [by apply Hbody|]. intros _. apply IH.
Qed.

Lemma dyn_for_each_same {A} (body : A → Dyn unit) (body' : A → Enh unit) xs :
  (∀ x ds, body x ds = typed (body' x) ds) →
  ∀ ds, dyn_for_each xs body ds = typed (for_each xs body') ds.
Proof.
  intros Hbody. apply (dyn_for_each_typed eq).
  - induction xs; by constructor.
  - by intros x ? ds <-.
Qed.

Lemma dyn_when_typed b (m : Dyn unit) (m' : Enh unit) ds :
  (b = true → m ds = typed m' ds) → dyn_when b m ds = typed (when b m') ds.
Proof. destruct b; simpl; [by auto|]. intros _. by rewrite typed_ret. Qed.

Lemma typed_lift_ok {A B} (a : A) (f : A → Dyn B) ds :
  ((typed (lift (Ok a)) ≫= f) : Dyn B) ds = f a ds.
Proof. by destruct ds. Qed.

Lemma get_dyn_state_bind {B} (f : DynState → Dyn B) ds :
  ((get_dyn_state ≫= f) : Dyn B) ds = f ds ds.
Proof. done. Qed.

Lemma typed_get_state {B} (f : EnhancerState → Enh B) ds :
  typed (get_state ≫= f) ds = typed (f (typed_state ds)) ds.
Proof. by destruct ds. Qed.

Lemma mapM_decode_string l subs :
  mapM decode_string l = Some subs → l = VStr <$> subs.
Proof.
  intros H%mapM_Some. induction H as [|v s l subs Hv _ IH]; [done|].
  destruct v; try done. simpl in Hv. injection Hv as ->. simpl. by rewrite IH.
Qed.

Section DynTyped.

Variable world : nat → Env.

Variable topic : string.

(** A string key: the step of the code read at any shape is the step
    read at strings. *)
Lemma search_key_typed (queries : string → list string) (kind : string) s ds :
dyn_when (fresh_key s (typed_state ds))
  (dyn_for_each (take 1 (queries (py_str (VStr s)))) (λ query,
     videos ← typed (search world query 1);
     dyn_for_each videos (λ video,
       lowered ← typed (lift (py_lower (VStr s)));
       typed (append_recommendation
                {| rec_title := video_title video;
                   rec_url := video_url video;
                   rec_keywords := [lower topic; lowered; kind] |}));;
     mark_value (VStr s))) ds
= typed (when (fresh_key s (typed_state ds))
          (for_each (take 1 (queries s)) (λ query,
             videos ← search world query 1;
             for_each videos (λ video,
               append_recommendation
                 {| rec_title := video_title video;
                    rec_url := video_url video;
                    rec_keywords := [lower topic; lower s; kind] |});;
             mark_searched s))) ds.
Proof.
apply dyn_when_typed. intros _.
apply dyn_for_each_same.
intros query ds'. rewrite typed_bind.
apply dyn_bind_ext; [done|]. intros videos ds''.
rewrite typed_bind. apply dyn_bind_ext; [|done].
apply dyn_for_each_same.
intros video ds3.
change (py_lower (VStr s)) with (Ok (lower s)). by rewrite typed_lift_ok.
Qed.

Lemma search_module_dyn_typed v m ds :
decode_module v = Some m →
search_module_dyn world topic v ds = typed (search_module world topic m) ds.
Proof.
destruct v as [| | | | |d]; try done. simpl.
destruct (from_option id (VStr "") (dict_get "title" d)) as [| | |t| |] eqn:Ht;
  simpl; try done.
destruct (from_option id (VList []) (dict_get "subtopics" d))
  as [| | | |l|] eqn:Hs; simpl; try done.
destruct (mapM decode_string l) as [subs|] eqn:Hl; simpl; [|done].
intros Hm. injection Hm as <-.
apply mapM_decode_string in Hl as ->.
unfold search_module_dyn, search_module. simpl title. simpl subtopics.
unfold py_get. rewrite Ht, Hs.
rewrite typed_lift_ok, get_dyn_state_bind.
change (fresh_value (VStr t) ds) with (Ok (fresh_key t (typed_state ds))).
rewrite typed_lift_ok.
rewrite typed_get_state, typed_bind.
apply dyn_bind_ext; [apply (search_key_typed (module_queries topic) "module" t)|].
intros _ ds'. rewrite typed_lift_ok.
change (py_slice_to (VList (VStr <$> subs)) 2)
  with (Ok (VList (take 2 (VStr <$> subs)))).
rewrite typed_lift_ok.
change (py_iter (VList (take 2 (VStr <$> subs)))) with (Ok (take 2 (VStr <$> subs))).
rewrite typed_lift_ok.
rewrite <- fmap_take.
apply (dyn_for_each_typed (λ x s, x = VStr s)).
{ apply Forall2_fmap_l, Forall_Forall2_diag, Forall_forall. by intros. }
intros x s ds'' ->. rewrite get_dyn_state_bind.
change (fresh_value (VStr s) ds'') with (Ok (fresh_key s (typed_state ds''))).
rewrite typed_lift_ok, typed_get_state.
apply (search_key_typed (subtopic_queries topic) "concept" s).
Qed.

Lemma decode_modules_Forall2 v ms :
decode_modules v = Some ms →
∃ l, v = VList l ∧ Forall2 (λ x m, decode_module x = Some m) l ms.
Proof.
destruct v as [| | | |l|]; try done. simpl. intros H%mapM_Some. by exists l.
Qed.

(** On modules that fit the schema the enhancer read at any shape is the
    enhancer read at the schema. *)
Lemma enhance_generated_path_typed p lp st nums :
typed_path p = Some lp →
match enhance_learning_path_with_youtube world topic lp st with
| Ok (lp', st') =>
    ∃ p', enhance_generated_path world topic p
            {| typed_state := st; searched_numbers := nums |}
          = Ok (p', {| typed_state := st'; searched_numbers := nums |}) ∧
          typed_path p' = Some lp'
| Raise e =>
    enhance_generated_path world topic p
      {| typed_state := st; searched_numbers := nums |} = Raise e
end.
Proof.
unfold typed_path. destruct (decode_modules (path_modules p)) as [ms|] eqn:Hdec; [|done].
simpl. intros Hlp. injection Hlp as <-.
destruct (decode_modules_Forall2 _ _ Hdec) as (l & Hl & Hall).
assert (∀ ds, dyn_for_each (take 3 l) (search_module_dyn world topic) ds
              = typed (for_each (take 3 ms) (search_module world topic)) ds) as Hloop.
{ apply (dyn_for_each_typed (λ x m, decode_module x = Some m)).
  - by apply Forall2_take.
  - intros x m ds Hx. by apply search_module_dyn_typed. }
set (ds := {| typed_state := st; searched_numbers := nums |}).
set (finish := λ ds' : DynState,
  match final_recommendations (enhanced_recommendations (typed_state ds')) with
  | [] => mret p
  | _ :: _ =>
      mret {| path_topic := path_topic p;
              path_modules := path_modules p;
              path_recommendations :=
                VList (recommendation_value
                       <$> final_recommendations
                             (enhanced_recommendations (typed_state ds')));
              path_quiz := path_quiz p |}
  end : Dyn GeneratedPath).
assert (enhance_generated_path world topic p ds
        = ((typed (search_topic world topic);;
            typed (for_each (take 3 ms) (search_module world topic));;
            typed (search_fill world topic);;
            get_dyn_state ≫= finish) : Dyn GeneratedPath) ds) as Hrun.
{ unfold enhance_generated_path. apply dyn_bind_ext; [done|]. intros _ ds1.
  rewrite Hl.
  change (py_slice_to (VList l) 3) with (Ok (VList (take 3 l))).
  rewrite typed_lift_ok.
  change (py_iter (VList (take 3 l))) with (Ok (take 3 l)).
  rewrite typed_lift_ok.
  apply dyn_bind_ext; [apply Hloop|]. intros _ ds2.
  apply dyn_bind_ext; [done|]. intros _ ds3.
  apply dyn_bind_ext; [done|]. intros ds4 ds5. unfold finish. by rewrite Hl. }
rewrite Hrun. unfold enhance_learning_path_with_youtube.
unfold mbind, Dyn_bind, Enh_bind, typed, get_dyn_state, get_state, ds.
cbn [typed_state searched_numbers modules].
destruct (search_topic world topic st) as [[[] st1]|e];
  cbn [typed_state searched_numbers]; [|done].
destruct (for_each (take 3 ms) (search_module world topic) st1) as [[[] st2]|e];
  cbn [typed_state searched_numbers]; [|done].
destruct (search_fill world topic st2) as [[[] st3]|e];
  cbn [typed_state searched_numbers]; [|done].
unfold finish. cbn [typed_state].
destruct (final_recommendations (enhanced_recommendations st3)) as [|r final].
- exists p. split; [done|]. by rewrite Hdec.
- eexists. split; [done|]. simpl. by rewrite Hdec.
Qed.

End DynTyped.

(** X17. [generate_learning_path] of [routes.py], up to the enhanced
    path. Generating the content and reading its [modules] raises
    nothing. When the generated modules fit the schema of
    [learning_path.py] (a list of objects whose title, if any, is a string
    and whose subtopics, if any, are a list of strings), nothing is raised
    on the way, and the path handed to the store and to the caller has the
    topic of the request, these modules, at least 1 recommendation and at
    least 5 quiz questions, so [or []] leaves its recommendations as they
    are. When the generator has failed, the modules are the 3 of the
    fallback, which fit the schema. Modules outside the schema can make
    the enhancer raise. *)
Theorem generate_learning_path_returns json_loads env world t :
  ∃ d generated_modules,
    generate_learning_path_content json_loads env t = Ok (VDict d) ∧
    py_getitem (VDict d) "modules" = Ok generated_modules ∧
    (∀ ms, decode_modules generated_modules = Some ms →
       (2 ≤ length ms)%nat ∧
       ∃ p, generate_learning_path json_loads env world t = Ok (Some p) ∧
            topic p = t ∧ modules p = ms ∧ path_well_sized p) ∧
    (∀ e, generate_body json_loads env t = Raise e →
       ∃ p, generate_learning_path json_loads env world t = Ok (Some p) ∧
            length (modules p) = 3%nat).
Proof.
  destruct (generate_well_sized json_loads env t) as (d & Hgen & Hm & Hr & Hq).
  destruct Hm as (v & len & Hget & Hlen & Hle).
  destruct Hr as (vr & lr & Hgr & Hlr & Hler).
  destruct Hq as (vq & lq & Hgq & Hlq & Hleq).
  assert (∀ ms, decode_modules v = Some ms →
            (2 ≤ length ms)%nat ∧
            ∃ p, generate_learning_path json_loads env world t = Ok (Some p) ∧
                 topic p = t ∧ modules p = ms ∧ path_well_sized p) as Hfits.
  { intros ms Hdec.
    pose proof (decode_modules_length _ _ Hdec) as Hms.
    rewrite Hms in Hlen. injection Hlen as <-. split; [done|].
    set (g := {| path_topic := t; path_modules := v;
                 path_recommendations := vr; path_quiz := vq |}).
    set (p := {| topic := t; modules := ms;
                 youtube_recommendations := vr; quiz_questions := vq |}).
    assert (typed_path g = Some p) as Hg.
    { unfold typed_path. simpl. by rewrite Hdec. }
    pose proof (enhance_generated_path_typed world t g p initial_state ∅ Hg) as Hsim.
    destruct (enhance_post world t p)
      as (path' & st' & _ & _ & Hrun & _ & _ & _ & _ & Hpath).
    unfold enhance in Hrun. rewrite Hrun in Hsim.
    destruct Hsim as (g' & Hdyn & Hg').
    exists path'. split.
    { unfold generate_learning_path. rewrite Hgen. simpl.
      unfold assemble_learning_path. simpl. rewrite Hget, Hgr, Hgq. simpl.
      fold g. unfold initial_dyn_state. rewrite Hdyn. simpl. by rewrite Hg'. }
    rewrite Hpath.
    destruct (final_recommendations (enhanced_recommendations st')) as [|r final];
      simpl; (split; [done|]); (split; [done|]);
      unfold path_well_sized, stored_youtube_recommendations; simpl.
    - split_and!; [done|by exists lr; split; [|lia]|by exists lq|].
      by rewrite (py_len_truthy vr lr) by (done || lia).
    - split_and!; [done| |by exists lq|done].
      eexists. split; [done|]. simpl. lia. }
  exists d, v. split; [done|]. simpl. rewrite Hget. split_and!; try done.
  intros e He.
  assert (generate_learning_path_content json_loads env t = Ok (error_default t))
    as Hfb.
  { rewrite (generate_from_failure _ _ _ _ He). by destruct e. }
  rewrite Hfb in Hgen. injection Hgen as <-.
  simpl in Hget. injection Hget as <-.
  edestruct Hfits as (_ & p & Hrun & _ & Hmods & _); [reflexivity|].
  exists p. split; [done|]. by rewrite Hmods.
Qed.

(** X17 when the model call times out. *)
Lemma generate_learning_path_returns_witness :
  generate_body reject_all timeout_env "Rust" = Raise TimeoutError ∧
  ∃ p, generate_learning_path reject_all timeout_env no_key_world "Rust" = Ok (Some p) ∧
       length (modules p) = 3%nat.
Proof.
  split; [reflexivity|].
  destruct (generate_learning_path_returns reject_all timeout_env no_key_world "Rust")
    as (d & v & _ & _ & _ & Hfail).
  apply (Hfail TimeoutError). reflexivity.
Defined.

(** A module whose [subtopics] is [null]: its title is searched, then
    slicing [None] raises, and so does [generate_learning_path]. *)
Lemma null_subtopics_raise :
  null_json_loads null_text = Ok (VDict [("modules", null_modules)]) ∧
  (∃ content,
     generate_learning_path_content null_json_loads null_env "Rust" = Ok content ∧
     py_getitem content "modules" = Ok null_modules) ∧
  decode_modules null_modules = None ∧
  generate_learning_path null_json_loads null_env no_key_world "Rust" = Raise TypeError.
Proof.
  split; [reflexivity|]. split; [|split; vm_compute; reflexivity].
  eexists. split; vm_compute; reflexivity.
Qed.

Lemma insert_learning_path_cases env topic modules recs quiz user_id :
  insert_learning_path env topic modules recs quiz user_id
  = Ok (mock_inserted topic modules recs quiz user_id) ∨
  ∃ supabase rows row,
    create_client env (default "" (SUPABASE_URL env)) (default "" (SUPABASE_KEY env))
    = Ok supabase ∧
    insert_execute supabase "learning_paths" (insert_data topic modules recs quiz user_id)
    = Ok rows ∧
    py_truthy rows = true ∧ py_first rows = Ok row ∧
    insert_learning_path env topic modules recs quiz user_id = Ok row.
Proof.
  unfold insert_learning_path, get_supabase_client.
  destruct (create_client env _ _) as [supabase|] eqn:Hc; simpl; [|by left].
  destruct (insert_execute supabase _ _) as [rows|] eqn:Hi; simpl; [|by left].
  destruct (py_truthy rows) eqn:Ht; simpl; [|by left].
  destruct (py_first rows) as [row|] eqn:Hf; simpl; [|by left].
  right. by exists supabase, rows, row.
Qed.

Lemma get_learning_path_cases env path_id :
  get_learning_path env path_id = Ok (mock_found path_id) ∨
  ∃ supabase rows row,
    create_client env (default "" (SUPABASE_URL env)) (default "" (SUPABASE_KEY env))
    = Ok supabase ∧
    select_eq_execute supabase "learning_paths" "*" "id" path_id = Ok rows ∧
    py_truthy rows = true ∧ py_first rows = Ok row ∧
    get_learning_path env path_id = Ok row.
Proof.
  unfold get_learning_path, get_supabase_client.
  destruct (create_client env _ _) as [supabase|] eqn:Hc; simpl; [|by left].
  destruct (select_eq_execute supabase _ _ _ _) as [rows|] eqn:Hi; simpl; [|by left].
  destruct (py_truthy rows) eqn:Ht; simpl; [|by left].
  destruct (py_first rows) as [row|] eqn:Hf; simpl; [|by left].
  right. by exists supabase, rows, row.
Qed.

(** X18. [insert_learning_path] raises nothing. It returns the first row
    of the store's answer when there is one; when the client cannot be
    created, the insertion raises, the answer has no rows or its first row
    cannot be read, it returns a stand-in record with the id ["mock-id"]
    that carries the topic, the modules, the recommendations and the quiz
    it was given, [None] read as the empty list. *)
Theorem insert_learning_path_returns env topic modules recs quiz user_id :
  let data := insert_data topic modules recs quiz user_id in
  let mock := mock_inserted topic modules recs quiz user_id in
  let url := default "" (SUPABASE_URL env) in
  let key := default "" (SUPABASE_KEY env) in
  (∃ r, insert_learning_path env topic modules recs quiz user_id = Ok r) ∧
  (∀ e, create_client env url key = Raise e →
        insert_learning_path env topic modules recs quiz user_id = Ok mock) ∧
  (∀ supabase e,
     create_client env url key = Ok supabase →
     insert_execute supabase "learning_paths" data = Raise e →
     insert_learning_path env topic modules recs quiz user_id = Ok mock) ∧
  (∀ supabase rows,
     create_client env url key = Ok supabase →
     insert_execute supabase "learning_paths" data = Ok rows →
     py_truthy rows = false →
     insert_learning_path env topic modules recs quiz user_id = Ok mock) ∧
  (∀ supabase rows e,
     create_client env url key = Ok supabase →
     insert_execute supabase "learning_paths" data = Ok rows →
     py_first rows = Raise e →
     insert_learning_path env topic modules recs quiz user_id = Ok mock) ∧
  (∀ supabase row rows,
     create_client env url key = Ok supabase →
     insert_execute supabase "learning_paths" data = Ok (VList (row :: rows)) →
     insert_learning_path env topic modules recs quiz user_id = Ok row) ∧
  py_getitem mock "id" = Ok (VStr "mock-id") ∧
  py_getitem mock "topic" = Ok (VStr topic) ∧
  py_getitem mock "modules" = Ok modules ∧
  py_getitem mock "youtube_recommendations" = Ok (or_empty_list recs) ∧
  py_getitem mock "quiz_questions" = Ok (or_empty_list quiz) ∧
  or_empty_list VNone = VList [].
Proof.
  intros data mock url key. split_and!; try reflexivity.
  - destruct (insert_learning_path_cases env topic modules recs quiz user_id)
      as [->|(? & ? & row & _ & _ & _ & _ & ->)]; by eexists.
  - intros e He. unfold insert_learning_path, get_supabase_client.
    fold url key. by rewrite He.
  - intros supabase e Hc Hi. unfold insert_learning_path, get_supabase_client.
    fold url key. rewrite Hc. simpl. fold data. by rewrite Hi.
  - intros supabase rows Hc Hi Ht. unfold insert_learning_path, get_supabase_client.
    fold url key. rewrite Hc. simpl. fold data. rewrite Hi. simpl. by rewrite Ht.
  - intros supabase rows e Hc Hi Hf. unfold insert_learning_path, get_supabase_client.
    fold url key. rewrite Hc. simpl. fold data. rewrite Hi. simpl. rewrite Hf.
    by destruct (py_truthy rows).
  - intros supabase row rows Hc Hi. unfold insert_learning_path, get_supabase_client.
    fold url key. rewrite Hc. simpl. fold data. by rewrite Hi.
Qed.

(** X19. [get_learning_path] raises nothing. It returns the first row the
    store answers with; an id the store does not have, and a store that
    cannot be reached or fails, both give the same stand-in record, with
    the id asked for and the topic ["Mock Topic"]. *)
Theorem get_learning_path_returns env path_id :
  let url := default "" (SUPABASE_URL env) in
  let key := default "" (SUPABASE_KEY env) in
  (∃ r, get_learning_path env path_id = Ok r) ∧
  (∀ e, create_client env url key = Raise e →
        get_learning_path env path_id = Ok (mock_found path_id)) ∧
  (∀ supabase e,
     create_client env url key = Ok supabase →
     select_eq_execute supabase "learning_paths" "*" "id" path_id = Raise e →
     get_learning_path env path_id = Ok (mock_found path_id)) ∧
  (∀ supabase,
     create_client env url key = Ok supabase →
     select_eq_execute supabase "learning_paths" "*" "id" path_id = Ok (VList []) →
     get_learning_path env path_id = Ok (mock_found path_id)) ∧
  (∀ supabase row rows,
     create_client env url key = Ok supabase →
     select_eq_execute supabase "learning_paths" "*" "id" path_id
     = Ok (VList (row :: rows)) →
     get_learning_path env path_id = Ok row) ∧
  py_getitem (mock_found path_id) "id" = Ok (VStr path_id) ∧
  py_getitem (mock_found path_id) "topic" = Ok (VStr "Mock Topic").
Proof.
  intros url key. split_and!; try reflexivity.
  - destruct (get_learning_path_cases env path_id)
      as [->|(? & ? & row & _ & _ & _ & _ & ->)]; by eexists.
  - intros e He. unfold get_learning_path, get_supabase_client.
    fold url key. by rewrite He.
  - intros supabase e Hc Hi. unfold get_learning_path, get_supabase_client.
    fold url key. rewrite Hc. simpl. by rewrite Hi.
  - intros supabase Hc Hi. unfold get_learning_path, get_supabase_client.
    fold url key. rewrite Hc. simpl. by rewrite Hi.
  - intros supabase row rows Hc Hi. unfold get_learning_path, get_supabase_client.
    fold url key. rewrite Hc. simpl. by rewrite Hi.
Qed.

(** X20. While the store cannot be reached, a path that is inserted is not
    read back: the insertion returns the id ["mock-id"], and the lookup of
    that id returns the topic ["Mock Topic"], not the topic inserted. *)
Theorem insert_then_get_when_down env topic modules recs quiz user_id e :
  create_client env (default "" (SUPABASE_URL env)) (default "" (SUPABASE_KEY env))
  = Raise e →
  ∃ stored found,
    insert_learning_path env topic modules recs quiz user_id = Ok stored ∧
    py_getitem stored "id" = Ok (VStr "mock-id") ∧
    py_getitem stored "topic" = Ok (VStr topic) ∧
    get_learning_path env "mock-id" = Ok found ∧
    py_getitem found "id" = Ok (VStr "mock-id") ∧
    py_getitem found "topic" = Ok (VStr "Mock Topic") ∧
    (topic ≠ "Mock Topic" → py_getitem found "topic" ≠ py_getitem stored "topic").
Proof.
  intros He. eexists _, _. split_and!.
  - unfold insert_learning_path, get_supabase_client. by rewrite He.
  - reflexivity.
  - reflexivity.
  - unfold get_learning_path, get_supabase_client. by rewrite He.
  - reflexivity.
  - reflexivity.
  - intros Hne Heq. simpl in Heq. by simplify_eq.
Qed.

(** X20 on a store whose client cannot be created. *)
Lemma insert_then_get_when_down_witness :
  ∃ stored found,
    insert_learning_path store_down "Rust" (VList []) VNone VNone VNone = Ok stored ∧
    py_getitem stored "id" = Ok (VStr "mock-id") ∧
    py_getitem stored "topic" = Ok (VStr "Rust") ∧
    get_learning_path store_down "mock-id" = Ok found ∧
    py_getitem found "id" = Ok (VStr "mock-id") ∧
    py_getitem found "topic" = Ok (VStr "Mock Topic") ∧
    ("Rust" ≠ "Mock Topic" → py_getitem found "topic" ≠ py_getitem stored "topic").
Proof.
  apply (insert_then_get_when_down store_down "Rust" (VList []) VNone VNone VNone
           RuntimeError).
  reflexivity.
Defined.

Lemma answer_ok world i call : Forall record_ok (answer world i call).
Proof.
  unfold answer.
  destruct (search_youtube_videos_cases (world i) call.1 call.2)
    as [->|(key & response & videos & _ & _ & _ & _ & Hc & ->)]; [constructor|].
  by apply collect_videos_spec in Hc as [? _].
Qed.

Lemma collected_watch_links world topic events r :
  r ∈ collected world topic events → is_prefix watch_prefix (rec_url r) = true.
Proof.
  unfold collected. intros (l & Hl & Hr)%elem_of_concat.
  apply elem_of_lookup_imap_1 in Hl as (i & o & -> & Ho).
  apply list_elem_of_fmap in Hr as (v & -> & Hv).
  pose proof (answer_ok world i (origin_call topic o)) as Hall.
  rewrite Forall_forall in Hall. by destruct (Hall v Hv).
Qed.

Lemma keywords_allowed_three topic ms keywords :
  keywords_allowed topic ms keywords → ∃ k2 k3, keywords = [lower topic; k2; k3].
Proof.
  intros [->|[->|[->|[(m & _ & ->)|(m & s & _ & _ & ->)]]]]; by eexists _, _.
Qed.

Lemma first_seen_app seen l1 l2 :
  first_seen seen (l1 ++ l2)
  = first_seen seen l1 ++ first_seen (list_to_set (rec_url <$> l1) ∪ seen) l2.
Proof.
  revert seen; induction l1 as [|r l1 IH]; intros seen; simpl.
  - by rewrite (left_id_L ∅ (∪)).
  - case_decide as Hin.
    + rewrite IH. f_equal. f_equal. apply set_eq. intros u.
      rewrite !elem_of_union, elem_of_singleton. split; [tauto|].
      intros [[->|?]|?]; tauto.
    + simpl. rewrite IH. f_equal. f_equal. f_equal. apply set_eq. intros u.
      rewrite !elem_of_union, elem_of_singleton. tauto.
Qed.

Lemma size_union_singleton (x : string) (Y : gset string) :
  x ∉ Y → size ({[x]} ∪ Y) = S (size Y).
Proof.
  intros Hx. rewrite size_union, size_singleton; [done|].
  intros u. rewrite elem_of_singleton. by intros ->.
Qed.

Lemma first_seen_length seen l :
  length (first_seen seen l)
  = size ((list_to_set (rec_url <$> l) : gset string) ∖ seen).
Proof.
  revert seen; induction l as [|r l IH]; intros seen.
  - symmetry. apply size_empty_iff, elem_of_equiv_empty. intros u.
    rewrite elem_of_difference. by intros [?%not_elem_of_empty _].
  - change (first_seen seen (r :: l))
      with (if decide (rec_url r ∈ seen) then first_seen seen l
            else r :: first_seen ({[rec_url r]} ∪ seen) l).
    rewrite fmap_cons, list_to_set_cons. case_decide as Hin.
    + rewrite IH. f_equal. apply set_eq. intros u.
      rewrite !elem_of_difference, elem_of_union, elem_of_singleton.
      split; [tauto|]. intros [[->|?] ?]; tauto.
    + cbn [length]. rewrite IH.
      assert (({[rec_url r]} ∪ list_to_set (rec_url <$> l)) ∖ seen
              = ({[rec_url r]} : gset string)
                ∪ (list_to_set (rec_url <$> l) ∖ ({[rec_url r]} ∪ seen))) as ->.
      { apply set_eq. intros u.
        rewrite !elem_of_union, !elem_of_difference, !elem_of_union, elem_of_singleton.
        split.
        - intros [[->|?] ?]; [by left|].
          destruct (decide (u = rec_url r)); [by left|]. right. tauto.
        - intros [->|[? ?]]; tauto. }
      rewrite (size_union_singleton (rec_url r)
                 (list_to_set (rec_url <$> l) ∖ ({[rec_url r]} ∪ seen))); [done|].
      rewrite elem_of_difference, elem_of_union, elem_of_singleton. tauto.
Qed.

(** X9. The final list has exactly as many entries as there are distinct
    urls among the recommendations collected, or 5 when there are more. *)
Theorem final_recommendations_count l :
  length (final_recommendations l)
  = (size (list_to_set (rec_url <$> l) : gset string) `min` 5)%nat.
Proof.
  unfold final_recommendations. rewrite length_take, deduplicate_first_seen.
  rewrite first_seen_length.
  assert (list_to_set (rec_url <$> l) ∖ ∅ = (list_to_set (rec_url <$> l) : gset string))
    as ->.
  { apply set_eq. intros u. rewrite elem_of_difference. split; [tauto|].
    intros ?. split; [done|]. apply not_elem_of_empty. }
  lia.
Qed.

(** X10. Recommendations collected later never displace earlier ones: the
    final list of [l1] is a prefix of the final list of [l1 ++ l2], and the
    two are equal once the first has 5 entries. *)
Theorem final_recommendations_prefix l1 l2 :
  final_recommendations l1 `prefix_of` final_recommendations (l1 ++ l2) ∧
  ((5 ≤ length (final_recommendations l1))%nat →
   final_recommendations (l1 ++ l2) = final_recommendations l1).
Proof.
  unfold final_recommendations. rewrite !deduplicate_first_seen, first_seen_app.
  set (a := first_seen ∅ l1). set (b := first_seen _ l2).
  rewrite take_app. split.
  - by apply prefix_app_r.
  - rewrite length_take. intros Hlen.
    replace (5 - length a)%nat with 0%nat by lia. by rewrite take_0, app_nil_r.
Qed.

(** X10 on five urls followed by a sixth. *)
Lemma final_recommendations_prefix_witness :
  (5 ≤ length (final_recommendations
                 ((λ u, {| rec_title := VStr "t"; rec_url := u; rec_keywords := [] |})
                  <$> ["u1"; "u2"; "u3"; "u4"; "u5"])))%nat ∧
  final_recommendations
    (((λ u, {| rec_title := VStr "t"; rec_url := u; rec_keywords := [] |})
      <$> ["u1"; "u2"; "u3"; "u4"; "u5"])
     ++ [{| rec_title := VStr "t"; rec_url := "u6"; rec_keywords := [] |}])
  = final_recommendations
      ((λ u, {| rec_title := VStr "t"; rec_url := u; rec_keywords := [] |})
       <$> ["u1"; "u2"; "u3"; "u4"; "u5"]).
Proof.
  assert (5 ≤ length (final_recommendations
                 ((λ u, {| rec_title := VStr "t"; rec_url := u; rec_keywords := [] |})
                  <$> ["u1"; "u2"; "u3"; "u4"; "u5"])))%nat as Hlen.
  { vm_compute. lia. }
  split; [exact Hlen|].
  exact (proj2 (final_recommendations_prefix _ _) Hlen).
Defined.

(** X7. When the enhancer replaces the recommendations of the path, every
    entry of the new list is a dictionary with exactly the keys [title],
    [url] and [keywords], whose url is a watch link and whose keywords are
    three strings, the first being the topic in lower case. *)
Theorem enhance_entries world topic learning_path :
  ∃ path' st',
    enhance world topic learning_path = Ok (path', st') ∧
    (enhanced_recommendations st' ≠ [] →
     ∃ entries,
       youtube_recommendations path' = VList entries ∧
       Forall (entry_ok topic) entries) ∧
    Forall (λ r, is_prefix watch_prefix (rec_url r) = true)
      (enhanced_recommendations st').
Proof.
  destruct (enhance_trace world topic learning_path)
    as (path' & st' & Hrun & (_ & He & _) & Hpath).
  exists path', st'. split; [done|].
  assert (∀ r, r ∈ enhanced_recommendations st' →
            is_prefix watch_prefix (rec_url r) = true ∧
            ∃ k2 k3, rec_keywords r = [lower topic; k2; k3]) as Hall.
  { intros r Hr. rewrite He in Hr. split; [by eapply collected_watch_links|].
    apply elem_of_collected in Hr as (o & Ho & ->).
    eapply keywords_allowed_three. by eapply all_events_keywords. }
  split.
  - intros Hne.
    destruct (final_recommendations (enhanced_recommendations st')) as [|r final] eqn:Hf.
    { destruct Hne. by apply final_recommendations_nil. }
    rewrite Hpath. exists (recommendation_value <$> r :: final). split; [done|].
    rewrite <- Hf. apply Forall_fmap, Forall_forall. intros r' Hr'.
    destruct (Hall r') as (Hlink & k2 & k3 & Hk).
    { eapply elem_of_sublist; [done|]. apply final_recommendations_sublist. }
    exists (rec_title r'), (rec_url r'), k2, k3. split; [|done].
    unfold recommendation_value. by rewrite Hk.
  - apply Forall_forall. intros r Hr. by destruct (Hall r Hr).
Qed.

Lemma path_keys_view ms ms' : modules_view ms = modules_view ms' → path_keys ms = path_keys ms'.
Proof.
  unfold modules_view, path_keys. intros Hview. f_equal.
  assert (∀ l : list LearningModule,
            module_keys <$> l
            = (λ v : string * list string, ModuleTitle v.1 :: (Subtopic <$> v.2))
              <$> (module_view <$> l)) as Hkeys.
  { intros l. rewrite <- list_fmap_compose. by apply list_fmap_ext. }
  by rewrite !Hkeys, Hview.
Qed.

Lemma all_events_view world topic ms ms' :
  modules_view ms = modules_view ms' →
  all_events world topic ms = all_events world topic ms'.
Proof.
  intros Hview. unfold all_events, planned_events.
  by rewrite (path_keys_view _ _ Hview).
Qed.

Lemma trace_same world topic st st' events seen :
  trace world topic st events seen → trace world topic st' events seen → st = st'.
Proof.
  intros (Hc & He & Hs) (Hc' & He' & Hs').
  destruct st, st'. simpl in *. by subst.
Qed.

(** X8. The enhancer reads of the modules only the titles of the first
    three and the first two subtopics of each: two paths that agree on
    these get the same calls, the same recommendations collected and the
    same strings marked, whatever their other modules, subtopics and
    fields. *)
Theorem enhance_reads_a_view world topic learning_path learning_path' :
  modules_view (modules learning_path) = modules_view (modules learning_path') →
  ∃ path1 path2 st',
    enhance world topic learning_path = Ok (path1, st') ∧
    enhance world topic learning_path' = Ok (path2, st') ∧
    (enhanced_recommendations st' ≠ [] →
     youtube_recommendations path1 = youtube_recommendations path2).
Proof.
  intros Hview.
  destruct (enhance_trace world topic learning_path)
    as (path1 & st1 & Hrun1 & Htr1 & Hpath1).
  destruct (enhance_trace world topic learning_path')
    as (path2 & st2 & Hrun2 & Htr2 & Hpath2).
  rewrite <- (all_events_view world topic _ _ Hview),
    <- (path_keys_view _ _ Hview) in Htr2.
  assert (st2 = st1) as -> by by eapply trace_same.
  exists path1, path2, st1. split_and!; try done.
  intros Hne.
  destruct (final_recommendations (enhanced_recommendations st1)) as [|r final] eqn:Hf.
  { destruct Hne. by apply final_recommendations_nil. }
  by rewrite Hpath1, Hpath2.
Qed.

(** X8 on two paths that differ beyond the third module and the second subtopic. *)
Lemma enhance_reads_a_view_witness :
  ∃ path1 path2 st',
    enhance no_key_world "Rust" longer_path = Ok (path1, st') ∧
    enhance no_key_world "Rust" shorter_path = Ok (path2, st') ∧
    (enhanced_recommendations st' ≠ [] →
     youtube_recommendations path1 = youtube_recommendations path2).
Proof.
  apply (enhance_reads_a_view no_key_world "Rust" longer_path shorter_path).
  reflexivity.
Defined.

(** X16. When [json.loads] rejects the answer and the answer holds no
    span in braces, the content returned has the 2 modules of the parse
    default (["Introduction to {topic}"] and ["Intermediate {topic}"]),
    which are kept, with the 5 recommendations and the 10 quiz questions of
    the self-repair in place of the single ones of the parse default. *)
Theorem generate_from_prose json_loads env topic text :
  truthy_opt (GOOGLE_API_KEY env) = true →
  generate_content env = Ok text →
  json_loads text = Raise JSONDecodeError →
  json_match text = None →
  ∃ d modules,
    generate_learning_path_content json_loads env topic = Ok (VDict d) ∧
    dict_get "modules" d = Some modules ∧
    py_getitem (unparsed_default topic) "modules" = Ok modules ∧
    module_titles modules
    = [VStr ("Introduction to " +:+ topic); VStr ("Intermediate " +:+ topic)] ∧
    dict_get "youtube_recommendations" d = Some (repair_youtube_recommendations topic) ∧
    dict_get "quiz_questions" d = Some (repair_quiz_questions topic).
Proof.
  intros Hkey Htext Hloads Hmatch. eexists _, _. split.
  - eapply generate_from_parsed.
    + done.
    + done.
    + unfold parse_response. by rewrite Hloads, Hmatch.
    + reflexivity.
  - split_and!; reflexivity.
Qed.

(** X16 on a prose answer. *)
Lemma generate_from_prose_witness :
  ∃ d modules,
    generate_learning_path_content reject_all prose_env "Rust" = Ok (VDict d) ∧
    dict_get "modules" d = Some modules ∧
    py_getitem (unparsed_default "Rust") "modules" = Ok modules ∧
    module_titles modules
    = [VStr ("Introduction to " +:+ "Rust"); VStr ("Intermediate " +:+ "Rust")] ∧
    dict_get "youtube_recommendations" d = Some (repair_youtube_recommendations "Rust") ∧
    dict_get "quiz_questions" d = Some (repair_quiz_questions "Rust").
Proof.
  apply (generate_from_prose reject_all prose_env "Rust" "I cannot answer that.");
    reflexivity.
Defined.

(** X21. An answer that parses, directly or through the extracted span,
    to an object with at least 2 modules, 3 recommendations and 5 quiz
    questions is returned exactly as parsed: the self-repair changes
    nothing of it, its other keys included. *)
Theorem generate_passes_through json_loads env topic text d :
  truthy_opt (GOOGLE_API_KEY env) = true →
  generate_content env = Ok text →
  well_sized d →
  json_loads text = Ok (VDict d) ∨
  (json_loads text = Raise JSONDecodeError ∧
   ∃ span, json_match text = Some span ∧ json_loads span = Ok (VDict d)) →
  generate_learning_path_content json_loads env topic = Ok (VDict d).
Proof.
  intros Hkey Htext Hd Hparse.
  eapply generate_from_parsed; [done|done| |by apply well_sized_kept].
  unfold parse_response.
  destruct Hparse as [->|(-> & span & -> & ->)]; done.
Qed.

(** X21 on an answer with 2 modules, 3 recommendations and 5 quiz questions. *)
Lemma generate_passes_through_witness :
  well_sized full_output ∧
  generate_learning_path_content full_json_loads full_env "Rust" = Ok (VDict full_output).
Proof.
  assert (well_sized full_output) as Hd.
  { split_and!; eexists _, _; (split; [reflexivity|]); (split; [reflexivity|]);
      simpl; lia. }
  split; [exact Hd|].
  apply (generate_passes_through full_json_loads full_env "Rust" full_text full_output).
  - reflexivity.
  - reflexivity.
  - exact Hd.
  - left. reflexivity.
Defined.
